(** * MoS: mouse steering — the motion-to-rotation state machine

    A shallow embedding of the two [SteeringLogic] classes of the repository,
    [steering_logic.py] (module [SteeringLogicMain]) and the standalone
    variant [core_logic.py] (module [CoreLogic]).

    Python numbers are abstracted by the class [Number], so each method is
    written once and read at two instances: [ExactNumber] (rationals, the
    arithmetic the design is described in) and [Binary64] (IEEE-754 doubles,
    what CPython computes with).  The two functions of the [math] module
    the code calls, [math.degrees (math.atan2 dy dx)] and [math.sqrt], are
    parameters of the model.

    Calls into the environment are made explicit: a method returns the new
    object together with the list of effects it performed (writes to the
    vJoy axis, notifications to the GUI, an uncaught exception), and the
    pointer position a method asks the system for is an argument, [None]
    when the query raises.  Console [print]s and the wall-clock stamp
    [last_event_time] (never read in per-event mode) are left out. *)

From Stdlib Require Import ZArith QArith Qabs Qround Lqa Lia List Bool Floats.
Import ListNotations.

Set Implicit Arguments.
Set Warnings "-notation-for-abbreviation".

(** ** Numbers *)

Class Number (T : Type) : Type := {
  num_of_Z : Z -> T;              (* an int literal or an int attribute *)
  num_add : T -> T -> T;
  num_sub : T -> T -> T;
  num_mul : T -> T -> T;
  num_div : T -> T -> T;          (* true division [/] *)
  num_opp : T -> T;
  num_abs : T -> T;               (* [abs] *)
  num_ltb : T -> T -> bool;       (* [<]; [a > b] is [num_ltb b a] *)
  num_eqb : T -> T -> bool;       (* [==] *)
  num_int : T -> Z                (* [int]: truncation toward zero *)
}.

Declare Scope num_scope.
Delimit Scope num_scope with num.
Infix "+" := num_add : num_scope.
Infix "-" := num_sub : num_scope.
Infix "*" := num_mul : num_scope.
Infix "/" := num_div : num_scope.
Notation "- x" := (num_opp x) : num_scope.
Infix "<?" := num_ltb : num_scope.
Infix "=?" := num_eqb : num_scope.
Notation "x >? y" := (num_ltb y x) (only parsing) : num_scope.

(** Exact arithmetic: rationals. *)

Definition Qltb (x y : Q) : bool := negb (Qle_bool y x).

Definition Qint (x : Q) : Z := Z.quot (Qnum x) (Zpos (Qden x)).

#[export] Instance ExactNumber : Number Q := {|
  num_of_Z := inject_Z;
  num_add := Qplus;
  num_sub := Qminus;
  num_mul := Qmult;
  num_div := Qdiv;
  num_opp := Qopp;
  num_abs := Qabs;
  num_ltb := Qltb;
  num_eqb := Qeq_bool;
  num_int := Qint
|}.

(** IEEE-754 doubles, the representation of a CPython [float].  An int is
    converted with round-to-nearest-even; [int] of a finite double drops the
    fractional bits of its mantissa (of a NaN or an infinity Python raises;
    the model returns 0 there). *)

Definition float_of_Z (z : Z) : float :=
  SF2Prim (binary_normalize prec emax z 0 false).

Definition float_int (f : float) : Z :=
  match Prim2SF f with
  | S754_finite s m e =>
      let mag := match e with
                 | Z0 => Zpos m
                 | Zpos p => Z.shiftl (Zpos m) (Zpos p)
                 | Zneg p => Z.shiftr (Zpos m) (Zpos p)
                 end in
      if s then Z.opp mag else mag
  | _ => 0%Z
  end.

#[export] Instance Binary64 : Number float := {|
  num_of_Z := float_of_Z;
  num_add := PrimFloat.add;
  num_sub := PrimFloat.sub;
  num_mul := PrimFloat.mul;
  num_div := PrimFloat.div;
  num_opp := PrimFloat.opp;
  num_abs := PrimFloat.abs;
  num_ltb := PrimFloat.ltb;
  num_eqb := PrimFloat.eqb;
  num_int := float_int
|}.

(** ** [collections.deque] with a [maxlen] *)

Record deque (T : Type) : Type := Deque {
  items : list T;
  maxlen : nat
}.

Section DequeOps.
Context {T : Type} `{Number T}.

Definition deque_clear (d : deque T) : deque T :=
  {| items := []; maxlen := maxlen d |}.

(* [append] on a full deque discards the item at the other end. *)
Definition deque_append (d : deque T) (a : T) : deque T :=
  let l := items d ++ [a] in
  {| items := if (maxlen d <? length l)%nat then tl l else l;
     maxlen := maxlen d |}.

(* [sum(d)]: left to right, starting from the int 0. *)
Definition deque_sum (d : deque T) : T :=
  fold_left num_add (items d) (num_of_Z 0).

Definition deque_len (d : deque T) : T :=
  num_of_Z (Z.of_nat (length (items d))).

(* [d.clear(); for _ in range(n): d.append(a)] *)
Definition deque_refill (d : deque T) (n : nat) (a : T) : deque T :=
  Nat.iter n (fun d' => deque_append d' a) (deque_clear d).

(* [min(a, b)] and [max(a, b)] of the builtins: the first argument is
   kept unless the second is strictly smaller (larger). *)
Definition py_min (a b : T) : T := if (b <? a)%num then b else a.
Definition py_max (a b : T) : T := if (b >? a)%num then b else a.
End DequeOps.


(** ** Values shared by the two variants *)

(* [rotation_direction]: the strings "None", "Clockwise", "Counterclockwise". *)
Inductive direction : Type := DirNone | Clockwise | Counterclockwise.

(* The dict handed to the GUI ([gui_data] / [data]).  The key "is_steering"
   exists in the standalone variant only. *)
Record gui_data (T : Type) : Type := GuiData {
  gui_offset : T;
  gui_raw_angle : T;
  gui_smoothed_angle : T;
  gui_total_accumulated_degrees : T;
  gui_rotation_direction : direction;
  gui_angular_velocity : T;
  gui_angular_acceleration : T;
  gui_vjoy_axis_value : Z;
  gui_is_steering : option bool
}.

Inductive channel : Type := Status | Error | VjoyStatus.

Inductive message (T : Type) : Type :=
| VjoyConnected
| VjoyFailed
| VjoyNotAvailable          (* "vJoy device not available. Cannot start." *)
| ScreenCenterNotSet        (* "Screen center not set. ..." *)
| AlreadySteering
| NotSteering
| SteeringActive
| SteeringStopped
| ViewRecentered
| SensitivityIs (v : T).

Arguments VjoyConnected {T}.
Arguments VjoyFailed {T}.
Arguments VjoyNotAvailable {T}.
Arguments ScreenCenterNotSet {T}.
Arguments AlreadySteering {T}.
Arguments NotSteering {T}.
Arguments SteeringActive {T}.
Arguments SteeringStopped {T}.
Arguments ViewRecentered {T}.

Inductive effect (T : Type) : Type :=
| SetAxis (v : Z)                           (* vjoy_device.set_axis(HID_USAGE_X, v) *)
| Notify (c : channel) (m : message T)      (* a status, error or vJoy notification *)
| Update (d : gui_data T)                   (* "update_gui" / "data_updated" *)
| Uncaught.                                 (* an exception leaves the method *)

Arguments SetAxis {T} v.
Arguments Uncaught {T}.

(* The axis values written to the sink, oldest first. *)
Fixpoint sink_writes {T : Type} (l : list (effect T)) : list Z :=
  match l with
  | [] => []
  | SetAxis v :: l' => v :: sink_writes l'
  | _ :: l' => sink_writes l'
  end.

Definition raised {T : Type} (l : list (effect T)) : bool :=
  existsb (fun e => match e with Uncaught => true | _ => false end) l.

Definition is_None {A : Type} (o : option A) : bool :=
  match o with None => true | Some _ => false end.

(** ** [steering_logic.py] *)

Module SteeringLogicMain.

(* constants.py *)
Definition MAX_VJOY_AXIS : Z := 32767.
Definition MIN_VJOY_AXIS : Z := 0.
Definition CENTER_VJOY_AXIS : Z := (MAX_VJOY_AXIS + MIN_VJOY_AXIS) / 2.

Record SteeringLogic (T : Type) : Type := Build {
  app_callback : bool;                 (* is a callback registered *)
  sensitivity : T;
  max_degrees : T;
  direction_change_threshold : T;
  mouse_center_threshold : T;
  current_raw_angle : T;
  previous_smoothed_angle : T;
  total_accumulated_degrees : T;
  rotation_direction : direction;
  current_offset : T;
  angular_velocity : T;
  previous_angular_velocity : T;
  angular_acceleration : T;
  screen_center_x : option Z;
  screen_center_y : option Z;
  angle_history : deque T;
  vjoy_device : bool;                  (* acquired, or None *)
  mouse_listener : bool;               (* a listener is attached *)
  is_steering : bool
}.

Section Methods.
Context {T : Type} `{Number T}.
(* [math.degrees(math.atan2(dy, dx))] and [math.sqrt(n)] *)
Variable atan2_degrees : Z -> Z -> T.
Variable math_sqrt : Z -> T.

Local Notation "# z" := (num_of_Z z) (at level 1, format "# z").
Local Open Scope num_scope.

(* [if self.app_callback: self.app_callback(...)] *)
Definition callback (s : SteeringLogic T) (e : effect T) : list (effect T) :=
  if app_callback s then [e] else [].

(* [__init__] with [_initialize_vjoy]; [vjoy_ok] tells whether the device
   could be acquired and centred. *)
Definition init (app_cb vjoy_ok : bool) : SteeringLogic T * list (effect T) :=
  let s := {| app_callback := app_cb;
              sensitivity := #1;
              max_degrees := #1080;
              direction_change_threshold := #1;
              mouse_center_threshold := #15;
              current_raw_angle := #0;
              previous_smoothed_angle := #0;
              total_accumulated_degrees := #0;
              rotation_direction := DirNone;
              current_offset := #0;
              angular_velocity := #0;
              previous_angular_velocity := #0;
              angular_acceleration := #0;
              screen_center_x := None;
              screen_center_y := None;
              angle_history := {| items := []; maxlen := 5 |};
              vjoy_device := vjoy_ok;
              mouse_listener := false;
              is_steering := false |} in
  (s, (if vjoy_ok then [SetAxis CENTER_VJOY_AXIS] else [])
      ++ callback s (Notify VjoyStatus (if vjoy_ok then VjoyConnected else VjoyFailed))).

Definition _calculate_raw_angle (s : SteeringLogic T) (x y : Z) : T :=
  match screen_center_x s, screen_center_y s with
  | Some cx, Some cy => atan2_degrees (y - cy) (x - cx)
  | _, _ => #0
  end.

(* [mouse] is what [pyvjoy.utils.get_mouse_position()] returns at the time
   of the call, [None] when the call raises. *)
Definition set_screen_center (s : SteeringLogic T) (center_x center_y : Z)
    (mouse : option (Z * Z)) : SteeringLogic T * list (effect T) :=
  let s1 := {| app_callback := app_callback s;
               sensitivity := sensitivity s;
               max_degrees := max_degrees s;
               direction_change_threshold := direction_change_threshold s;
               mouse_center_threshold := mouse_center_threshold s;
               current_raw_angle := current_raw_angle s;
               previous_smoothed_angle := previous_smoothed_angle s;
               total_accumulated_degrees := total_accumulated_degrees s;
               rotation_direction := rotation_direction s;
               current_offset := current_offset s;
               angular_velocity := angular_velocity s;
               previous_angular_velocity := previous_angular_velocity s;
               angular_acceleration := angular_acceleration s;
               screen_center_x := Some center_x;
               screen_center_y := Some center_y;
               angle_history := angle_history s;
               vjoy_device := vjoy_device s;
               mouse_listener := mouse_listener s;
               is_steering := is_steering s |} in
  match mouse with
  | None => (s1, [Uncaught])
  | Some (mx, my) =>
      let a := _calculate_raw_angle s1 mx my in
      ({| app_callback := app_callback s1;
          sensitivity := sensitivity s1;
          max_degrees := max_degrees s1;
          direction_change_threshold := direction_change_threshold s1;
          mouse_center_threshold := mouse_center_threshold s1;
          current_raw_angle := current_raw_angle s1;
          previous_smoothed_angle := a;
          total_accumulated_degrees := total_accumulated_degrees s1;
          rotation_direction := rotation_direction s1;
          current_offset := current_offset s1;
          angular_velocity := angular_velocity s1;
          previous_angular_velocity := previous_angular_velocity s1;
          angular_acceleration := angular_acceleration s1;
          screen_center_x := screen_center_x s1;
          screen_center_y := screen_center_y s1;
          angle_history :=
            deque_refill (angle_history s1) (maxlen (angle_history s1)) a;
          vjoy_device := vjoy_device s1;
          mouse_listener := mouse_listener s1;
          is_steering := is_steering s1 |}, [])
  end.

(* The source reads the pointer twice in a row, once for each coordinate;
   both reads are taken to see the same position [mouse]. *)
Definition start_steering (s : SteeringLogic T) (mouse : option (Z * Z))
    : SteeringLogic T * list (effect T) :=
  if is_steering s then (s, [])
  else if negb (vjoy_device s) then
    (s, callback s (Notify Error VjoyNotAvailable))
  else if is_None (screen_center_x s) || is_None (screen_center_y s) then
    (s, callback s (Notify Error ScreenCenterNotSet))
  else
    let mk prev hist vel pvel acc dir listener :=
      {| app_callback := app_callback s;
         sensitivity := sensitivity s;
         max_degrees := max_degrees s;
         direction_change_threshold := direction_change_threshold s;
         mouse_center_threshold := mouse_center_threshold s;
         current_raw_angle := current_raw_angle s;
         previous_smoothed_angle := prev;
         total_accumulated_degrees := total_accumulated_degrees s;
         rotation_direction := dir;
         current_offset := current_offset s;
         angular_velocity := vel;
         previous_angular_velocity := pvel;
         angular_acceleration := acc;
         screen_center_x := screen_center_x s;
         screen_center_y := screen_center_y s;
         angle_history := hist;
         vjoy_device := vjoy_device s;
         mouse_listener := listener;
         is_steering := true |} in
    match mouse with
    | None =>
        (mk (previous_smoothed_angle s) (angle_history s) (angular_velocity s)
            (previous_angular_velocity s) (angular_acceleration s)
            (rotation_direction s) (mouse_listener s), [Uncaught])
    | Some (mx, my) =>
        let a := _calculate_raw_angle s mx my in
        (mk a (deque_refill (angle_history s) (maxlen (angle_history s)) a)
            #0 #0 #0 DirNone true,
         callback s (Notify Status SteeringActive))
    end.

Definition stop_steering (s : SteeringLogic T)
    : SteeringLogic T * list (effect T) :=
  if negb (is_steering s) then (s, [])
  else
    ({| app_callback := app_callback s;
        sensitivity := sensitivity s;
        max_degrees := max_degrees s;
        direction_change_threshold := direction_change_threshold s;
        mouse_center_threshold := mouse_center_threshold s;
        current_raw_angle := current_raw_angle s;
        previous_smoothed_angle := previous_smoothed_angle s;
        total_accumulated_degrees := total_accumulated_degrees s;
        rotation_direction := rotation_direction s;
        current_offset := current_offset s;
        angular_velocity := #0;
        previous_angular_velocity := previous_angular_velocity s;
        angular_acceleration := #0;
        screen_center_x := screen_center_x s;
        screen_center_y := screen_center_y s;
        angle_history := angle_history s;
        vjoy_device := vjoy_device s;
        mouse_listener := false;
        is_steering := false |},
     (if vjoy_device s then [SetAxis CENTER_VJOY_AXIS] else [])
     ++ callback s (Notify Status SteeringStopped)).

(* Step 3 of [on_move]: the change of the smoothed angle, corrected for the
   wrap-around of the angle at +-180. *)
Definition wrap_delta (delta_angle : T) : T :=
  if delta_angle >? #180 then delta_angle - #360
  else if delta_angle <? #(-180) then delta_angle + #360
  else delta_angle.

(* Step 5 of [on_move]: the direction and the accumulated degrees before
   clamping. *)
Definition accumulate (s : SteeringLogic T) (offset delta_angle : T)
    : direction * T :=
  if offset <? mouse_center_threshold s then
    (DirNone, total_accumulated_degrees s)
  else if delta_angle >? direction_change_threshold s then
    (Clockwise, total_accumulated_degrees s + num_abs delta_angle)
  else if delta_angle <? - direction_change_threshold s then
    (Counterclockwise, total_accumulated_degrees s - num_abs delta_angle)
  else
    (DirNone, total_accumulated_degrees s).

Definition clamp_degrees (s : SteeringLogic T) (total : T) : T :=
  py_max (- max_degrees s) (py_min (max_degrees s) total).

(* Step 6 of [on_move]: the axis value sent to vJoy. *)
Definition axis_of (s : SteeringLogic T) (total : T) : Z :=
  let normalized_value :=
    if (#2 * max_degrees s) =? #0 then #1 / #2        (* 0.5 *)
    else (total - (- max_degrees s)) / (#2 * max_degrees s) in
  let axis_value :=
    num_int (normalized_value * #(MAX_VJOY_AXIS - MIN_VJOY_AXIS)
             + #MIN_VJOY_AXIS) in
  Z.max MIN_VJOY_AXIS (Z.min MAX_VJOY_AXIS axis_value).

Definition on_move (s : SteeringLogic T) (x y : Z)
    : SteeringLogic T * list (effect T) :=
  if negb (is_steering s) || is_None (screen_center_x s) then (s, [])
  else
    match screen_center_x s, screen_center_y s with
    | Some cx, Some cy =>
        let offset := math_sqrt ((x - cx) ^ 2 + (y - cy) ^ 2)%Z in
        let raw_angle := _calculate_raw_angle s x y in
        let history := deque_append (angle_history s) raw_angle in
        let current_smoothed_angle := deque_sum history / deque_len history in
        let delta_angle :=
          wrap_delta (current_smoothed_angle - previous_smoothed_angle s) in
        let velocity := delta_angle in
        let acceleration := velocity - previous_angular_velocity s in
        let '(dir, total) := accumulate s offset delta_angle in
        let total := clamp_degrees s total in
        let axis_value := axis_of s total in
        let s' :=
          {| app_callback := app_callback s;
             sensitivity := sensitivity s;
             max_degrees := max_degrees s;
             direction_change_threshold := direction_change_threshold s;
             mouse_center_threshold := mouse_center_threshold s;
             current_raw_angle := raw_angle;
             previous_smoothed_angle := current_smoothed_angle;
             total_accumulated_degrees := total;
             rotation_direction := dir;
             current_offset := offset;
             angular_velocity := velocity;
             previous_angular_velocity := velocity;
             angular_acceleration := acceleration;
             screen_center_x := screen_center_x s;
             screen_center_y := screen_center_y s;
             angle_history := history;
             vjoy_device := vjoy_device s;
             mouse_listener := mouse_listener s;
             is_steering := is_steering s |} in
        (s',
         (if vjoy_device s then [SetAxis axis_value] else [])
         ++ callback s (Update
              {| gui_offset := offset;
                 gui_raw_angle := raw_angle;
                 gui_smoothed_angle := current_smoothed_angle;
                 gui_total_accumulated_degrees := total;
                 gui_rotation_direction := dir;
                 gui_angular_velocity := velocity;
                 gui_angular_acceleration := acceleration;
                 gui_vjoy_axis_value :=
                   if vjoy_device s then axis_value else CENTER_VJOY_AXIS;
                 gui_is_steering := None |}))
    | _, _ => (s, [Uncaught])       (* [y - None] raises TypeError *)
    end.

(* [mouse] as in [set_screen_center]; here the query is guarded by [try]. *)
Definition reset_steering_view (s : SteeringLogic T) (mouse : option (Z * Z))
    : SteeringLogic T * list (effect T) :=
  let a :=
    match mouse with
    | Some (mx, my) => _calculate_raw_angle s mx my
    | None =>
        match items (angle_history s) with
        | [] => #0
        | _ :: _ => current_raw_angle s
        end
    end in
  let s' :=
    {| app_callback := app_callback s;
       sensitivity := sensitivity s;
       max_degrees := max_degrees s;
       direction_change_threshold := direction_change_threshold s;
       mouse_center_threshold := mouse_center_threshold s;
       current_raw_angle := current_raw_angle s;
       previous_smoothed_angle := a;
       total_accumulated_degrees := #0;
       rotation_direction := rotation_direction s;
       current_offset := current_offset s;
       angular_velocity := #0;
       previous_angular_velocity := #0;
       angular_acceleration := #0;
       screen_center_x := screen_center_x s;
       screen_center_y := screen_center_y s;
       angle_history :=
         deque_refill (angle_history s) (maxlen (angle_history s)) a;
       vjoy_device := vjoy_device s;
       mouse_listener := mouse_listener s;
       is_steering := is_steering s |} in
  (s',
   (if vjoy_device s then [SetAxis CENTER_VJOY_AXIS] else [])
   ++ callback s (Update
        {| gui_offset := current_offset s';
           gui_raw_angle := current_raw_angle s';
           gui_smoothed_angle := previous_smoothed_angle s';
           gui_total_accumulated_degrees := total_accumulated_degrees s';
           gui_rotation_direction := DirNone;
           gui_angular_velocity := angular_velocity s';
           gui_angular_acceleration := angular_acceleration s';
           gui_vjoy_axis_value := CENTER_VJOY_AXIS;
           gui_is_steering := None |})
   ++ callback s (Notify Status ViewRecentered)).

Definition update_sensitivity (s : SteeringLogic T) (new_sensitivity : T)
    : SteeringLogic T * list (effect T) :=
  ({| app_callback := app_callback s;
      sensitivity := new_sensitivity;
      max_degrees := max_degrees s;
      direction_change_threshold := direction_change_threshold s;
      mouse_center_threshold := mouse_center_threshold s;
      current_raw_angle := current_raw_angle s;
      previous_smoothed_angle := previous_smoothed_angle s;
      total_accumulated_degrees := total_accumulated_degrees s;
      rotation_direction := rotation_direction s;
      current_offset := current_offset s;
      angular_velocity := angular_velocity s;
      previous_angular_velocity := previous_angular_velocity s;
      angular_acceleration := angular_acceleration s;
      screen_center_x := screen_center_x s;
      screen_center_y := screen_center_y s;
      angle_history := angle_history s;
      vjoy_device := vjoy_device s;
      mouse_listener := mouse_listener s;
      is_steering := is_steering s |},
   callback s (Notify Status (SensitivityIs new_sensitivity))).

Definition close (s : SteeringLogic T) : SteeringLogic T * list (effect T) :=
  stop_steering s.

(** The calls the GUI and the listener make on the object. *)
Inductive call : Type :=
| SetScreenCenter (center_x center_y : Z) (mouse : option (Z * Z))
| StartSteering (mouse : option (Z * Z))
| StopSteering
| OnMove (x y : Z)
| ResetSteeringView (mouse : option (Z * Z))
| UpdateSensitivity (new_sensitivity : T).

Definition step (s : SteeringLogic T) (c : call)
    : SteeringLogic T * list (effect T) :=
  match c with
  | SetScreenCenter cx cy m => set_screen_center s cx cy m
  | StartSteering m => start_steering s m
  | StopSteering => stop_steering s
  | OnMove x y => on_move s x y
  | ResetSteeringView m => reset_steering_view s m
  | UpdateSensitivity v => update_sensitivity s v
  end.

(* A sequence of calls, with the effects of all of them in order. *)
Fixpoint run (s : SteeringLogic T) (cs : list call)
    : SteeringLogic T * list (effect T) :=
  match cs with
  | [] => (s, [])
  | c :: cs' =>
      let '(s1, e1) := step s c in
      let '(s2, e2) := run s1 cs' in
      (s2, e1 ++ e2)
  end.

(* The objects the program can hold: a fresh one, and what calls make of it. *)
Inductive reachable : SteeringLogic T -> Prop :=
| reach_init : forall app_cb vjoy_ok, reachable (fst (init app_cb vjoy_ok))
| reach_step : forall s c, reachable s -> reachable (fst (step s c)).

End Methods.
End SteeringLogicMain.

(** ** [core_logic.py], the standalone variant *)

Module CoreLogic.

(* config.py *)
Definition MAX_VJOY_AXIS : Z := 32767.
Definition MIN_VJOY_AXIS : Z := 0.
Definition CENTER_VJOY_AXIS : Z := (MAX_VJOY_AXIS + MIN_VJOY_AXIS) / 2.
Definition MAX_STEERING_DEGREES : Z := 1080.
Definition DEFAULT_SENSITIVITY : Z := 1.
Definition MOUSE_CENTER_THRESHOLD_PX : Z := 15.
Definition DIRECTION_CHANGE_THRESHOLD_DEG : Z := 1.
Definition ANGLE_SMOOTHING_FACTOR : nat := 5.
(* TIME_DELTA_MODE = "per_event": the time delta of an event is 1.0 and the
   clock is never read. *)

Record SteeringLogic (T : Type) : Type := Build {
  parent_gui_callback : bool;
  sensitivity : T;
  max_degrees : T;
  direction_change_threshold : T;
  mouse_center_threshold : T;
  current_raw_angle : T;
  previous_smoothed_angle : T;
  total_accumulated_degrees : T;
  rotation_direction : direction;
  current_offset : T;
  angular_velocity : T;
  previous_angular_velocity : T;
  angular_acceleration : T;
  screen_center_x : option Z;
  screen_center_y : option Z;
  angle_history : deque T;
  vjoy_device : bool;
  mouse_listener : bool;
  is_steering : bool;
  vjoy_status_message : message T
}.

Section Methods.
Context {T : Type} `{Number T}.
Variable atan2_degrees : Z -> Z -> T.
Variable math_sqrt : Z -> T.

Local Notation "# z" := (num_of_Z z) (at level 1, format "# z").
Local Open Scope num_scope.

(* [HAS_PYQT] is True and the four signals are class attributes, so the
   signal is emitted whether or not a callback was passed. *)
Definition _emit_or_callback (s : SteeringLogic T) (e : effect T)
    : list (effect T) := [e].

Definition init (gui_cb vjoy_ok : bool) : SteeringLogic T * list (effect T) :=
  let s := {| parent_gui_callback := gui_cb;
              sensitivity := #DEFAULT_SENSITIVITY;
              max_degrees := #MAX_STEERING_DEGREES;
              direction_change_threshold := #DIRECTION_CHANGE_THRESHOLD_DEG;
              mouse_center_threshold := #MOUSE_CENTER_THRESHOLD_PX;
              current_raw_angle := #0;
              previous_smoothed_angle := #0;
              total_accumulated_degrees := #0;
              rotation_direction := DirNone;
              current_offset := #0;
              angular_velocity := #0;
              previous_angular_velocity := #0;
              angular_acceleration := #0;
              screen_center_x := None;
              screen_center_y := None;
              angle_history := {| items := []; maxlen := ANGLE_SMOOTHING_FACTOR |};
              vjoy_device := vjoy_ok;
              mouse_listener := false;
              is_steering := false;
              vjoy_status_message :=
                if vjoy_ok then VjoyConnected else VjoyFailed |} in
  (s, (if vjoy_ok then [SetAxis CENTER_VJOY_AXIS] else [])
      ++ _emit_or_callback s (Notify VjoyStatus (vjoy_status_message s))).

Definition _calculate_raw_angle (s : SteeringLogic T) (x y : Z) : T :=
  match screen_center_x s, screen_center_y s with
  | Some cx, Some cy => atan2_degrees (y - cy) (x - cx)
  | _, _ => #0
  end.

(* [self.angle_history.maxlen or 1] *)
Definition maxlen_or_1 (d : deque T) : nat :=
  match maxlen d with O => 1 | n => n end.

(* The fields a method may assign, the others copied from [s]. *)
Definition assign (s : SteeringLogic T) (raw prev total : T) (dir : direction)
    (offset vel pvel acc : T) (cx cy : option Z) (hist : deque T)
    (listener steering : bool) : SteeringLogic T :=
  {| parent_gui_callback := parent_gui_callback s;
     sensitivity := sensitivity s;
     max_degrees := max_degrees s;
     direction_change_threshold := direction_change_threshold s;
     mouse_center_threshold := mouse_center_threshold s;
     current_raw_angle := raw;
     previous_smoothed_angle := prev;
     total_accumulated_degrees := total;
     rotation_direction := dir;
     current_offset := offset;
     angular_velocity := vel;
     previous_angular_velocity := pvel;
     angular_acceleration := acc;
     screen_center_x := cx;
     screen_center_y := cy;
     angle_history := hist;
     vjoy_device := vjoy_device s;
     mouse_listener := listener;
     is_steering := steering;
     vjoy_status_message := vjoy_status_message s |}.

(* [mouse] is [pynput_mouse.Controller().position], [None] when reading it
   raises; every read is guarded by [try] with the angle 0.0 as fallback. *)
Definition set_screen_center (s : SteeringLogic T) (center_x center_y : Z)
    (mouse : option (Z * Z)) : SteeringLogic T * list (effect T) :=
  let s1 := assign s (current_raw_angle s) (previous_smoothed_angle s)
              (total_accumulated_degrees s) (rotation_direction s)
              (current_offset s) (angular_velocity s)
              (previous_angular_velocity s) (angular_acceleration s)
              (Some center_x) (Some center_y) (angle_history s)
              (mouse_listener s) (is_steering s) in
  let a := match mouse with
           | Some (mx, my) => _calculate_raw_angle s1 mx my
           | None => #0
           end in
  (assign s1 (current_raw_angle s1) a
     (total_accumulated_degrees s1) (rotation_direction s1)
     (current_offset s1) (angular_velocity s1)
     (previous_angular_velocity s1) (angular_acceleration s1)
     (screen_center_x s1) (screen_center_y s1)
     (deque_refill (angle_history s1) (maxlen_or_1 (angle_history s1)) a)
     (mouse_listener s1) (is_steering s1), []).

Definition start (s : SteeringLogic T) (mouse : option (Z * Z))
    : SteeringLogic T * list (effect T) :=
  if is_steering s then (s, _emit_or_callback s (Notify Status AlreadySteering))
  else if negb (vjoy_device s) then
    (s, _emit_or_callback s (Notify Error VjoyNotAvailable))
  else if is_None (screen_center_x s) || is_None (screen_center_y s) then
    (s, _emit_or_callback s (Notify Error ScreenCenterNotSet))
  else
    let a := match mouse with
             | Some (mx, my) => _calculate_raw_angle s mx my
             | None => #0
             end in
    (assign s (current_raw_angle s) a
       (total_accumulated_degrees s) DirNone (current_offset s) #0 #0 #0
       (screen_center_x s) (screen_center_y s)
       (deque_refill (angle_history s) (maxlen_or_1 (angle_history s)) a)
       true true,
     _emit_or_callback s (Notify Status SteeringActive)).

(* The axis value recomputed from the accumulated degrees; the same text
   appears in [_on_move_handler], [_send_data_update] and
   [_get_current_vjoy_axis_value]. *)
Definition axis_of (s : SteeringLogic T) : Z :=
  let normalized_value :=
    if (#2 * max_degrees s) =? #0 then #1 / #2        (* 0.5 *)
    else (total_accumulated_degrees s + max_degrees s) / (#2 * max_degrees s) in
  let axis_value :=
    num_int (normalized_value * #(MAX_VJOY_AXIS - MIN_VJOY_AXIS)
             + #MIN_VJOY_AXIS) in
  Z.max MIN_VJOY_AXIS (Z.min MAX_VJOY_AXIS axis_value).

Definition _get_current_vjoy_axis_value (s : SteeringLogic T) : Z :=
  if negb (vjoy_device s) then CENTER_VJOY_AXIS else axis_of s.

Definition _send_data_update (s : SteeringLogic T) : list (effect T) :=
  let axis_val := if vjoy_device s then axis_of s else CENTER_VJOY_AXIS in
  _emit_or_callback s (Update
    {| gui_offset := current_offset s;
       gui_raw_angle := current_raw_angle s;
       gui_smoothed_angle := previous_smoothed_angle s;
       gui_total_accumulated_degrees := total_accumulated_degrees s;
       gui_rotation_direction := rotation_direction s;
       gui_angular_velocity := angular_velocity s;
       gui_angular_acceleration := angular_acceleration s;
       gui_vjoy_axis_value := axis_val;
       gui_is_steering := Some (is_steering s) |}).

Definition stop (s : SteeringLogic T) : SteeringLogic T * list (effect T) :=
  if negb (is_steering s) then
    (s, _emit_or_callback s (Notify Status NotSteering))
  else
    let s' := assign s (current_raw_angle s) (previous_smoothed_angle s)
                (total_accumulated_degrees s) (rotation_direction s)
                (current_offset s) #0 (previous_angular_velocity s) #0
                (screen_center_x s) (screen_center_y s) (angle_history s)
                false false in
    (s',
     (if vjoy_device s then [SetAxis CENTER_VJOY_AXIS] else [])
     ++ _emit_or_callback s' (Notify Status SteeringStopped)
     ++ _send_data_update s').

Definition wrap_delta (delta_angle : T) : T :=
  if delta_angle >? #180 then delta_angle - #360
  else if delta_angle <? #(-180) then delta_angle + #360
  else delta_angle.

Definition accumulate (s : SteeringLogic T) (offset delta_angle : T)
    : direction * T :=
  if offset <? mouse_center_threshold s then
    (DirNone, total_accumulated_degrees s)
  else if delta_angle >? direction_change_threshold s then
    (Clockwise, total_accumulated_degrees s + num_abs delta_angle)
  else if delta_angle <? - direction_change_threshold s then
    (Counterclockwise, total_accumulated_degrees s - num_abs delta_angle)
  else
    (DirNone, total_accumulated_degrees s).

Definition clamp_degrees (s : SteeringLogic T) (total : T) : T :=
  py_max (- max_degrees s) (py_min (max_degrees s) total).

(* The third component is the handler's return value: [False] asks pynput
   to stop the listener. *)
Definition _on_move_handler (s : SteeringLogic T) (x y : Z)
    : SteeringLogic T * list (effect T) * bool :=
  if negb (is_steering s) || is_None (screen_center_x s) then (s, [], false)
  else
    match screen_center_x s, screen_center_y s with
    | Some cx, Some cy =>
        let time_delta := #1 in
        let offset := math_sqrt ((x - cx) ^ 2 + (y - cy) ^ 2)%Z in
        let raw_angle := _calculate_raw_angle s x y in
        let history := deque_append (angle_history s) raw_angle in
        let current_smoothed_angle := deque_sum history / deque_len history in
        let delta_angle :=
          wrap_delta (current_smoothed_angle - previous_smoothed_angle s) in
        let new_angular_velocity := delta_angle / time_delta in
        let acceleration :=
          (new_angular_velocity - angular_velocity s) / time_delta in
        let '(dir, total) := accumulate s offset delta_angle in
        let total := clamp_degrees s total in
        let s' := assign s raw_angle current_smoothed_angle total dir offset
                    new_angular_velocity (previous_angular_velocity s)
                    acceleration (screen_center_x s) (screen_center_y s)
                    history (mouse_listener s) (is_steering s) in
        (s',
         (if vjoy_device s then [SetAxis (axis_of s')] else [])
         ++ _send_data_update s',
         true)
    | _, _ => (s, [Uncaught], false)       (* [y - None] raises TypeError *)
    end.

Definition recenter_view (s : SteeringLogic T) (mouse : option (Z * Z))
    : SteeringLogic T * list (effect T) :=
  let a := match mouse with
           | Some (mx, my) => _calculate_raw_angle s mx my
           | None => #0
           end in
  let s' := assign s (current_raw_angle s) a #0 (rotation_direction s)
              (current_offset s) #0 (previous_angular_velocity s) #0
              (screen_center_x s) (screen_center_y s)
              (deque_refill (angle_history s) (maxlen_or_1 (angle_history s)) a)
              (mouse_listener s) (is_steering s) in
  (s',
   (if vjoy_device s then [SetAxis CENTER_VJOY_AXIS] else [])
   ++ _emit_or_callback s' (Notify Status ViewRecentered)
   ++ _send_data_update s').

Definition set_sensitivity (s : SteeringLogic T) (new_sensitivity : T)
    : SteeringLogic T * list (effect T) :=
  let s' :=
    {| parent_gui_callback := parent_gui_callback s;
       sensitivity := new_sensitivity;
       max_degrees := max_degrees s;
       direction_change_threshold := direction_change_threshold s;
       mouse_center_threshold := mouse_center_threshold s;
       current_raw_angle := current_raw_angle s;
       previous_smoothed_angle := previous_smoothed_angle s;
       total_accumulated_degrees := total_accumulated_degrees s;
       rotation_direction := rotation_direction s;
       current_offset := current_offset s;
       angular_velocity := angular_velocity s;
       previous_angular_velocity := previous_angular_velocity s;
       angular_acceleration := angular_acceleration s;
       screen_center_x := screen_center_x s;
       screen_center_y := screen_center_y s;
       angle_history := angle_history s;
       vjoy_device := vjoy_device s;
       mouse_listener := mouse_listener s;
       is_steering := is_steering s;
       vjoy_status_message := vjoy_status_message s |} in
  (s', _emit_or_callback s' (Notify Status (SensitivityIs new_sensitivity))).

Definition close (s : SteeringLogic T) : SteeringLogic T * list (effect T) :=
  stop s.

Inductive call : Type :=
| SetScreenCenter (center_x center_y : Z) (mouse : option (Z * Z))
| Start (mouse : option (Z * Z))
| Stop
| OnMove (x y : Z)
| RecenterView (mouse : option (Z * Z))
| SetSensitivity (new_sensitivity : T).

Definition step (s : SteeringLogic T) (c : call)
    : SteeringLogic T * list (effect T) :=
  match c with
  | SetScreenCenter cx cy m => set_screen_center s cx cy m
  | Start m => start s m
  | Stop => stop s
  | OnMove x y => fst (_on_move_handler s x y)
  | RecenterView m => recenter_view s m
  | SetSensitivity v => set_sensitivity s v
  end.

Fixpoint run (s : SteeringLogic T) (cs : list call)
    : SteeringLogic T * list (effect T) :=
  match cs with
  | [] => (s, [])
  | c :: cs' =>
      let '(s1, e1) := step s c in
      let '(s2, e2) := run s1 cs' in
      (s2, e1 ++ e2)
  end.

Inductive reachable : SteeringLogic T -> Prop :=
| reach_init : forall gui_cb vjoy_ok, reachable (fst (init gui_cb vjoy_ok))
| reach_step : forall s c, reachable s -> reachable (fst (step s c)).

End Methods.
End CoreLogic.

(** * Properties *)

(** ** The deque *)

Section DequeFacts.
Context {T : Type} `{Number T}.

Lemma repeat_snoc (a : T) (n : nat) : repeat a n ++ [a] = repeat a (S n).
Proof.
  induction n as [|n IH]; simpl; [reflexivity|].
  now rewrite IH.
Qed.

Lemma deque_refill_repeat (d : deque T) (n : nat) (a : T) :
  deque_refill d n a
  = {| items := repeat a (Nat.min n (maxlen d)); maxlen := maxlen d |}.
Proof.
  unfold deque_refill.
  induction n as [|n IH]; simpl; [reflexivity|].
  rewrite IH. unfold deque_append. simpl. f_equal.
  rewrite repeat_snoc, repeat_length.
  destruct (Nat.ltb_spec (maxlen d) (S (Nat.min n (maxlen d)))) as [L|L].
  - simpl. destruct (maxlen d) as [|m].
    + now rewrite Nat.min_0_r.
    + f_equal. f_equal. lia.
  - destruct (maxlen d) as [|m]; [lia|].
    replace (Nat.min n (S m)) with n by lia.
    replace (Nat.min n m) with n by lia. reflexivity.
Qed.

Lemma deque_append_nonempty (d : deque T) (a : T) :
  maxlen d <> O -> items (deque_append d a) <> [].
Proof.
  intros N. unfold deque_append. simpl.
  destruct (Nat.ltb_spec (maxlen d) (length (items d ++ [a]))) as [L|L].
  - rewrite length_app in L. simpl in L.
    destruct (items d) as [|b l]; simpl in *; [lia|].
    destruct l; simpl; discriminate.
  - destruct (items d); simpl; discriminate.
Qed.

End DequeFacts.

(** ** Exact arithmetic *)

(* Reads the overloaded operations as operations on rationals and the
   int literals of the program as rational constants. *)
Ltac exact_arith :=
  cbn [num_of_Z num_add num_sub num_mul num_div num_opp num_abs num_ltb
       num_eqb num_int ExactNumber] in *;
  change (inject_Z 0) with 0%Q in *;
  change (inject_Z 1) with 1%Q in *;
  change (inject_Z 2) with 2%Q in *;
  change (inject_Z 15) with 15%Q in *;
  change (inject_Z 180) with 180%Q in *;
  change (inject_Z (-180)) with (-180)%Q in *;
  change (inject_Z 360) with 360%Q in *;
  change (inject_Z 1080) with 1080%Q in *.

Section ExactFacts.
Local Open Scope Q_scope.

Lemma Qltb_lt (x y : Q) : Qltb x y = true <-> x < y.
Proof.
  unfold Qltb. rewrite negb_true_iff.
  split; intros E.
  - apply Qnot_le_lt. intros L. apply Qle_bool_iff in L. congruence.
  - destruct (Qle_bool y x) eqn:B; [|reflexivity].
    apply Qle_bool_iff in B. exfalso. apply (Qlt_not_le _ _ E B).
Qed.

Lemma Qltb_ge (x y : Q) : Qltb x y = false <-> y <= x.
Proof.
  unfold Qltb. rewrite negb_false_iff. apply Qle_bool_iff.
Qed.

Lemma Qltb_cases (x y : Q) :
  (Qltb x y = true /\ x < y) \/ (Qltb x y = false /\ y <= x).
Proof.
  destruct (Qltb x y) eqn:E.
  - left. split; [reflexivity|]. now apply Qltb_lt.
  - right. split; [reflexivity|]. now apply Qltb_ge.
Qed.

(* [max(-m, min(m, t))] on rationals. *)
Lemma clamp_bounds (m t : Q) :
  0 <= m -> - m <= py_max (- m) (py_min m t) /\ py_max (- m) (py_min m t) <= m.
Proof.
  intros M. unfold py_max, py_min. cbn [num_ltb ExactNumber].
  destruct (Qltb_cases t m) as [[E L]|[E L]]; rewrite E;
    match goal with
    | |- context [Qltb ?a ?b] =>
        destruct (Qltb_cases a b) as [[E' L']|[E' L']]; rewrite E'
    end; lra.
Qed.

Lemma clamp_inside (m t : Q) :
  - m <= t -> t <= m -> py_max (- m) (py_min m t) == t.
Proof.
  intros Lo Hi. unfold py_max, py_min. cbn [num_ltb ExactNumber].
  destruct (Qltb_cases t m) as [[E L]|[E L]]; rewrite E;
    match goal with
    | |- context [Qltb ?a ?b] =>
        destruct (Qltb_cases a b) as [[E' L']|[E' L']]; rewrite E'
    end; lra.
Qed.

Lemma clamp_above (m t x : Q) :
  x <= m -> x <= t -> x <= py_max (- m) (py_min m t).
Proof.
  intros Hm Ht. unfold py_max, py_min. cbn [num_ltb ExactNumber].
  destruct (Qltb_cases t m) as [[E L]|[E L]]; rewrite E;
    match goal with
    | |- context [Qltb ?a ?b] =>
        destruct (Qltb_cases a b) as [[E' L']|[E' L']]; rewrite E'
    end; lra.
Qed.

(* [int] of a non-negative rational is its floor. *)
Lemma Qint_floor (q : Q) :
  0 <= q -> inject_Z (Qint q) <= q /\ q < inject_Z (Qint q + 1).
Proof.
  intros P. assert (E : Qint q = Qfloor q).
  { destruct q as [n d]. unfold Qint, Qfloor. cbn [Qnum Qden].
    apply Z.quot_div_nonneg; [|reflexivity].
    unfold Qle in P. cbn in P. lia. }
  rewrite E. split; [apply Qfloor_le | apply Qlt_floor].
Qed.

Lemma Qint_nonpos (q : Q) : q <= 0 -> (Qint q <= 0)%Z.
Proof.
  destruct q as [n d]. unfold Qle, Qint. cbn [Qnum Qden]. intros L.
  assert (N : (n <= 0)%Z) by lia.
  replace n with (- - n)%Z by lia.
  rewrite Z.quot_opp_l by discriminate.
  assert (0 <= - n ÷ Z.pos d)%Z by (apply Z.quot_pos; lia).
  lia.
Qed.

(* The sum and the mean of a deque of rationals. *)
Lemma fold_sum_repeat (a z : Q) (n : nat) :
  fold_left Qplus (repeat a n) z == z + inject_Z (Z.of_nat n) * a.
Proof.
  revert z. induction n as [|n IH]; intros z.
  - cbn [repeat fold_left Z.of_nat]. change (inject_Z 0) with 0. lra.
  - cbn [repeat fold_left]. rewrite IH, Nat2Z.inj_succ.
    unfold Z.succ. rewrite inject_Z_plus. change (inject_Z 1) with 1. lra.
Qed.

Lemma fold_sum_bounds (lo hi : Q) (l : list Q) (z : Q) :
  Forall (fun a => lo <= a <= hi) l ->
  z + inject_Z (Z.of_nat (length l)) * lo <= fold_left Qplus l z /\
  fold_left Qplus l z <= z + inject_Z (Z.of_nat (length l)) * hi.
Proof.
  intros F. revert z. induction F as [|a l [A B] F IH]; intros z.
  - cbn [fold_left length Z.of_nat]. change (inject_Z 0) with 0. lra.
  - cbn [fold_left length]. destruct (IH (z + a)) as [L U].
    rewrite Nat2Z.inj_succ. unfold Z.succ. rewrite inject_Z_plus.
    change (inject_Z 1) with 1. split; lra.
Qed.

Lemma mean_bounds (lo hi : Q) (d : deque Q) :
  items d <> [] -> Forall (fun a => lo <= a <= hi) (items d) ->
  lo <= deque_sum d / deque_len d /\ deque_sum d / deque_len d <= hi.
Proof.
  intros N F. unfold deque_sum, deque_len. cbn [num_add num_of_Z ExactNumber].
  destruct (fold_sum_bounds 0 F) as [L U].
  assert (P : 0 < inject_Z (Z.of_nat (length (items d)))).
  { change 0 with (inject_Z 0). rewrite <- Zlt_Qlt.
    destruct (items d); [congruence|]. cbn [length]. lia. }
  change (inject_Z 0) with 0 in *.
  set (n := inject_Z (Z.of_nat (length (items d)))) in *.
  set (sum := fold_left Qplus (items d) 0) in *.
  split.
  - apply Qle_shift_div_l; [exact P|]. lra.
  - apply Qle_shift_div_r; [exact P|]. lra.
Qed.

Lemma mean_repeat (a : Q) (n m : nat) :
  n <> O ->
  deque_sum {| items := repeat a n; maxlen := m |}
  / deque_len {| items := repeat a n; maxlen := m |} == a.
Proof.
  intros N. unfold deque_sum, deque_len.
  cbn [num_add num_of_Z ExactNumber items].
  rewrite fold_sum_repeat, repeat_length.
  assert (P : ~ inject_Z (Z.of_nat n) == 0).
  { change 0 with (inject_Z 0). rewrite inject_Z_injective. lia. }
  change (inject_Z 0) with 0. field. exact P.
Qed.

End ExactFacts.

(** ** [steering_logic.py]: facts that hold for any arithmetic *)

Module MainFacts.
Import SteeringLogicMain.

Section Generic.
Context {T : Type} `{Number T}.
Variable atan2_degrees : Z -> Z -> T.
Variable math_sqrt : Z -> T.

Local Notation "# z" := (num_of_Z z) (at level 1, format "# z").
Local Notation on_move := (on_move atan2_degrees math_sqrt).
Local Notation start_steering := (start_steering atan2_degrees).
Local Notation reset_steering_view := (reset_steering_view atan2_degrees).
Local Notation set_screen_center := (set_screen_center atan2_degrees).
Local Notation step := (step atan2_degrees math_sqrt).
Local Notation run := (run atan2_degrees math_sqrt).
Local Notation reachable := (reachable atan2_degrees math_sqrt).

(* What the constructor establishes and no method breaks. *)
Record well_formed (s : SteeringLogic T) : Prop := WellFormed {
  wf_sink : is_steering s = true -> vjoy_device s = true;
  wf_pivot_x : is_steering s = true -> is_None (screen_center_x s) = false;
  wf_pivot_xy : is_None (screen_center_y s) = is_None (screen_center_x s);
  wf_maxlen : maxlen (angle_history s) = 5%nat;
  wf_max_degrees : max_degrees s = #1080;
  wf_threshold : direction_change_threshold s = #1;
  wf_center : mouse_center_threshold s = #15;
  wf_raw : items (angle_history s) = [] -> current_raw_angle s = #0
}.

Ltac wf_done :=
  constructor; simpl; intros; auto; try congruence; try discriminate.

(* A processed event: what [on_move] returns past its guard. *)
Lemma on_move_processed (s : SteeringLogic T) (x y cx cy : Z) :
  is_steering s = true ->
  screen_center_x s = Some cx -> screen_center_y s = Some cy ->
  let offset := math_sqrt ((x - cx) ^ 2 + (y - cy) ^ 2)%Z in
  let raw := atan2_degrees (y - cy) (x - cx) in
  let history := deque_append (angle_history s) raw in
  let smoothed := (deque_sum history / deque_len history)%num in
  let delta := wrap_delta (smoothed - previous_smoothed_angle s)%num in
  let s' := fst (on_move s x y) in
  current_offset s' = offset /\
  current_raw_angle s' = raw /\
  angle_history s' = history /\
  previous_smoothed_angle s' = smoothed /\
  angular_velocity s' = delta /\
  rotation_direction s' = fst (accumulate s offset delta) /\
  total_accumulated_degrees s'
    = clamp_degrees s (snd (accumulate s offset delta)) /\
  sink_writes (snd (on_move s x y))
    = (if vjoy_device s
       then [axis_of s (total_accumulated_degrees s')] else []) /\
  raised (snd (on_move s x y)) = false.
Proof.
  intros St Cx Cy. unfold on_move, SteeringLogicMain.on_move.
  unfold _calculate_raw_angle. rewrite St, Cx, Cy. simpl.
  destruct (accumulate s _ _) as [dir total]. simpl.
  repeat split; try reflexivity.
  - unfold callback. destruct (vjoy_device s), (app_callback s); reflexivity.
  - unfold callback. destruct (vjoy_device s), (app_callback s); reflexivity.
Qed.

(* An event outside a session is dropped. *)
Lemma on_move_idle (s : SteeringLogic T) (x y : Z) :
  is_steering s = false -> on_move s x y = (s, []).
Proof.
  intros St. unfold on_move, SteeringLogicMain.on_move. now rewrite St.
Qed.

Lemma on_move_config (s : SteeringLogic T) (x y : Z) :
  let s' := fst (on_move s x y) in
  app_callback s' = app_callback s /\
  max_degrees s' = max_degrees s /\
  direction_change_threshold s' = direction_change_threshold s /\
  mouse_center_threshold s' = mouse_center_threshold s /\
  screen_center_x s' = screen_center_x s /\
  screen_center_y s' = screen_center_y s /\
  maxlen (angle_history s') = maxlen (angle_history s) /\
  vjoy_device s' = vjoy_device s /\
  is_steering s' = is_steering s.
Proof.
  unfold on_move, SteeringLogicMain.on_move.
  destruct (negb (is_steering s) || is_None (screen_center_x s));
    [simpl; repeat split; reflexivity|].
  destruct (screen_center_x s) eqn:Ex, (screen_center_y s) eqn:Ey;
    try solve [simpl; repeat split; auto].
  destruct (accumulate s _ _). simpl. repeat split; auto.
Qed.

Lemma well_formed_init (app_cb vjoy_ok : bool) :
  well_formed (fst (init app_cb vjoy_ok)).
Proof.
  constructor; simpl; try reflexivity; discriminate.
Qed.

Lemma well_formed_step (s : SteeringLogic T) (c : call) :
  well_formed s -> well_formed (fst (step s c)).
Proof.
  intros [W1 W2 W3 W4 W5 W6 W7 W8].
  destruct c as [cx cy m | m | | x y | m | v];
    cbn [SteeringLogicMain.step].
  - (* set_screen_center *)
    unfold set_screen_center, SteeringLogicMain.set_screen_center.
    destruct m as [[mx my]|]; constructor; simpl; auto;
      rewrite deque_refill_repeat, W4; simpl; auto; discriminate.
  - (* start_steering *)
    unfold start_steering, SteeringLogicMain.start_steering.
    destruct (is_steering s) eqn:St; [wf_done|].
    destruct (vjoy_device s) eqn:V; simpl; [|wf_done].
    destruct (is_None (screen_center_x s)) eqn:Cx; simpl; [wf_done|].
    destruct (is_None (screen_center_y s)) eqn:Cy; simpl; [wf_done|].
    destruct m as [[mx my]|]; wf_done;
      rewrite deque_refill_repeat, W4 in *; simpl in *; auto; discriminate.
  - (* stop_steering *)
    unfold stop_steering.
    destruct (is_steering s) eqn:St; simpl; wf_done.
  - (* on_move *)
    destruct (is_steering s) eqn:St.
    + pose proof (W2 eq_refl) as Cx.
      destruct (screen_center_x s) as [cx|] eqn:Ex; [|discriminate].
      destruct (screen_center_y s) as [cy|] eqn:Ey; [|discriminate].
      destruct (on_move_processed s x y St Ex Ey)
        as (_ & Hraw & Hh & _).
      destruct (on_move_config s x y)
        as (_ & Hm & Ht & Hc & Hx & Hy & Hl & Hv & Hs).
      constructor.
      * intros _. rewrite Hv. auto.
      * intros _. rewrite Hx, Ex. reflexivity.
      * rewrite Hx, Hy, Ex, Ey. reflexivity.
      * congruence.
      * congruence.
      * congruence.
      * congruence.
      * rewrite Hh. intros E.
        apply deque_append_nonempty in E; [contradiction|].
        rewrite W4. discriminate.
    + rewrite (on_move_idle s x y St). simpl. wf_done.
  - (* reset_steering_view *)
    unfold reset_steering_view, SteeringLogicMain.reset_steering_view.
    constructor; simpl; auto;
      rewrite deque_refill_repeat, W4; simpl; auto; discriminate.
  - (* update_sensitivity *)
    constructor; simpl; auto.
Qed.

Lemma reachable_well_formed (s : SteeringLogic T) :
  reachable s -> well_formed s.
Proof.
  induction 1 as [app_cb vjoy_ok | s c _ IH].
  - apply well_formed_init.
  - now apply well_formed_step.
Qed.

(** *** stop_steering *)

Lemma stop_steering_active (s : SteeringLogic T) :
  well_formed s -> is_steering s = true ->
  is_steering (fst (stop_steering s)) = false /\
  total_accumulated_degrees (fst (stop_steering s))
    = total_accumulated_degrees s /\
  sink_writes (snd (stop_steering s)) = [CENTER_VJOY_AXIS] /\
  raised (snd (stop_steering s)) = false.
Proof.
  intros W St. pose proof (wf_sink W St) as V.
  unfold stop_steering, callback. rewrite St, V. simpl.
  destruct (app_callback s); repeat split; reflexivity.
Qed.

Lemma stop_steering_idle (s : SteeringLogic T) :
  is_steering s = false -> stop_steering s = (s, []).
Proof.
  intros St. unfold stop_steering. now rewrite St.
Qed.

(** *** start_steering *)

Lemma start_steering_no_sink (s : SteeringLogic T) (m : option (Z * Z)) :
  well_formed s -> vjoy_device s = false ->
  start_steering s m = (s, callback s (Notify Error VjoyNotAvailable)) /\
  is_steering s = false.
Proof.
  intros W V.
  assert (St : is_steering s = false).
  { destruct (is_steering s) eqn:E; [|reflexivity].
    rewrite (wf_sink W E) in V. discriminate. }
  unfold start_steering, SteeringLogicMain.start_steering.
  rewrite St, V. simpl. split; reflexivity.
Qed.

Lemma start_steering_no_pivot (s : SteeringLogic T) (m : option (Z * Z)) :
  well_formed s -> vjoy_device s = true ->
  screen_center_x s = None \/ screen_center_y s = None ->
  start_steering s m = (s, callback s (Notify Error ScreenCenterNotSet)) /\
  is_steering s = false.
Proof.
  intros W V P.
  assert (Px : is_None (screen_center_x s) = true).
  { destruct P as [E|E]; [now rewrite E|].
    rewrite <- (wf_pivot_xy W), E. reflexivity. }
  assert (St : is_steering s = false).
  { destruct (is_steering s) eqn:E; [|reflexivity].
    rewrite (wf_pivot_x W E) in Px. discriminate. }
  unfold start_steering, SteeringLogicMain.start_steering.
  rewrite St, V, Px. simpl. split; reflexivity.
Qed.

Lemma callback_not_raised (s : SteeringLogic T) (c : channel) (m : message T) :
  raised (callback s (Notify c m)) = false /\
  sink_writes (callback s (Notify c m)) = [].
Proof.
  unfold callback. destruct (app_callback s); split; reflexivity.
Qed.

(** *** reset_steering_view *)

(* The angle the smoother is seeded with. *)
Definition seed_angle (s : SteeringLogic T) (m : option (Z * Z)) : T :=
  match m with
  | Some (mx, my) => _calculate_raw_angle atan2_degrees s mx my
  | None => current_raw_angle s
  end.

Lemma reset_steering_view_fields (s : SteeringLogic T) (m : option (Z * Z)) :
  well_formed s ->
  let s' := fst (reset_steering_view s m) in
  total_accumulated_degrees s' = #0 /\
  angular_velocity s' = #0 /\
  angular_acceleration s' = #0 /\
  previous_smoothed_angle s' = seed_angle s m /\
  items (angle_history s') = repeat (seed_angle s m) 5.
Proof.
  intros W. unfold reset_steering_view, SteeringLogicMain.reset_steering_view.
  cbn [fst total_accumulated_degrees angular_velocity angular_acceleration
       previous_smoothed_angle angle_history].
  rewrite deque_refill_repeat, (wf_maxlen W). cbn [items Nat.min].
  assert (E : match m with
              | Some (mx, my) => _calculate_raw_angle atan2_degrees s mx my
              | None => match items (angle_history s) with
                        | [] => #0
                        | _ :: _ => current_raw_angle s
                        end
              end = seed_angle s m).
  { destruct m as [[mx my]|]; [reflexivity|]. simpl.
    destruct (items (angle_history s)) eqn:I; [|reflexivity].
    symmetry. now apply (wf_raw W). }
  rewrite E. repeat split; reflexivity.
Qed.

Lemma reset_steering_view_twice (s : SteeringLogic T) (m : option (Z * Z)) :
  well_formed s ->
  reset_steering_view (fst (reset_steering_view s m)) m
  = reset_steering_view s m.
Proof.
  intros W. unfold reset_steering_view, SteeringLogicMain.reset_steering_view.
  cbn [fst]. unfold _calculate_raw_angle.
  cbn [app_callback sensitivity max_degrees direction_change_threshold
       mouse_center_threshold current_raw_angle previous_smoothed_angle
       total_accumulated_degrees rotation_direction current_offset
       angular_velocity previous_angular_velocity angular_acceleration
       screen_center_x screen_center_y angle_history vjoy_device
       mouse_listener is_steering].
  rewrite !deque_refill_repeat. cbn [maxlen items].
  rewrite (wf_maxlen W). cbn [Nat.min repeat].
  destruct m as [[mx my]|]; [reflexivity|].
  destruct (items (angle_history s)) eqn:I; [|reflexivity].
  rewrite (wf_raw W I). reflexivity.
Qed.

(** *** update_sensitivity *)

Lemma update_sensitivity_frame (s : SteeringLogic T) (v : T) :
  let s' := fst (update_sensitivity s v) in
  sensitivity s' = v /\
  app_callback s' = app_callback s /\
  max_degrees s' = max_degrees s /\
  direction_change_threshold s' = direction_change_threshold s /\
  mouse_center_threshold s' = mouse_center_threshold s /\
  current_raw_angle s' = current_raw_angle s /\
  previous_smoothed_angle s' = previous_smoothed_angle s /\
  total_accumulated_degrees s' = total_accumulated_degrees s /\
  rotation_direction s' = rotation_direction s /\
  current_offset s' = current_offset s /\
  angular_velocity s' = angular_velocity s /\
  previous_angular_velocity s' = previous_angular_velocity s /\
  angular_acceleration s' = angular_acceleration s /\
  screen_center_x s' = screen_center_x s /\
  screen_center_y s' = screen_center_y s /\
  angle_history s' = angle_history s /\
  vjoy_device s' = vjoy_device s /\
  mouse_listener s' = mouse_listener s /\
  is_steering s' = is_steering s.
Proof.
  cbn. repeat split; reflexivity.
Qed.

(* An event sees the same object whatever the sensitivity is. *)
Lemma on_move_sensitivity (s : SteeringLogic T) (v : T) (x y : Z) :
  on_move (fst (update_sensitivity s v)) x y
  = (fst (update_sensitivity (fst (on_move s x y)) v), snd (on_move s x y)).
Proof.
  destruct s as [cb sens maxd thr cthr raw prev total dir off vel pvel acc
                 [cx|] [cy|] hist vjoy lst [|]]; try reflexivity.
  unfold on_move, SteeringLogicMain.on_move, _calculate_raw_angle, accumulate.
  cbn -[deque_append deque_sum deque_len wrap_delta clamp_degrees axis_of Z.pow].
  repeat match goal with
         | |- context [if num_ltb ?a ?b then _ else _] =>
             destruct (num_ltb a b)
         end; reflexivity.
Qed.

Lemma moves_sensitivity (evs : list (Z * Z)) (s : SteeringLogic T) (v : T) :
  let moves := map (fun p => OnMove (fst p) (snd p)) evs in
  run (fst (update_sensitivity s v)) moves
  = (fst (update_sensitivity (fst (run s moves)) v), snd (run s moves)).
Proof.
  revert s. induction evs as [|[x y] evs IH]; intros s; [reflexivity|].
  cbn [map fst snd SteeringLogicMain.run SteeringLogicMain.step] in *.
  rewrite on_move_sensitivity.
  destruct (on_move s x y) as [s1 e1]. cbn [fst snd].
  rewrite IH. destruct (run s1 _) as [s2 e2]. reflexivity.
Qed.

(* The events of a run are all classified Clockwise. *)
Fixpoint clockwise_run (s : SteeringLogic T) (evs : list (Z * Z)) : Prop :=
  match evs with
  | [] => True
  | (x, y) :: evs' =>
      rotation_direction (fst (on_move s x y)) = Clockwise /\
      clockwise_run (fst (on_move s x y)) evs'
  end.

(* The object after a run of pointer events. *)
Definition after_moves (s : SteeringLogic T) (evs : list (Z * Z))
    : SteeringLogic T :=
  fst (run s (map (fun p => OnMove (fst p) (snd p)) evs)).

Lemma after_moves_cons (s : SteeringLogic T) (x y : Z) (evs : list (Z * Z)) :
  after_moves s ((x, y) :: evs) = after_moves (fst (on_move s x y)) evs.
Proof.
  unfold after_moves.
  cbn [map fst snd SteeringLogicMain.run SteeringLogicMain.step].
  destruct (on_move s x y) as [s1 e1]. cbn [fst].
  destruct (run s1 _) as [s2 e2]. reflexivity.
Qed.

Lemma reachable_after_moves (evs : list (Z * Z)) (s : SteeringLogic T) :
  reachable s -> reachable (after_moves s evs).
Proof.
  revert s. induction evs as [|[x y] evs IH]; intros s R; [exact R|].
  rewrite after_moves_cons. apply IH.
  exact (reach_step (OnMove x y) R).
Qed.

End Generic.

(** ** [steering_logic.py]: exact arithmetic *)

Section Exact.
Variable atan2_degrees : Z -> Z -> Q.
Variable math_sqrt : Z -> Q.
Local Open Scope Q_scope.

Local Notation on_move := (on_move atan2_degrees math_sqrt).
Local Notation step := (step atan2_degrees math_sqrt).
Local Notation reachable := (reachable atan2_degrees math_sqrt).
Local Notation after_moves := (after_moves atan2_degrees math_sqrt).
Local Notation clockwise_run := (clockwise_run atan2_degrees math_sqrt).

(* The invariant of the accumulator. *)
Definition bounded (s : SteeringLogic Q) : Prop :=
  - max_degrees s <= total_accumulated_degrees s /\
  total_accumulated_degrees s <= max_degrees s.

Lemma on_move_bounded (s : SteeringLogic Q) (x y : Z) :
  well_formed s -> bounded s -> bounded (fst (on_move s x y)).
Proof.
  intros W B. destruct (is_steering s) eqn:St.
  - pose proof (wf_pivot_x W St) as Px.
    pose proof (wf_pivot_xy W) as Pxy. rewrite Px in Pxy.
    destruct (screen_center_x s) as [cx|] eqn:Ex; [|discriminate].
    destruct (screen_center_y s) as [cy|] eqn:Ey; [|discriminate].
    destruct (on_move_processed atan2_degrees math_sqrt s x y St Ex Ey)
      as (_ & _ & _ & _ & _ & _ & Ht & _).
    destruct (on_move_config atan2_degrees math_sqrt s x y)
      as (_ & Hm & _).
    unfold bounded. rewrite Ht, Hm. unfold clamp_degrees.
    apply clamp_bounds. rewrite (wf_max_degrees W). exact_arith. lra.
  - now rewrite (on_move_idle atan2_degrees math_sqrt s x y St).
Qed.

Lemma step_bounded (s : SteeringLogic Q) (c : call) :
  well_formed s -> bounded s -> bounded (fst (step s c)).
Proof.
  intros W B. destruct c as [cx cy m | m | | x y | m | v];
    cbn [SteeringLogicMain.step].
  - unfold set_screen_center. destruct m as [[mx my]|]; exact B.
  - unfold start_steering.
    destruct (is_steering s); [exact B|].
    destruct (negb (vjoy_device s)); [exact B|].
    destruct (is_None (screen_center_x s) || is_None (screen_center_y s));
      [exact B|].
    destruct m as [[mx my]|]; exact B.
  - unfold stop_steering. destruct (negb (is_steering s)); exact B.
  - now apply on_move_bounded.
  - unfold reset_steering_view, bounded.
    cbn [fst max_degrees total_accumulated_degrees].
    rewrite (wf_max_degrees W). exact_arith. lra.
  - exact B.
Qed.

Lemma reachable_bounded (s : SteeringLogic Q) : reachable s -> bounded s.
Proof.
  induction 1 as [app_cb vjoy_ok | s c R IH].
  - unfold bounded.
    cbn [fst init max_degrees total_accumulated_degrees]. exact_arith. lra.
  - apply step_bounded; [|exact IH].
    now apply (reachable_well_formed (T:=Q)) in R.
Qed.

(** *** The wrap-around correction *)

Lemma wrap_delta_cases (d : Q) :
  (180 < d /\ wrap_delta d = d - 360) \/
  (d < -180 /\ wrap_delta d = d + 360) \/
  (-180 <= d /\ d <= 180 /\ wrap_delta d = d).
Proof.
  unfold wrap_delta. exact_arith.
  destruct (Qltb_cases 180 d) as [[E L]|[E L]]; rewrite E; [now left|].
  destruct (Qltb_cases d (-180)) as [[E' L']|[E' L']]; rewrite E'.
  - right. left. now split.
  - right. right. repeat split; assumption.
Qed.


(** *** Classification and accumulation *)

Lemma accumulate_cases (s : SteeringLogic Q) (offset delta : Q) :
  (offset < mouse_center_threshold s /\
   accumulate s offset delta = (DirNone, total_accumulated_degrees s)) \/
  (mouse_center_threshold s <= offset /\
   direction_change_threshold s < delta /\
   accumulate s offset delta
   = (Clockwise, total_accumulated_degrees s + Qabs delta)) \/
  (mouse_center_threshold s <= offset /\
   delta <= direction_change_threshold s /\
   delta < - direction_change_threshold s /\
   accumulate s offset delta
   = (Counterclockwise, total_accumulated_degrees s - Qabs delta)) \/
  (mouse_center_threshold s <= offset /\
   - direction_change_threshold s <= delta /\
   delta <= direction_change_threshold s /\
   accumulate s offset delta = (DirNone, total_accumulated_degrees s)).
Proof.
  unfold accumulate. exact_arith.
  destruct (Qltb_cases offset (mouse_center_threshold s)) as [[E L]|[E L]];
    rewrite E; [now left|].
  destruct (Qltb_cases (direction_change_threshold s) delta)
    as [[E1 L1]|[E1 L1]]; rewrite E1; [right; left; now repeat split|].
  destruct (Qltb_cases delta (- direction_change_threshold s))
    as [[E2 L2]|[E2 L2]]; rewrite E2.
  - right. right. left. now repeat split.
  - right. right. right. now repeat split.
Qed.

(* A processed event, seen from the state it leaves. *)
Lemma on_move_active (s : SteeringLogic Q) (x y : Z) :
  well_formed s -> is_steering s = true ->
  exists cx cy,
    screen_center_x s = Some cx /\ screen_center_y s = Some cy /\
    let s' := fst (on_move s x y) in
    let delta := angular_velocity s' in
    current_offset s' = math_sqrt ((x - cx) ^ 2 + (y - cy) ^ 2)%Z /\
    rotation_direction s' = fst (accumulate s (current_offset s') delta) /\
    total_accumulated_degrees s'
      = clamp_degrees s (snd (accumulate s (current_offset s') delta)).
Proof.
  intros W St.
  pose proof (wf_pivot_x W St) as Px.
  pose proof (wf_pivot_xy W) as Pxy. rewrite Px in Pxy.
  destruct (screen_center_x s) as [cx|] eqn:Ex; [|discriminate].
  destruct (screen_center_y s) as [cy|] eqn:Ey; [|discriminate].
  exists cx, cy. split; [reflexivity|]. split; [reflexivity|].
  destruct (on_move_processed atan2_degrees math_sqrt s x y St Ex Ey)
    as (Ho & _ & _ & _ & Hv & Hd & Ht & _).
  cbv zeta. rewrite Hv, Ho. repeat split; assumption.
Qed.

(** *** Saturation *)

Lemma clockwise_gains (s : SteeringLogic Q) (x y : Z) (b : Q) :
  well_formed s -> is_steering s = true ->
  rotation_direction (fst (on_move s x y)) = Clockwise ->
  b <= max_degrees s -> b <= total_accumulated_degrees s + 1 ->
  b <= total_accumulated_degrees (fst (on_move s x y)).
Proof.
  intros W St Dir Bm Bt.
  destruct (on_move_active x y W St) as (cx & cy & _ & _ & _ & Hd & Ht).
  rewrite Ht. rewrite Hd in Dir. clear Hd Ht.
  set (offset := current_offset _) in *.
  set (delta := angular_velocity _) in *.
  destruct (accumulate_cases s offset delta)
    as [[_ E]|[(_ & L & E)|[(_ & _ & _ & E)|(_ & _ & _ & E)]]];
    rewrite E in Dir |- *; try discriminate.
  cbn [snd]. unfold clamp_degrees. apply clamp_above; [exact Bm|].
  rewrite (wf_threshold W) in L. exact_arith.
  pose proof (Qle_Qabs delta). lra.
Qed.

Lemma clockwise_run_gains (evs : list (Z * Z)) (s : SteeringLogic Q) (b : Q) :
  well_formed s -> is_steering s = true -> clockwise_run s evs ->
  b <= max_degrees s ->
  b <= total_accumulated_degrees s + inject_Z (Z.of_nat (length evs)) ->
  b <= total_accumulated_degrees (after_moves s evs).
Proof.
  revert s b. induction evs as [|[x y] evs IH]; intros s b W St C Bm Bt.
  - cbn [length Z.of_nat] in Bt. exact_arith. unfold MainFacts.after_moves.
    cbn. lra.
  - destruct C as [Dir C]. rewrite after_moves_cons.
    destruct (on_move_config atan2_degrees math_sqrt s x y)
      as (_ & Hm & _ & _ & _ & _ & _ & _ & Hs).
    apply IH.
    + now apply well_formed_step with (c := OnMove x y).
    + now rewrite Hs.
    + exact C.
    + now rewrite Hm.
    + cbn [length] in Bt. rewrite Nat2Z.inj_succ in Bt. unfold Z.succ in Bt.
      rewrite inject_Z_plus in Bt. exact_arith.
      set (n := inject_Z (Z.of_nat (length evs))) in *.
      assert (N : 0 <= n).
      { subst n. change 0 with (inject_Z 0). rewrite <- Zle_Qle. lia. }
      assert (G : b - n <= total_accumulated_degrees (fst (on_move s x y))).
      { apply clockwise_gains; try assumption; lra. }
      lra.
Qed.

(** *** Center suppression *)

Lemma center_suppression (s : SteeringLogic Q) (x y : Z) :
  well_formed s -> bounded s -> is_steering s = true ->
  current_offset (fst (on_move s x y)) < mouse_center_threshold s ->
  rotation_direction (fst (on_move s x y)) = DirNone /\
  total_accumulated_degrees (fst (on_move s x y))
  == total_accumulated_degrees s.
Proof.
  intros W [Lo Hi] St Off.
  destruct (on_move_active x y W St) as (cx & cy & _ & _ & _ & Hd & Ht).
  rewrite Hd, Ht. clear Hd Ht.
  set (offset := current_offset _) in *.
  set (delta := angular_velocity _) in *.
  destruct (accumulate_cases s offset delta)
    as [[_ E]|[(L & _)|[(L & _)|(L & _)]]]; try lra.
  rewrite E. cbn [fst snd]. split; [reflexivity|].
  unfold clamp_degrees. now apply clamp_inside.
Qed.

(** *** The axis mapping *)

(* The value before it is made an integer, as the design states it. *)
Definition axis_real (s : SteeringLogic Q) (total : Q) : Q :=
  (total + max_degrees s) / (2 * max_degrees s)
  * inject_Z (MAX_VJOY_AXIS - MIN_VJOY_AXIS) + inject_Z MIN_VJOY_AXIS.

(* [n] is an integer nearest to [v]. *)
Definition nearest_integer (v : Q) (n : Z) : Prop :=
  Qabs (v - inject_Z n) <= 1 # 2.

Lemma axis_real_range (s : SteeringLogic Q) (total : Q) :
  0 < max_degrees s ->
  - max_degrees s <= total -> total <= max_degrees s ->
  0 <= axis_real s total /\ axis_real s total <= 32767.
Proof.
  intros M Lo Hi. unfold axis_real.
  change (inject_Z (MAX_VJOY_AXIS - MIN_VJOY_AXIS)) with 32767.
  change (inject_Z MIN_VJOY_AXIS) with 0.
  set (n := (total + max_degrees s) / (2 * max_degrees s)).
  assert (N0 : 0 <= n).
  { apply Qle_shift_div_l; lra. }
  assert (N1 : n <= 1).
  { apply Qle_shift_div_r; lra. }
  lra.
Qed.

Lemma axis_of_truncates (s : SteeringLogic Q) (total : Q) :
  0 < max_degrees s ->
  - max_degrees s <= total -> total <= max_degrees s ->
  inject_Z (axis_of s total) <= axis_real s total /\
  axis_real s total < inject_Z (axis_of s total + 1) /\
  (MIN_VJOY_AXIS <= axis_of s total <= MAX_VJOY_AXIS)%Z.
Proof.
  intros M Lo Hi. destruct (@axis_real_range s total M Lo Hi) as [R0 R1].
  unfold axis_of. exact_arith.
  assert (Z : Qeq_bool (2 * max_degrees s) 0 = false).
  { destruct (Qeq_bool (2 * max_degrees s) 0) eqn:E; [|reflexivity].
    apply Qeq_bool_iff in E. lra. }
  rewrite Z.
  set (v := (total - - max_degrees s) / (2 * max_degrees s)
            * inject_Z (MAX_VJOY_AXIS - MIN_VJOY_AXIS)
            + inject_Z MIN_VJOY_AXIS).
  assert (E : v == axis_real s total).
  { unfold v, axis_real. field. lra. }
  assert (P : 0 <= v) by lra.
  destruct (Qint_floor P) as [A B].
  assert (I0 : (0 <= Qint v)%Z).
  { assert (X : inject_Z 0 < inject_Z (Qint v + 1)).
    { change (inject_Z 0) with 0. lra. }
    rewrite <- Zlt_Qlt in X. lia. }
  assert (I1 : (Qint v <= 32767)%Z).
  { assert (X : inject_Z (Qint v) <= inject_Z 32767).
    { change (inject_Z 32767) with 32767. lra. }
    rewrite <- Zle_Qle in X. exact X. }
  change MIN_VJOY_AXIS with 0%Z. change MAX_VJOY_AXIS with 32767%Z.
  rewrite Z.min_r by lia. rewrite Z.max_r by lia.
  repeat split; try lia; lra.
Qed.

(* Outside the lock the clamp takes over. *)
Lemma axis_of_clamps (s : SteeringLogic Q) (total : Q) :
  0 < max_degrees s ->
  (axis_real s total < 0 -> axis_of s total = MIN_VJOY_AXIS) /\
  (inject_Z MAX_VJOY_AXIS <= axis_real s total ->
   axis_of s total = MAX_VJOY_AXIS).
Proof.
  intros M. unfold axis_of. exact_arith.
  assert (Z : Qeq_bool (2 * max_degrees s) 0 = false).
  { destruct (Qeq_bool (2 * max_degrees s) 0) eqn:E; [|reflexivity].
    apply Qeq_bool_iff in E. lra. }
  rewrite Z.
  set (v := (total - - max_degrees s) / (2 * max_degrees s)
            * inject_Z (MAX_VJOY_AXIS - MIN_VJOY_AXIS)
            + inject_Z MIN_VJOY_AXIS).
  assert (E : v == axis_real s total).
  { unfold v, axis_real. field. lra. }
  change MIN_VJOY_AXIS with 0%Z. change MAX_VJOY_AXIS with 32767%Z.
  change (inject_Z 32767) with 32767.
  split; intros L.
  - assert (I : (Qint v <= 0)%Z) by (apply Qint_nonpos; lra). lia.
  - assert (P : 0 <= v) by lra.
    destruct (Qint_floor P) as [_ B].
    assert (X : inject_Z 32767 < inject_Z (Qint v + 1)).
    { change (inject_Z 32767) with 32767. lra. }
    rewrite <- Zlt_Qlt in X. lia.
Qed.

Lemma axis_of_is (s : SteeringLogic Q) (total : Q) (n : Z) :
  0 < max_degrees s ->
  - max_degrees s <= total -> total <= max_degrees s ->
  inject_Z n <= axis_real s total -> axis_real s total < inject_Z (n + 1) ->
  axis_of s total = n.
Proof.
  intros M Lo Hi A B.
  destruct (@axis_of_truncates s total M Lo Hi) as (A' & B' & _).
  assert (X : inject_Z (axis_of s total) < inject_Z (n + 1)) by lra.
  assert (Y : inject_Z n < inject_Z (axis_of s total + 1)) by lra.
  rewrite <- Zlt_Qlt in X, Y. lia.
Qed.

Lemma axis_of_boundaries (s : SteeringLogic Q) :
  0 < max_degrees s ->
  axis_of s (- max_degrees s) = MIN_VJOY_AXIS /\
  axis_of s (max_degrees s) = MAX_VJOY_AXIS.
Proof.
  intros M. split; apply axis_of_is; try lra; unfold axis_real;
    change (inject_Z (MAX_VJOY_AXIS - MIN_VJOY_AXIS)) with 32767;
    change (inject_Z MIN_VJOY_AXIS) with 0;
    change (inject_Z (MIN_VJOY_AXIS + 1)) with 1;
    change (inject_Z MAX_VJOY_AXIS) with 32767;
    change (inject_Z (MAX_VJOY_AXIS + 1)) with 32768.
  - setoid_replace ((- max_degrees s + max_degrees s) / (2 * max_degrees s))
      with 0 by (field; lra). lra.
  - setoid_replace ((- max_degrees s + max_degrees s) / (2 * max_degrees s))
      with 0 by (field; lra). lra.
  - setoid_replace ((max_degrees s + max_degrees s) / (2 * max_degrees s))
      with 1 by (field; lra). lra.
  - setoid_replace ((max_degrees s + max_degrees s) / (2 * max_degrees s))
      with 1 by (field; lra). lra.
Qed.

Lemma axis_of_center (s : SteeringLogic Q) :
  0 < max_degrees s -> axis_of s 0 = CENTER_VJOY_AXIS.
Proof.
  intros M. apply axis_of_is; try lra; unfold axis_real;
    change (inject_Z (MAX_VJOY_AXIS - MIN_VJOY_AXIS)) with 32767;
    change (inject_Z MIN_VJOY_AXIS) with 0;
    change (inject_Z CENTER_VJOY_AXIS) with 16383;
    change (inject_Z (CENTER_VJOY_AXIS + 1)) with 16384;
    setoid_replace ((0 + max_degrees s) / (2 * max_degrees s))
      with (1 # 2) by (field; lra); lra.
Qed.

(** *** The first event after the smoother is seeded *)

Lemma first_event_at_seed (s : SteeringLogic Q) (cx cy mx my : Z) :
  well_formed s ->
  is_steering s = false -> vjoy_device s = true ->
  screen_center_x s = Some cx -> screen_center_y s = Some cy ->
  let seed := atan2_degrees (my - cy) (mx - cx) in
  let s1 := fst (start_steering atan2_degrees s (Some (mx, my))) in
  let s2 := fst (on_move s1 mx my) in
  is_steering s1 = true /\
  items (angle_history s1) = repeat seed 5 /\
  previous_smoothed_angle s1 = seed /\
  previous_smoothed_angle s2 == seed /\
  angular_velocity s2 == 0.
Proof.
  intros W St V Ex Ey seed s1 s2.
  assert (E1 : s1 = fst (start_steering atan2_degrees s (Some (mx, my))))
    by reflexivity.
  unfold start_steering in E1. rewrite St, V, Ex, Ey in E1.
  cbn [negb is_None orb fst] in E1.
  rewrite deque_refill_repeat, (wf_maxlen W) in E1. cbn [Nat.min] in E1.
  unfold _calculate_raw_angle in E1. rewrite Ex, Ey in E1. fold seed in E1.
  assert (St1 : is_steering s1 = true) by now rewrite E1.
  assert (Ex1 : screen_center_x s1 = Some cx) by now rewrite E1.
  assert (Ey1 : screen_center_y s1 = Some cy) by now rewrite E1.
  destruct (on_move_processed atan2_degrees math_sqrt s1 mx my St1 Ex1 Ey1)
    as (_ & _ & _ & Hp & Hv & _).
  fold s2 in Hp, Hv. fold seed in Hp, Hv.
  assert (Hh : deque_append (angle_history s1) seed
               = {| items := repeat seed 5; maxlen := 5 |})
    by now rewrite E1.
  assert (Hs : previous_smoothed_angle s1 = seed) by now rewrite E1.
  rewrite Hh in Hp, Hv. rewrite Hs in Hv.
  assert (Mean : previous_smoothed_angle s2 == seed).
  { rewrite Hp. apply (mean_repeat seed (n:=5) 5). discriminate. }
  repeat split; try (rewrite E1; reflexivity); try exact Mean.
  rewrite Hv. rewrite <- Hp. exact_arith.
  destruct (wrap_delta_cases (previous_smoothed_angle s2 - seed))
    as [[L E]|[[L E]|(_ & _ & E)]]; rewrite E; lra.
Qed.

(** *** Angles stay in the range of [atan2] *)

Definition in_range (a : Q) : Prop := -180 <= a /\ a <= 180.

Definition angles_in_range (s : SteeringLogic Q) : Prop :=
  in_range (previous_smoothed_angle s) /\
  in_range (current_raw_angle s) /\
  Forall in_range (items (angle_history s)).

Lemma in_range_0 : in_range 0.
Proof. unfold in_range. lra. Qed.

Lemma Forall_deque_append (P : Q -> Prop) (d : deque Q) (a : Q) :
  Forall P (items d) -> P a -> Forall P (items (deque_append d a)).
Proof.
  intros F Pa. unfold deque_append. cbn [items].
  assert (G : Forall P (items d ++ [a])).
  { apply Forall_app. split; [exact F|]. constructor; [exact Pa|constructor]. }
  destruct (maxlen d <? length (items d ++ [a]))%nat; [|exact G].
  destruct (items d ++ [a]); [constructor|]. now inversion G.
Qed.

Lemma Forall_deque_refill (P : Q -> Prop) (d : deque Q) (n : nat) (a : Q) :
  P a -> Forall P (items (deque_refill d n a)).
Proof.
  intros Pa. rewrite deque_refill_repeat. cbn [items].
  induction (Nat.min n (maxlen d)); constructor; assumption.
Qed.

Section AngleRange.
Hypothesis atan2_range : forall dy dx, in_range (atan2_degrees dy dx).

Lemma raw_angle_in_range (s : SteeringLogic Q) (x y : Z) :
  in_range (_calculate_raw_angle atan2_degrees s x y).
Proof.
  unfold _calculate_raw_angle.
  destruct (screen_center_x s), (screen_center_y s);
    try apply atan2_range; apply in_range_0.
Qed.

Lemma step_angles_in_range (s : SteeringLogic Q) (c : call) :
  well_formed s -> angles_in_range s -> angles_in_range (fst (step s c)).
Proof.
  intros W A. pose proof A as (A1 & A2 & A3).
  destruct c as [cx cy m | m | | x y | m | v]; cbn [SteeringLogicMain.step].
  - unfold set_screen_center. destruct m as [[mx my]|]; [|exact A].
    split; [|split]; cbn [fst previous_smoothed_angle current_raw_angle
                          angle_history].
    + apply raw_angle_in_range.
    + exact A2.
    + apply Forall_deque_refill. apply raw_angle_in_range.
  - unfold start_steering.
    destruct (is_steering s); [exact A|].
    destruct (negb (vjoy_device s)); [exact A|].
    destruct (is_None (screen_center_x s) || is_None (screen_center_y s));
      [exact A|].
    destruct m as [[mx my]|]; [|exact A].
    split; [|split]; cbn [fst previous_smoothed_angle current_raw_angle
                          angle_history].
    + apply raw_angle_in_range.
    + exact A2.
    + apply Forall_deque_refill. apply raw_angle_in_range.
  - unfold stop_steering. destruct (negb (is_steering s)); exact A.
  - destruct (is_steering s) eqn:St.
    + pose proof (wf_pivot_x W St) as Px.
      pose proof (wf_pivot_xy W) as Pxy. rewrite Px in Pxy.
      destruct (screen_center_x s) as [cx|] eqn:Ex; [|discriminate].
      destruct (screen_center_y s) as [cy|] eqn:Ey; [|discriminate].
      destruct (on_move_processed atan2_degrees math_sqrt s x y St Ex Ey)
        as (_ & Hr & Hh & Hp & _).
      assert (F : Forall in_range
                    (items (deque_append (angle_history s)
                              (atan2_degrees (y - cy) (x - cx))))).
      { apply Forall_deque_append; [exact A3 | apply atan2_range]. }
      unfold angles_in_range. rewrite Hr, Hh, Hp.
      split; [|split; [apply atan2_range | exact F]].
      apply mean_bounds; [|exact F].
      apply deque_append_nonempty. rewrite (wf_maxlen W). discriminate.
    + now rewrite (on_move_idle atan2_degrees math_sqrt s x y St).
  - unfold reset_steering_view.
    assert (S : in_range
                  match m with
                  | Some (mx, my) => _calculate_raw_angle atan2_degrees s mx my
                  | None => match items (angle_history s) with
                            | [] => num_of_Z 0
                            | _ :: _ => current_raw_angle s
                            end
                  end).
    { destruct m as [[mx my]|]; [apply raw_angle_in_range|].
      destruct (items (angle_history s)); [apply in_range_0 | exact A2]. }
    split; [|split]; cbn [fst previous_smoothed_angle current_raw_angle
                          angle_history].
    + exact S.
    + exact A2.
    + apply Forall_deque_refill. exact S.
  - exact A.
Qed.

Lemma reachable_angles_in_range (s : SteeringLogic Q) :
  reachable s -> angles_in_range s.
Proof.
  induction 1 as [app_cb vjoy_ok | s c R IH].
  - split; [|split]; cbn [fst init previous_smoothed_angle current_raw_angle
                          angle_history items].
    + apply in_range_0.
    + apply in_range_0.
    + constructor.
  - apply step_angles_in_range; [|exact IH].
    now apply (reachable_well_formed (T:=Q)) in R.
Qed.


End AngleRange.

End Exact.
End MainFacts.

(** ** [core_logic.py]: facts that hold for any arithmetic *)

Module CoreFacts.
Import CoreLogic.

Section Generic.
Context {T : Type} `{Number T}.
Variable atan2_degrees : Z -> Z -> T.
Variable math_sqrt : Z -> T.

Local Notation "# z" := (num_of_Z z) (at level 1, format "# z").
Local Notation _on_move_handler := (_on_move_handler atan2_degrees math_sqrt).
Local Notation start := (start atan2_degrees).
Local Notation recenter_view := (recenter_view atan2_degrees).
Local Notation set_screen_center := (set_screen_center atan2_degrees).
Local Notation step := (step atan2_degrees math_sqrt).
Local Notation run := (run atan2_degrees math_sqrt).
Local Notation reachable := (reachable atan2_degrees math_sqrt).

Record well_formed (s : SteeringLogic T) : Prop := WellFormed {
  wf_sink : is_steering s = true -> vjoy_device s = true;
  wf_pivot_x : is_steering s = true -> is_None (screen_center_x s) = false;
  wf_pivot_xy : is_None (screen_center_y s) = is_None (screen_center_x s);
  wf_maxlen : maxlen (angle_history s) = 5%nat;
  wf_max_degrees : max_degrees s = #1080;
  wf_threshold : direction_change_threshold s = #1;
  wf_center : mouse_center_threshold s = #15
}.

Ltac wf_done :=
  constructor; simpl; intros; auto; try congruence; try discriminate.

Lemma core_on_move_processed (s : SteeringLogic T) (x y cx cy : Z) :
  is_steering s = true ->
  screen_center_x s = Some cx -> screen_center_y s = Some cy ->
  let offset := math_sqrt ((x - cx) ^ 2 + (y - cy) ^ 2)%Z in
  let raw := atan2_degrees (y - cy) (x - cx) in
  let history := deque_append (angle_history s) raw in
  let smoothed := (deque_sum history / deque_len history)%num in
  let delta := wrap_delta (smoothed - previous_smoothed_angle s)%num in
  let s' := fst (fst (_on_move_handler s x y)) in
  current_offset s' = offset /\
  current_raw_angle s' = raw /\
  angle_history s' = history /\
  previous_smoothed_angle s' = smoothed /\
  angular_velocity s' = (delta / #1)%num /\
  rotation_direction s' = fst (accumulate s offset delta) /\
  total_accumulated_degrees s'
    = clamp_degrees s (snd (accumulate s offset delta)) /\
  sink_writes (snd (fst (_on_move_handler s x y)))
    = (if vjoy_device s then [axis_of s'] else []) /\
  raised (snd (fst (_on_move_handler s x y))) = false.
Proof.
  intros St Cx Cy. unfold _on_move_handler, CoreLogic._on_move_handler.
  unfold _calculate_raw_angle. rewrite St, Cx, Cy. simpl.
  destruct (accumulate s _ _) as [dir total]. simpl.
  repeat split; try reflexivity.
  - destruct (vjoy_device s); reflexivity.
  - destruct (vjoy_device s); reflexivity.
Qed.

Lemma core_on_move_idle (s : SteeringLogic T) (x y : Z) :
  is_steering s = false -> _on_move_handler s x y = (s, [], false).
Proof.
  intros St. unfold _on_move_handler, CoreLogic._on_move_handler.
  now rewrite St.
Qed.

Lemma core_on_move_config (s : SteeringLogic T) (x y : Z) :
  let s' := fst (fst (_on_move_handler s x y)) in
  max_degrees s' = max_degrees s /\
  direction_change_threshold s' = direction_change_threshold s /\
  mouse_center_threshold s' = mouse_center_threshold s /\
  screen_center_x s' = screen_center_x s /\
  screen_center_y s' = screen_center_y s /\
  maxlen (angle_history s') = maxlen (angle_history s) /\
  vjoy_device s' = vjoy_device s /\
  is_steering s' = is_steering s.
Proof.
  unfold _on_move_handler, CoreLogic._on_move_handler.
  destruct (negb (is_steering s) || is_None (screen_center_x s));
    [simpl; repeat split; reflexivity|].
  destruct (screen_center_x s) eqn:Ex, (screen_center_y s) eqn:Ey;
    try solve [simpl; repeat split; auto].
  destruct (accumulate s _ _). simpl. repeat split; auto.
Qed.

Lemma core_well_formed_init (gui_cb vjoy_ok : bool) :
  well_formed (fst (init gui_cb vjoy_ok)).
Proof. wf_done. Qed.

Lemma core_well_formed_step (s : SteeringLogic T) (c : call) :
  well_formed s -> well_formed (fst (step s c)).
Proof.
  intros [W1 W2 W3 W4 W5 W6 W7].
  destruct c as [cx cy m | m | | x y | m | v]; cbn [CoreLogic.step].
  - (* set_screen_center *)
    unfold set_screen_center, CoreLogic.set_screen_center.
    wf_done; rewrite deque_refill_repeat; simpl; exact W4.
  - (* start *)
    unfold start, CoreLogic.start.
    destruct (is_steering s) eqn:St; [wf_done|].
    destruct (vjoy_device s) eqn:V; simpl; [|wf_done].
    destruct (is_None (screen_center_x s)) eqn:Cx; simpl; [wf_done|].
    destruct (is_None (screen_center_y s)) eqn:Cy; simpl; [wf_done|].
    wf_done; rewrite deque_refill_repeat; simpl; exact W4.
  - (* stop *)
    unfold stop. destruct (is_steering s) eqn:St; simpl; wf_done.
  - (* _on_move_handler *)
    destruct (is_steering s) eqn:St.
    + pose proof (W2 eq_refl) as Cx.
      destruct (screen_center_x s) as [cx|] eqn:Ex; [|discriminate].
      destruct (screen_center_y s) as [cy|] eqn:Ey; [|discriminate].
      destruct (core_on_move_config s x y)
        as (Hm & Ht & Hc & Hx & Hy & Hl & Hv & Hs).
      constructor.
      * intros _. rewrite Hv. auto.
      * intros _. rewrite Hx, Ex. reflexivity.
      * rewrite Hx, Hy, Ex, Ey. reflexivity.
      * congruence.
      * congruence.
      * congruence.
      * congruence.
    + rewrite (core_on_move_idle s x y St). simpl. wf_done.
  - (* recenter_view *)
    unfold recenter_view, CoreLogic.recenter_view.
    wf_done; rewrite deque_refill_repeat; simpl; exact W4.
  - (* set_sensitivity *)
    wf_done.
Qed.

Lemma core_reachable_well_formed (s : SteeringLogic T) :
  reachable s -> well_formed s.
Proof.
  induction 1 as [gui_cb vjoy_ok | s c _ IH].
  - apply core_well_formed_init.
  - now apply core_well_formed_step.
Qed.

(** *** stop *)

(* The snapshot [_send_data_update] publishes. *)
Definition snapshot (s : SteeringLogic T) : gui_data T :=
  {| gui_offset := current_offset s;
     gui_raw_angle := current_raw_angle s;
     gui_smoothed_angle := previous_smoothed_angle s;
     gui_total_accumulated_degrees := total_accumulated_degrees s;
     gui_rotation_direction := rotation_direction s;
     gui_angular_velocity := angular_velocity s;
     gui_angular_acceleration := angular_acceleration s;
     gui_vjoy_axis_value :=
       if vjoy_device s then axis_of s else CENTER_VJOY_AXIS;
     gui_is_steering := Some (is_steering s) |}.

Lemma core_stop_active (s : SteeringLogic T) :
  well_formed s -> is_steering s = true ->
  let s' := fst (stop s) in
  is_steering s' = false /\
  total_accumulated_degrees s' = total_accumulated_degrees s /\
  snd (stop s)
  = [SetAxis CENTER_VJOY_AXIS; Notify Status SteeringStopped;
     Update (snapshot s')] /\
  gui_vjoy_axis_value (snapshot s') = axis_of s.
Proof.
  intros W St. pose proof (wf_sink W St) as V. clear W.
  destruct s; cbn [is_steering vjoy_device] in St, V; subst.
  repeat split; reflexivity.
Qed.

Lemma core_stop_idle (s : SteeringLogic T) :
  is_steering s = false -> stop s = (s, [Notify Status NotSteering]).
Proof.
  intros St. unfold stop. now rewrite St.
Qed.

(** *** start *)

Lemma core_start_no_sink (s : SteeringLogic T) (m : option (Z * Z)) :
  well_formed s -> vjoy_device s = false ->
  start s m = (s, [Notify Error VjoyNotAvailable]) /\
  is_steering s = false.
Proof.
  intros W V.
  assert (St : is_steering s = false).
  { destruct (is_steering s) eqn:E; [|reflexivity].
    rewrite (wf_sink W E) in V. discriminate. }
  unfold start, CoreLogic.start. rewrite St, V. split; reflexivity.
Qed.

Lemma core_start_no_pivot (s : SteeringLogic T) (m : option (Z * Z)) :
  well_formed s -> vjoy_device s = true ->
  screen_center_x s = None \/ screen_center_y s = None ->
  start s m = (s, [Notify Error ScreenCenterNotSet]) /\
  is_steering s = false.
Proof.
  intros W V P.
  assert (Px : is_None (screen_center_x s) = true).
  { destruct P as [E|E]; [now rewrite E|].
    rewrite <- (wf_pivot_xy W), E. reflexivity. }
  assert (St : is_steering s = false).
  { destruct (is_steering s) eqn:E; [|reflexivity].
    rewrite (wf_pivot_x W E) in Px. discriminate. }
  unfold start, CoreLogic.start. rewrite St, V, Px. split; reflexivity.
Qed.

(** *** recenter_view *)

(* The angle the smoother is seeded with; 0.0 when the pointer cannot be
   read. *)
Definition core_seed_angle (s : SteeringLogic T) (m : option (Z * Z)) : T :=
  match m with
  | Some (mx, my) => _calculate_raw_angle atan2_degrees s mx my
  | None => #0
  end.

Lemma recenter_view_fields (s : SteeringLogic T) (m : option (Z * Z)) :
  well_formed s ->
  let s' := fst (recenter_view s m) in
  total_accumulated_degrees s' = #0 /\
  angular_velocity s' = #0 /\
  angular_acceleration s' = #0 /\
  previous_smoothed_angle s' = core_seed_angle s m /\
  items (angle_history s') = repeat (core_seed_angle s m) 5.
Proof.
  intros W. unfold recenter_view, CoreLogic.recenter_view.
  cbn [fst assign total_accumulated_degrees angular_velocity
       angular_acceleration previous_smoothed_angle angle_history].
  rewrite deque_refill_repeat. unfold maxlen_or_1.
  rewrite (wf_maxlen W). cbn [items Nat.min].
  repeat split; reflexivity.
Qed.

Lemma recenter_view_twice (s : SteeringLogic T) (m : option (Z * Z)) :
  well_formed s ->
  recenter_view (fst (recenter_view s m)) m = recenter_view s m.
Proof.
  intros W. unfold recenter_view, CoreLogic.recenter_view.
  cbn [fst]. unfold _calculate_raw_angle, maxlen_or_1.
  cbn [assign parent_gui_callback sensitivity max_degrees
       direction_change_threshold mouse_center_threshold current_raw_angle
       previous_smoothed_angle total_accumulated_degrees rotation_direction
       current_offset angular_velocity previous_angular_velocity
       angular_acceleration screen_center_x screen_center_y angle_history
       vjoy_device mouse_listener is_steering vjoy_status_message].
  rewrite !deque_refill_repeat. cbn [maxlen items].
  rewrite (wf_maxlen W). cbn [Nat.min repeat].
  reflexivity.
Qed.

(* The events of a run are all classified Clockwise. *)
Fixpoint core_clockwise_run (s : SteeringLogic T) (evs : list (Z * Z))
    : Prop :=
  match evs with
  | [] => True
  | (x, y) :: evs' =>
      rotation_direction (fst (fst (_on_move_handler s x y))) = Clockwise /\
      core_clockwise_run (fst (fst (_on_move_handler s x y))) evs'
  end.

Definition core_after_moves (s : SteeringLogic T) (evs : list (Z * Z))
    : SteeringLogic T :=
  fst (run s (map (fun p => OnMove (fst p) (snd p)) evs)).

Lemma core_after_moves_cons (s : SteeringLogic T) (x y : Z)
    (evs : list (Z * Z)) :
  core_after_moves s ((x, y) :: evs)
  = core_after_moves (fst (fst (_on_move_handler s x y))) evs.
Proof.
  unfold core_after_moves.
  cbn [map fst snd CoreLogic.run CoreLogic.step].
  destruct (_on_move_handler s x y) as [[s1 e1] b]. cbn [fst].
  destruct (run s1 _) as [s2 e2]. reflexivity.
Qed.

End Generic.

(** ** [core_logic.py]: exact arithmetic *)

Section Exact.
Variable atan2_degrees : Z -> Z -> Q.
Variable math_sqrt : Z -> Q.
Local Open Scope Q_scope.

Local Notation _on_move_handler := (_on_move_handler atan2_degrees math_sqrt).
Local Notation step := (step atan2_degrees math_sqrt).
Local Notation reachable := (reachable atan2_degrees math_sqrt).
Local Notation core_after_moves := (core_after_moves atan2_degrees math_sqrt).
Local Notation core_clockwise_run :=
  (core_clockwise_run atan2_degrees math_sqrt).

Definition core_bounded (s : SteeringLogic Q) : Prop :=
  - max_degrees s <= total_accumulated_degrees s /\
  total_accumulated_degrees s <= max_degrees s.

Lemma core_on_move_bounded (s : SteeringLogic Q) (x y : Z) :
  well_formed s -> core_bounded s ->
  core_bounded (fst (fst (_on_move_handler s x y))).
Proof.
  intros W B. destruct (is_steering s) eqn:St.
  - pose proof (wf_pivot_x W St) as Px.
    pose proof (wf_pivot_xy W) as Pxy. rewrite Px in Pxy.
    destruct (screen_center_x s) as [cx|] eqn:Ex; [|discriminate].
    destruct (screen_center_y s) as [cy|] eqn:Ey; [|discriminate].
    destruct (core_on_move_processed atan2_degrees math_sqrt s x y St Ex Ey)
      as (_ & _ & _ & _ & _ & _ & Ht & _).
    destruct (core_on_move_config atan2_degrees math_sqrt s x y)
      as (Hm & _).
    unfold core_bounded. rewrite Ht, Hm. unfold clamp_degrees.
    apply clamp_bounds. rewrite (wf_max_degrees W). exact_arith. lra.
  - now rewrite (core_on_move_idle atan2_degrees math_sqrt s x y St).
Qed.

Lemma core_step_bounded (s : SteeringLogic Q) (c : call) :
  well_formed s -> core_bounded s -> core_bounded (fst (step s c)).
Proof.
  intros W B. destruct c as [cx cy m | m | | x y | m | v];
    cbn [CoreLogic.step].
  - exact B.
  - unfold start.
    destruct (is_steering s); [exact B|].
    destruct (negb (vjoy_device s)); [exact B|].
    destruct (is_None (screen_center_x s) || is_None (screen_center_y s));
      exact B.
  - unfold stop. destruct (negb (is_steering s)); exact B.
  - now apply core_on_move_bounded.
  - unfold recenter_view, core_bounded.
    cbn [fst assign max_degrees total_accumulated_degrees].
    rewrite (wf_max_degrees W). exact_arith. lra.
  - exact B.
Qed.

Lemma core_reachable_bounded (s : SteeringLogic Q) :
  reachable s -> core_bounded s.
Proof.
  induction 1 as [gui_cb vjoy_ok | s c R IH].
  - unfold core_bounded.
    cbn [fst init max_degrees total_accumulated_degrees].
    change MAX_STEERING_DEGREES with 1080%Z. exact_arith. lra.
  - apply core_step_bounded; [|exact IH].
    now apply (core_reachable_well_formed (T:=Q)) in R.
Qed.

Lemma core_wrap_delta_cases (d : Q) :
  (180 < d /\ wrap_delta d = d - 360) \/
  (d < -180 /\ wrap_delta d = d + 360) \/
  (-180 <= d /\ d <= 180 /\ wrap_delta d = d).
Proof.
  unfold wrap_delta. exact_arith.
  destruct (Qltb_cases 180 d) as [[E L]|[E L]]; rewrite E; [now left|].
  destruct (Qltb_cases d (-180)) as [[E' L']|[E' L']]; rewrite E'.
  - right. left. now split.
  - right. right. repeat split; assumption.
Qed.


Lemma core_accumulate_cases (s : SteeringLogic Q) (offset delta : Q) :
  (offset < mouse_center_threshold s /\
   accumulate s offset delta = (DirNone, total_accumulated_degrees s)) \/
  (mouse_center_threshold s <= offset /\
   direction_change_threshold s < delta /\
   accumulate s offset delta
   = (Clockwise, total_accumulated_degrees s + Qabs delta)) \/
  (mouse_center_threshold s <= offset /\
   delta <= direction_change_threshold s /\
   delta < - direction_change_threshold s /\
   accumulate s offset delta
   = (Counterclockwise, total_accumulated_degrees s - Qabs delta)) \/
  (mouse_center_threshold s <= offset /\
   - direction_change_threshold s <= delta /\
   delta <= direction_change_threshold s /\
   accumulate s offset delta = (DirNone, total_accumulated_degrees s)).
Proof.
  unfold accumulate. exact_arith.
  destruct (Qltb_cases offset (mouse_center_threshold s)) as [[E L]|[E L]];
    rewrite E; [now left|].
  destruct (Qltb_cases (direction_change_threshold s) delta)
    as [[E1 L1]|[E1 L1]]; rewrite E1; [right; left; now repeat split|].
  destruct (Qltb_cases delta (- direction_change_threshold s))
    as [[E2 L2]|[E2 L2]]; rewrite E2.
  - right. right. left. now repeat split.
  - right. right. right. now repeat split.
Qed.

(* A processed event: some corrected delta decides direction and total. *)
Lemma core_on_move_active (s : SteeringLogic Q) (x y : Z) :
  well_formed s -> is_steering s = true ->
  let s' := fst (fst (_on_move_handler s x y)) in
  exists delta,
    angular_velocity s' = delta / 1 /\
    rotation_direction s' = fst (accumulate s (current_offset s') delta) /\
    total_accumulated_degrees s'
      = clamp_degrees s (snd (accumulate s (current_offset s') delta)).
Proof.
  intros W St.
  pose proof (wf_pivot_x W St) as Px.
  pose proof (wf_pivot_xy W) as Pxy. rewrite Px in Pxy.
  destruct (screen_center_x s) as [cx|] eqn:Ex; [|discriminate].
  destruct (screen_center_y s) as [cy|] eqn:Ey; [|discriminate].
  destruct (core_on_move_processed atan2_degrees math_sqrt s x y St Ex Ey)
    as (Ho & _ & _ & _ & Hv & Hd & Ht & _).
  cbv zeta. rewrite Ho. eexists. repeat split; eassumption.
Qed.

Lemma core_clockwise_gains (s : SteeringLogic Q) (x y : Z) (b : Q) :
  well_formed s -> is_steering s = true ->
  rotation_direction (fst (fst (_on_move_handler s x y))) = Clockwise ->
  b <= max_degrees s -> b <= total_accumulated_degrees s + 1 ->
  b <= total_accumulated_degrees (fst (fst (_on_move_handler s x y))).
Proof.
  intros W St Dir Bm Bt.
  destruct (core_on_move_active x y W St) as (delta & _ & Hd & Ht).
  rewrite Ht. rewrite Hd in Dir. clear Hd Ht.
  set (offset := current_offset _) in *.
  destruct (core_accumulate_cases s offset delta)
    as [[_ E]|[(_ & L & E)|[(_ & _ & _ & E)|(_ & _ & _ & E)]]];
    rewrite E in Dir |- *; try discriminate.
  cbn [snd]. unfold clamp_degrees. apply clamp_above; [exact Bm|].
  rewrite (wf_threshold W) in L. exact_arith.
  pose proof (Qle_Qabs delta). lra.
Qed.

Lemma core_clockwise_run_gains (evs : list (Z * Z)) (s : SteeringLogic Q)
    (b : Q) :
  well_formed s -> is_steering s = true -> core_clockwise_run s evs ->
  b <= max_degrees s ->
  b <= total_accumulated_degrees s + inject_Z (Z.of_nat (length evs)) ->
  b <= total_accumulated_degrees (core_after_moves s evs).
Proof.
  revert s b. induction evs as [|[x y] evs IH]; intros s b W St C Bm Bt.
  - cbn [length Z.of_nat] in Bt. exact_arith. unfold CoreFacts.core_after_moves.
    cbn. lra.
  - destruct C as [Dir C]. rewrite core_after_moves_cons.
    destruct (core_on_move_config atan2_degrees math_sqrt s x y)
      as (Hm & _ & _ & _ & _ & _ & _ & Hs).
    apply IH.
    + now apply core_well_formed_step with (c := OnMove x y).
    + now rewrite Hs.
    + exact C.
    + now rewrite Hm.
    + cbn [length] in Bt. rewrite Nat2Z.inj_succ in Bt. unfold Z.succ in Bt.
      rewrite inject_Z_plus in Bt. exact_arith.
      set (n := inject_Z (Z.of_nat (length evs))) in *.
      assert (N : 0 <= n).
      { subst n. change 0 with (inject_Z 0). rewrite <- Zle_Qle. lia. }
      assert (G : b - n
                  <= total_accumulated_degrees
                       (fst (fst (_on_move_handler s x y)))).
      { apply core_clockwise_gains; try assumption; lra. }
      lra.
Qed.

Lemma core_center_suppression (s : SteeringLogic Q) (x y : Z) :
  well_formed s -> core_bounded s -> is_steering s = true ->
  current_offset (fst (fst (_on_move_handler s x y)))
  < mouse_center_threshold s ->
  rotation_direction (fst (fst (_on_move_handler s x y))) = DirNone /\
  total_accumulated_degrees (fst (fst (_on_move_handler s x y)))
  == total_accumulated_degrees s.
Proof.
  intros W [Lo Hi] St Off.
  destruct (core_on_move_active x y W St) as (delta & _ & Hd & Ht).
  rewrite Hd, Ht. clear Hd Ht.
  set (offset := current_offset _) in *.
  destruct (core_accumulate_cases s offset delta)
    as [[_ E]|[(L & _)|[(L & _)|(L & _)]]]; try lra.
  rewrite E. cbn [fst snd]. split; [reflexivity|].
  unfold clamp_degrees. now apply clamp_inside.
Qed.

(** *** The axis mapping *)

Definition core_axis_real (s : SteeringLogic Q) : Q :=
  (total_accumulated_degrees s + max_degrees s) / (2 * max_degrees s)
  * inject_Z (MAX_VJOY_AXIS - MIN_VJOY_AXIS) + inject_Z MIN_VJOY_AXIS.

Lemma core_axis_real_range (s : SteeringLogic Q) :
  0 < max_degrees s -> core_bounded s ->
  0 <= core_axis_real s /\ core_axis_real s <= 32767.
Proof.
  intros M [Lo Hi]. unfold core_axis_real.
  change (inject_Z (MAX_VJOY_AXIS - MIN_VJOY_AXIS)) with 32767.
  change (inject_Z MIN_VJOY_AXIS) with 0.
  set (n := (total_accumulated_degrees s + max_degrees s)
            / (2 * max_degrees s)).
  assert (N0 : 0 <= n).
  { apply Qle_shift_div_l; lra. }
  assert (N1 : n <= 1).
  { apply Qle_shift_div_r; lra. }
  lra.
Qed.

Lemma core_axis_of_truncates (s : SteeringLogic Q) :
  0 < max_degrees s -> core_bounded s ->
  inject_Z (axis_of s) <= core_axis_real s /\
  core_axis_real s < inject_Z (axis_of s + 1) /\
  (MIN_VJOY_AXIS <= axis_of s <= MAX_VJOY_AXIS)%Z.
Proof.
  intros M B. destruct (@core_axis_real_range s M B) as [R0 R1].
  unfold axis_of. exact_arith.
  assert (Z : Qeq_bool (2 * max_degrees s) 0 = false).
  { destruct (Qeq_bool (2 * max_degrees s) 0) eqn:E; [|reflexivity].
    apply Qeq_bool_iff in E. lra. }
  rewrite Z. fold (core_axis_real s).
  set (v := core_axis_real s) in *.
  assert (P : 0 <= v) by lra.
  destruct (Qint_floor P) as [A B'].
  assert (I0 : (0 <= Qint v)%Z).
  { assert (X : inject_Z 0 < inject_Z (Qint v + 1)).
    { change (inject_Z 0) with 0. lra. }
    rewrite <- Zlt_Qlt in X. lia. }
  assert (I1 : (Qint v <= 32767)%Z).
  { assert (X : inject_Z (Qint v) <= inject_Z 32767).
    { change (inject_Z 32767) with 32767. lra. }
    rewrite <- Zle_Qle in X. exact X. }
  change MIN_VJOY_AXIS with 0%Z. change MAX_VJOY_AXIS with 32767%Z.
  rewrite Z.min_r by lia. rewrite Z.max_r by lia.
  repeat split; try lia; lra.
Qed.

Lemma core_axis_of_clamps (s : SteeringLogic Q) :
  0 < max_degrees s ->
  (core_axis_real s < 0 -> axis_of s = MIN_VJOY_AXIS) /\
  (inject_Z MAX_VJOY_AXIS <= core_axis_real s -> axis_of s = MAX_VJOY_AXIS).
Proof.
  intros M. unfold axis_of. exact_arith.
  assert (Z : Qeq_bool (2 * max_degrees s) 0 = false).
  { destruct (Qeq_bool (2 * max_degrees s) 0) eqn:E; [|reflexivity].
    apply Qeq_bool_iff in E. lra. }
  rewrite Z. fold (core_axis_real s).
  set (v := core_axis_real s) in *.
  change MIN_VJOY_AXIS with 0%Z. change MAX_VJOY_AXIS with 32767%Z.
  change (inject_Z 32767) with 32767.
  split; intros L.
  - assert (I : (Qint v <= 0)%Z) by (apply Qint_nonpos; lra). lia.
  - assert (P : 0 <= v) by lra.
    destruct (Qint_floor P) as [_ B].
    assert (X : inject_Z 32767 < inject_Z (Qint v + 1)).
    { change (inject_Z 32767) with 32767. lra. }
    rewrite <- Zlt_Qlt in X. lia.
Qed.

Lemma core_axis_of_is (s : SteeringLogic Q) (n : Z) :
  0 < max_degrees s -> core_bounded s ->
  inject_Z n <= core_axis_real s -> core_axis_real s < inject_Z (n + 1) ->
  axis_of s = n.
Proof.
  intros M B A A'.
  destruct (@core_axis_of_truncates s M B) as (X & X' & _).
  assert (Y : inject_Z (axis_of s) < inject_Z (n + 1)) by lra.
  assert (Y' : inject_Z n < inject_Z (axis_of s + 1)) by lra.
  rewrite <- Zlt_Qlt in Y, Y'. lia.
Qed.

Lemma core_axis_of_boundaries (s : SteeringLogic Q) :
  0 < max_degrees s ->
  (total_accumulated_degrees s == - max_degrees s ->
   axis_of s = MIN_VJOY_AXIS) /\
  (total_accumulated_degrees s == max_degrees s ->
   axis_of s = MAX_VJOY_AXIS) /\
  (total_accumulated_degrees s == 0 -> axis_of s = CENTER_VJOY_AXIS).
Proof.
  intros M.
  repeat split; intros E; apply core_axis_of_is; try exact M;
    try (unfold core_bounded; lra); unfold core_axis_real;
    change (inject_Z (MAX_VJOY_AXIS - MIN_VJOY_AXIS)) with 32767;
    change (inject_Z MIN_VJOY_AXIS) with 0;
    change (inject_Z (MIN_VJOY_AXIS + 1)) with 1;
    change (inject_Z MAX_VJOY_AXIS) with 32767;
    change (inject_Z (MAX_VJOY_AXIS + 1)) with 32768;
    change (inject_Z CENTER_VJOY_AXIS) with 16383;
    change (inject_Z (CENTER_VJOY_AXIS + 1)) with 16384;
    rewrite E.
  - setoid_replace ((- max_degrees s + max_degrees s) / (2 * max_degrees s))
      with 0 by (field; lra). lra.
  - setoid_replace ((- max_degrees s + max_degrees s) / (2 * max_degrees s))
      with 0 by (field; lra). lra.
  - setoid_replace ((max_degrees s + max_degrees s) / (2 * max_degrees s))
      with 1 by (field; lra). lra.
  - setoid_replace ((max_degrees s + max_degrees s) / (2 * max_degrees s))
      with 1 by (field; lra). lra.
  - setoid_replace ((0 + max_degrees s) / (2 * max_degrees s))
      with (1 # 2) by (field; lra). lra.
  - setoid_replace ((0 + max_degrees s) / (2 * max_degrees s))
      with (1 # 2) by (field; lra). lra.
Qed.

(* With the default lock of 1080 degrees the axis shows the center exactly
   when the accumulated degrees lie in [-1080/32767, 1080/32767). *)
Lemma core_axis_of_center_iff (s : SteeringLogic Q) :
  well_formed s -> core_bounded s ->
  axis_of s = CENTER_VJOY_AXIS <->
  - (1080 # 32767) <= total_accumulated_degrees s /\
  total_accumulated_degrees s < 1080 # 32767.
Proof.
  intros W B. pose proof (wf_max_degrees W) as Md. exact_arith.
  assert (M : 0 < max_degrees s) by (rewrite Md; lra).
  assert (V : core_axis_real s
              == (total_accumulated_degrees s + 1080) * (32767 # 2160)).
  { unfold core_axis_real. rewrite Md.
    change (inject_Z (MAX_VJOY_AXIS - MIN_VJOY_AXIS)) with 32767.
    change (inject_Z MIN_VJOY_AXIS) with 0. field. }
  split.
  - intros E. destruct (@core_axis_of_truncates s M B) as (X & X' & _).
    rewrite E in X, X'.
    change (inject_Z CENTER_VJOY_AXIS) with 16383 in X.
    change (inject_Z (CENTER_VJOY_AXIS + 1)) with 16384 in X'.
    rewrite V in X, X'. split; lra.
  - intros [Lo Hi]. apply core_axis_of_is; try assumption; rewrite V.
    + change (inject_Z CENTER_VJOY_AXIS) with 16383. lra.
    + change (inject_Z (CENTER_VJOY_AXIS + 1)) with 16384. lra.
Qed.

(** *** Angles stay in the range of [atan2] *)

Definition core_angles_in_range (s : SteeringLogic Q) : Prop :=
  MainFacts.in_range (previous_smoothed_angle s) /\
  Forall MainFacts.in_range (items (angle_history s)).

Section AngleRange.
Hypothesis atan2_range :
  forall dy dx, MainFacts.in_range (atan2_degrees dy dx).

Lemma core_seed_in_range (s : SteeringLogic Q) (m : option (Z * Z)) :
  MainFacts.in_range (core_seed_angle atan2_degrees s m).
Proof.
  unfold core_seed_angle, _calculate_raw_angle.
  destruct m as [[mx my]|]; [|apply MainFacts.in_range_0].
  destruct (screen_center_x s), (screen_center_y s);
    try apply atan2_range; apply MainFacts.in_range_0.
Qed.

Lemma core_step_angles_in_range (s : SteeringLogic Q) (c : call) :
  well_formed s -> core_angles_in_range s ->
  core_angles_in_range (fst (step s c)).
Proof.
  intros W A. pose proof A as (A1 & A3).
  destruct c as [cx cy m | m | | x y | m | v]; cbn [CoreLogic.step].
  - unfold set_screen_center.
    split; cbn [fst assign previous_smoothed_angle angle_history].
    + apply (core_seed_in_range _ m).
    + apply MainFacts.Forall_deque_refill. apply (core_seed_in_range _ m).
  - unfold start.
    destruct (is_steering s); [exact A|].
    destruct (negb (vjoy_device s)); [exact A|].
    destruct (is_None (screen_center_x s) || is_None (screen_center_y s));
      [exact A|].
    split; cbn [fst assign previous_smoothed_angle angle_history].
    + apply (core_seed_in_range s m).
    + apply MainFacts.Forall_deque_refill. apply (core_seed_in_range s m).
  - unfold stop. destruct (negb (is_steering s)); exact A.
  - destruct (is_steering s) eqn:St.
    + pose proof (wf_pivot_x W St) as Px.
      pose proof (wf_pivot_xy W) as Pxy. rewrite Px in Pxy.
      destruct (screen_center_x s) as [cx|] eqn:Ex; [|discriminate].
      destruct (screen_center_y s) as [cy|] eqn:Ey; [|discriminate].
      destruct (core_on_move_processed atan2_degrees math_sqrt s x y St Ex Ey)
        as (_ & _ & Hh & Hp & _).
      assert (F : Forall MainFacts.in_range
                    (items (deque_append (angle_history s)
                              (atan2_degrees (y - cy) (x - cx))))).
      { apply MainFacts.Forall_deque_append; [exact A3 | apply atan2_range]. }
      unfold core_angles_in_range. rewrite Hh, Hp.
      split; [|exact F].
      apply mean_bounds; [|exact F].
      apply deque_append_nonempty. rewrite (wf_maxlen W). discriminate.
    + now rewrite (core_on_move_idle atan2_degrees math_sqrt s x y St).
  - unfold recenter_view.
    split; cbn [fst assign previous_smoothed_angle angle_history].
    + apply (core_seed_in_range s m).
    + apply MainFacts.Forall_deque_refill. apply (core_seed_in_range s m).
  - exact A.
Qed.

Lemma core_reachable_angles_in_range (s : SteeringLogic Q) :
  reachable s -> core_angles_in_range s.
Proof.
  induction 1 as [gui_cb vjoy_ok | s c R IH].
  - split; cbn [fst init previous_smoothed_angle angle_history items].
    + apply MainFacts.in_range_0.
    + constructor.
  - apply core_step_angles_in_range; [|exact IH].
    now apply (core_reachable_well_formed (T:=Q)) in R.
Qed.


End AngleRange.

End Exact.
End CoreFacts.

(** ** IEEE-754 doubles: what does not depend on exact arithmetic

    The clamp and the center check only compare numbers, so the invariant of
    the accumulator and the center suppression hold verbatim on doubles,
    NaN included. *)

Module Binary64Facts.

Lemma SFcompare_swap (x y : spec_float) :
  SFcompare y x = option_map CompOpp (SFcompare x y).
Proof.
  destruct x as [sx|sx| |sx mx ex], y as [sy|sy| |sy my ey];
    try destruct sx; try destruct sy; try reflexivity;
    cbn [SFcompare option_map];
    rewrite (Z.compare_antisym ex ey);
    destruct (ex ?= ey)%Z; cbn [CompOpp]; try reflexivity;
    rewrite (Pos.compare_cont_antisym mx my Eq); reflexivity.
Qed.

Lemma float_ltb_leb (x y : float) :
  PrimFloat.ltb x y = true -> PrimFloat.leb x y = true.
Proof.
  rewrite FloatAxioms.ltb_spec, FloatAxioms.leb_spec. unfold SFltb, SFleb.
  destruct (SFcompare _ _) as [[]|]; auto.
Qed.

Lemma float_leb_not_ltb (x y : float) :
  PrimFloat.leb x y = true -> PrimFloat.ltb x y = false ->
  PrimFloat.eqb x y = true.
Proof.
  rewrite FloatAxioms.ltb_spec, FloatAxioms.leb_spec, FloatAxioms.eqb_spec.
  unfold SFltb, SFleb, SFeqb.
  destruct (SFcompare _ _) as [[]|]; auto.
Qed.

Lemma float_eqb_sym (x y : float) : PrimFloat.eqb x y = PrimFloat.eqb y x.
Proof.
  rewrite !FloatAxioms.eqb_spec. unfold SFeqb.
  rewrite (SFcompare_swap (Prim2SF x) (Prim2SF y)).
  destruct (SFcompare _ _) as [[]|]; reflexivity.
Qed.

(* A float that compares with something is equal to itself. *)
Lemma float_eqb_refl (x y : float) :
  PrimFloat.leb x y = true -> PrimFloat.eqb x x = true.
Proof.
  rewrite FloatAxioms.leb_spec, FloatAxioms.eqb_spec. unfold SFleb, SFeqb.
  pose proof (SFcompare_swap (Prim2SF x) (Prim2SF x)) as S.
  destruct (Prim2SF x) as [sx|sx| |sx mx ex] eqn:X; cbn [SFcompare];
    try destruct sx; try reflexivity; try discriminate.
  - cbn [SFcompare option_map] in S. injection S as S.
    destruct (match (ex ?= ex)%Z with
              | Eq => CompOpp (Pos.compare_cont Eq mx mx)
              | Lt => Gt
              | Gt => Lt
              end); try reflexivity; discriminate.
  - cbn [SFcompare option_map] in S. injection S as S. intros _.
    destruct (match (ex ?= ex)%Z with
              | Eq => Pos.compare_cont Eq mx mx
              | Lt => Lt
              | Gt => Gt
              end); try reflexivity; discriminate.
Qed.

(* [max(-1080, min(1080, t))] on doubles, for every [t]. *)
Lemma clamp_binary64 (t : float) :
  let r := py_max (num_opp (num_of_Z 1080)) (py_min (num_of_Z 1080) t) in
  PrimFloat.leb (-1080) r = true /\ PrimFloat.leb r 1080 = true.
Proof.
  intros r. subst r. unfold py_max, py_min.
  cbn [num_ltb num_opp num_of_Z Binary64].
  change (float_of_Z 1080) with 1080%float.
  change (PrimFloat.opp 1080) with (-1080)%float.
  destruct (PrimFloat.ltb t 1080) eqn:E1.
  - destruct (PrimFloat.ltb (-1080) t) eqn:E2.
    + split; apply float_ltb_leb; assumption.
    + split; reflexivity.
  - change (PrimFloat.ltb (-1080) 1080) with true. cbv iota.
    split; reflexivity.
Qed.

(* Within the bounds the clamp returns a double equal to its argument. *)
Lemma clamp_binary64_inside (t : float) :
  PrimFloat.leb (-1080) t = true -> PrimFloat.leb t 1080 = true ->
  PrimFloat.eqb
    (py_max (num_opp (num_of_Z 1080)) (py_min (num_of_Z 1080) t)) t = true.
Proof.
  intros Lo Hi. unfold py_max, py_min.
  cbn [num_ltb num_opp num_of_Z Binary64].
  change (float_of_Z 1080) with 1080%float.
  change (PrimFloat.opp 1080) with (-1080)%float.
  destruct (PrimFloat.ltb t 1080) eqn:E1.
  - destruct (PrimFloat.ltb (-1080) t) eqn:E2.
    + exact (float_eqb_refl Hi).
    + now apply float_leb_not_ltb.
  - change (PrimFloat.ltb (-1080) 1080) with true. cbv iota.
    rewrite float_eqb_sym. now apply float_leb_not_ltb.
Qed.

Definition bounded64 (max_degrees total : float) : Prop :=
  PrimFloat.leb (PrimFloat.opp max_degrees) total = true /\
  PrimFloat.leb total max_degrees = true.

Section Invariants.
Variable atan2_degrees : Z -> Z -> float.
Variable math_sqrt : Z -> float.

Lemma main_reachable_bounded64 (s : SteeringLogicMain.SteeringLogic float) :
  SteeringLogicMain.reachable atan2_degrees math_sqrt s ->
  bounded64 (SteeringLogicMain.max_degrees s)
    (SteeringLogicMain.total_accumulated_degrees s).
Proof.
  induction 1 as [app_cb vjoy_ok | s c R IH].
  - split; reflexivity.
  - pose proof (MainFacts.reachable_well_formed R) as W.
    pose proof (MainFacts.wf_max_degrees W) as Md.
    destruct c as [cx cy m | m | | x y | m | v];
      cbn [SteeringLogicMain.step].
    + unfold SteeringLogicMain.set_screen_center.
      destruct m as [[mx my]|]; exact IH.
    + unfold SteeringLogicMain.start_steering.
      destruct (SteeringLogicMain.is_steering s); [exact IH|].
      destruct (negb (SteeringLogicMain.vjoy_device s)); [exact IH|].
      destruct (is_None (SteeringLogicMain.screen_center_x s)
                || is_None (SteeringLogicMain.screen_center_y s));
        [exact IH|].
      destruct m as [[mx my]|]; exact IH.
    + unfold SteeringLogicMain.stop_steering.
      destruct (negb (SteeringLogicMain.is_steering s)); exact IH.
    + destruct (SteeringLogicMain.is_steering s) eqn:St.
      * pose proof (MainFacts.wf_pivot_x W St) as Px.
        pose proof (MainFacts.wf_pivot_xy W) as Pxy. rewrite Px in Pxy.
        destruct (SteeringLogicMain.screen_center_x s) as [cx|] eqn:Ex;
          [|discriminate].
        destruct (SteeringLogicMain.screen_center_y s) as [cy|] eqn:Ey;
          [|discriminate].
        destruct (MainFacts.on_move_processed atan2_degrees math_sqrt
                    s x y St Ex Ey) as (_ & _ & _ & _ & _ & _ & Ht & _).
        destruct (MainFacts.on_move_config atan2_degrees math_sqrt s x y)
          as (_ & Hm & _).
        rewrite Ht, Hm. unfold SteeringLogicMain.clamp_degrees.
        rewrite Md. apply clamp_binary64.
      * now rewrite (MainFacts.on_move_idle atan2_degrees math_sqrt s x y St).
    + unfold SteeringLogicMain.reset_steering_view.
      cbn [fst SteeringLogicMain.max_degrees
           SteeringLogicMain.total_accumulated_degrees].
      rewrite Md. split; reflexivity.
    + exact IH.
Qed.

Lemma core_reachable_bounded64 (s : CoreLogic.SteeringLogic float) :
  CoreLogic.reachable atan2_degrees math_sqrt s ->
  bounded64 (CoreLogic.max_degrees s) (CoreLogic.total_accumulated_degrees s).
Proof.
  induction 1 as [gui_cb vjoy_ok | s c R IH].
  - split; reflexivity.
  - pose proof (CoreFacts.core_reachable_well_formed R) as W.
    pose proof (CoreFacts.wf_max_degrees W) as Md.
    destruct c as [cx cy m | m | | x y | m | v]; cbn [CoreLogic.step].
    + exact IH.
    + unfold CoreLogic.start.
      destruct (CoreLogic.is_steering s); [exact IH|].
      destruct (negb (CoreLogic.vjoy_device s)); [exact IH|].
      destruct (is_None (CoreLogic.screen_center_x s)
                || is_None (CoreLogic.screen_center_y s)); exact IH.
    + unfold CoreLogic.stop.
      destruct (negb (CoreLogic.is_steering s)); exact IH.
    + destruct (CoreLogic.is_steering s) eqn:St.
      * pose proof (CoreFacts.wf_pivot_x W St) as Px.
        pose proof (CoreFacts.wf_pivot_xy W) as Pxy. rewrite Px in Pxy.
        destruct (CoreLogic.screen_center_x s) as [cx|] eqn:Ex;
          [|discriminate].
        destruct (CoreLogic.screen_center_y s) as [cy|] eqn:Ey;
          [|discriminate].
        destruct (CoreFacts.core_on_move_processed atan2_degrees math_sqrt
                    s x y St Ex Ey) as (_ & _ & _ & _ & _ & _ & Ht & _).
        destruct (CoreFacts.core_on_move_config atan2_degrees math_sqrt s x y)
          as (Hm & _).
        rewrite Ht, Hm. unfold CoreLogic.clamp_degrees.
        rewrite Md. apply clamp_binary64.
      * now rewrite (CoreFacts.core_on_move_idle atan2_degrees math_sqrt
                       s x y St).
    + unfold CoreLogic.recenter_view.
      cbn [fst CoreLogic.assign CoreLogic.max_degrees
           CoreLogic.total_accumulated_degrees].
      rewrite Md. split; reflexivity.
    + exact IH.
Qed.

(* Center suppression on doubles. *)
Lemma main_center_suppression64 (s : SteeringLogicMain.SteeringLogic float)
    (x y : Z) :
  SteeringLogicMain.reachable atan2_degrees math_sqrt s ->
  SteeringLogicMain.is_steering s = true ->
  let s' := fst (SteeringLogicMain.on_move atan2_degrees math_sqrt s x y) in
  PrimFloat.ltb (SteeringLogicMain.current_offset s')
    (SteeringLogicMain.mouse_center_threshold s) = true ->
  SteeringLogicMain.rotation_direction s' = DirNone /\
  PrimFloat.eqb (SteeringLogicMain.total_accumulated_degrees s')
    (SteeringLogicMain.total_accumulated_degrees s) = true.
Proof.
  intros R St s' Off.
  pose proof (MainFacts.reachable_well_formed R) as W.
  pose proof (MainFacts.wf_max_degrees W) as Md.
  destruct (main_reachable_bounded64 R) as [Lo Hi]. rewrite Md in Lo, Hi.
  pose proof (MainFacts.wf_pivot_x W St) as Px.
  pose proof (MainFacts.wf_pivot_xy W) as Pxy. rewrite Px in Pxy.
  destruct (SteeringLogicMain.screen_center_x s) as [cx|] eqn:Ex;
    [|discriminate].
  destruct (SteeringLogicMain.screen_center_y s) as [cy|] eqn:Ey;
    [|discriminate].
  destruct (MainFacts.on_move_processed atan2_degrees math_sqrt s x y St Ex Ey)
    as (Ho & _ & _ & _ & _ & Hd & Ht & _).
  fold s' in Ho, Hd, Ht. rewrite Hd, Ht. rewrite Ho in Off.
  unfold SteeringLogicMain.accumulate. cbn [num_ltb Binary64].
  rewrite Off. cbn [fst snd]. split; [reflexivity|].
  unfold SteeringLogicMain.clamp_degrees. rewrite Md.
  now apply clamp_binary64_inside.
Qed.

Lemma core_center_suppression64 (s : CoreLogic.SteeringLogic float)
    (x y : Z) :
  CoreLogic.reachable atan2_degrees math_sqrt s ->
  CoreLogic.is_steering s = true ->
  let s' := fst (fst (CoreLogic._on_move_handler atan2_degrees math_sqrt
                        s x y)) in
  PrimFloat.ltb (CoreLogic.current_offset s')
    (CoreLogic.mouse_center_threshold s) = true ->
  CoreLogic.rotation_direction s' = DirNone /\
  PrimFloat.eqb (CoreLogic.total_accumulated_degrees s')
    (CoreLogic.total_accumulated_degrees s) = true.
Proof.
  intros R St s' Off.
  pose proof (CoreFacts.core_reachable_well_formed R) as W.
  pose proof (CoreFacts.wf_max_degrees W) as Md.
  destruct (core_reachable_bounded64 R) as [Lo Hi]. rewrite Md in Lo, Hi.
  pose proof (CoreFacts.wf_pivot_x W St) as Px.
  pose proof (CoreFacts.wf_pivot_xy W) as Pxy. rewrite Px in Pxy.
  destruct (CoreLogic.screen_center_x s) as [cx|] eqn:Ex; [|discriminate].
  destruct (CoreLogic.screen_center_y s) as [cy|] eqn:Ey; [|discriminate].
  destruct (CoreFacts.core_on_move_processed atan2_degrees math_sqrt
              s x y St Ex Ey) as (Ho & _ & _ & _ & _ & Hd & Ht & _).
  fold s' in Ho, Hd, Ht. rewrite Hd, Ht. rewrite Ho in Off.
  unfold CoreLogic.accumulate. cbn [num_ltb Binary64].
  rewrite Off. cbn [fst snd]. split; [reflexivity|].
  unfold CoreLogic.clamp_degrees. rewrite Md.
  now apply clamp_binary64_inside.
Qed.

End Invariants.

(* The fixed points of the wrap-around correction and of the axis mapping,
   computed on doubles. *)
Lemma binary64_examples :
  let s := fst (SteeringLogicMain.init (T:=float) true true) in
  SteeringLogicMain.wrap_delta (-179 - 179)%float = 2%float /\
  SteeringLogicMain.axis_of s (-1080)%float = 0%Z /\
  SteeringLogicMain.axis_of s 1080%float = 32767%Z /\
  SteeringLogicMain.axis_of s 0%float = 16383%Z /\
  SteeringLogicMain.axis_of s 18%float = 16656%Z.
Proof.
  cbv zeta. repeat apply conj; vm_compute; reflexivity.
Qed.

End Binary64Facts.

(** * Sample environments and runs *)

(** An exact [atan2] in degrees on the eight compass directions (and at the
    origin, where [math.atan2(0, 0)] is 0); the sample runs visit no other
    point.  The y axis of the screen points down. *)
Definition octant_atan2 (dy dx : Z) : Q :=
  match (dx ?= 0)%Z, (dy ?= 0)%Z with
  | Gt, Eq => 0
  | Gt, Gt => if (dy =? dx)%Z then 45 else 0
  | Eq, Gt => 90
  | Lt, Gt => if (dy =? - dx)%Z then 135 else 0
  | Lt, Eq => 180
  | Lt, Lt => if (dy =? dx)%Z then -135 else 0
  | Eq, Lt => -90
  | Gt, Lt => if (dy =? - dx)%Z then -45 else 0
  | Eq, Eq => 0
  end%Q.

(** The integer part of the square root: [math.sqrt] on perfect squares;
    elsewhere it rounds down, which changes no comparison with the integer
    center threshold. *)
Definition floor_sqrt (n : Z) : Q := inject_Z (Z.sqrt n).

(* The pointer at [r] pixels from the pivot (500, 500), in the direction of
   the angle [45 * k] degrees. *)
Definition compass (k r : Z) : Z * Z :=
  match k with
  | 0 => (500 + r, 500)
  | 1 => (500 + r, 500 + r)
  | 2 => (500, 500 + r)
  | 3 => (500 - r, 500 + r)
  | 4 => (500 - r, 500)
  | -3 => (500 - r, 500 - r)
  | -2 => (500, 500 - r)
  | -1 => (500 + r, 500 - r)
  | _ => (500, 500)
  end%Z.

(* A clockwise sweep from -90 to 180 degrees, 20 pixels from the pivot; the
   pointer then rests at 180 degrees until the smoother has caught up. *)
Definition sweep : list (Z * Z) :=
  map (fun k => compass k 20) [-2; -1; 0; 1; 2; 3; 4; 4; 4; 4; 4]%Z.

(* Five events one pixel from the pivot, at -135 degrees: the center check
   holds the accumulator while the smoother is wound back. *)
Definition rewind : list (Z * Z) := repeat (compass (-3) 1) 5.

(* Three sweeps and three partial ones, each followed by a rewind. *)
Definition approach : list (Z * Z) :=
  sweep ++ rewind ++ sweep ++ rewind ++ sweep ++ rewind
  ++ firstn 4 sweep ++ rewind ++ firstn 2 sweep ++ rewind
  ++ firstn 1 sweep ++ rewind.

Definition main_session : list (SteeringLogicMain.call (T:=Q)) :=
  [SteeringLogicMain.SetScreenCenter 500 500 (Some (compass (-3) 20));
   SteeringLogicMain.StartSteering (Some (compass (-3) 20))].

Definition main_armed : SteeringLogicMain.SteeringLogic Q :=
  fst (SteeringLogicMain.run octant_atan2 floor_sqrt
         (fst (SteeringLogicMain.init true true)) main_session).

Definition main_near_lock : SteeringLogicMain.SteeringLogic Q :=
  MainFacts.after_moves octant_atan2 floor_sqrt main_armed approach.

Definition core_session : list (CoreLogic.call (T:=Q)) :=
  [CoreLogic.SetScreenCenter 500 500 (Some (compass (-3) 20));
   CoreLogic.Start (Some (compass (-3) 20))].

Definition core_armed : CoreLogic.SteeringLogic Q :=
  fst (CoreLogic.run octant_atan2 floor_sqrt
         (fst (CoreLogic.init true true)) core_session).

Definition core_near_lock : CoreLogic.SteeringLogic Q :=
  CoreFacts.core_after_moves octant_atan2 floor_sqrt core_armed approach.

(** The angle glibc's [atan2] and CPython's [math.degrees] give for the one
    point the binary64 run visits, [math.degrees(math.atan2(-39, -30))]
    = -127.56859202882748. *)
Definition libm_atan2_sample (dy dx : Z) : float :=
  if ((dy =? -39) && (dx =? -30))%Z%bool
  then (-0x1.fe463cfd22524p+6)%float else 0%float.

(** [math.sqrt] of an int: the correctly rounded square root of its double. *)
Definition binary64_sqrt (n : Z) : float := PrimFloat.sqrt (float_of_Z n).

(** * The claims *)

Lemma main_reachable_run (T : Type) (N : Number T)
    (atan2_degrees : Z -> Z -> T) (math_sqrt : Z -> T)
    (cs : list SteeringLogicMain.call) (s : SteeringLogicMain.SteeringLogic T) :
  SteeringLogicMain.reachable atan2_degrees math_sqrt s ->
  SteeringLogicMain.reachable atan2_degrees math_sqrt
    (fst (SteeringLogicMain.run atan2_degrees math_sqrt s cs)).
Proof.
  revert s. induction cs as [|c cs IH]; intros s R; [exact R|].
  cbn [SteeringLogicMain.run].
  pose proof (SteeringLogicMain.reach_step c R) as R1.
  destruct (SteeringLogicMain.step atan2_degrees math_sqrt s c) as [s1 e1].
  specialize (IH s1 R1).
  destruct (SteeringLogicMain.run atan2_degrees math_sqrt s1 cs) as [s2 e2].
  exact IH.
Qed.

Lemma core_reachable_run (T : Type) (N : Number T)
    (atan2_degrees : Z -> Z -> T) (math_sqrt : Z -> T)
    (cs : list CoreLogic.call) (s : CoreLogic.SteeringLogic T) :
  CoreLogic.reachable atan2_degrees math_sqrt s ->
  CoreLogic.reachable atan2_degrees math_sqrt
    (fst (CoreLogic.run atan2_degrees math_sqrt s cs)).
Proof.
  revert s. induction cs as [|c cs IH]; intros s R; [exact R|].
  cbn [CoreLogic.run].
  pose proof (CoreLogic.reach_step c R) as R1.
  destruct (CoreLogic.step atan2_degrees math_sqrt s c) as [s1 e1].
  specialize (IH s1 R1).
  destruct (CoreLogic.run atan2_degrees math_sqrt s1 cs) as [s2 e2].
  exact IH.
Qed.

Lemma main_armed_reachable :
  SteeringLogicMain.reachable octant_atan2 floor_sqrt main_armed.
Proof. apply main_reachable_run. constructor. Qed.

Lemma main_near_lock_reachable :
  SteeringLogicMain.reachable octant_atan2 floor_sqrt main_near_lock.
Proof.
  apply main_reachable_run. exact main_armed_reachable.
Qed.

Lemma core_armed_reachable :
  CoreLogic.reachable octant_atan2 floor_sqrt core_armed.
Proof. apply core_reachable_run. constructor. Qed.

Lemma core_near_lock_reachable :
  CoreLogic.reachable octant_atan2 floor_sqrt core_near_lock.
Proof.
  apply core_reachable_run. exact core_armed_reachable.
Qed.

Lemma octant_atan2_in_range (dy dx : Z) :
  MainFacts.in_range (octant_atan2 dy dx).
Proof.
  unfold octant_atan2, MainFacts.in_range.
  destruct (dx ?= 0)%Z, (dy ?= 0)%Z;
    try destruct (dy =? dx)%Z; try destruct (dy =? - dx)%Z;
    split; vm_compute; discriminate.
Qed.

Section Claims.
Local Open Scope Q_scope.

(** C1.  In both variants the accumulated degrees of every object the
    program can hold lie between [-max_degrees] and [max_degrees]: the
    bound holds after every call, so after every processed pointer event,
    in exact arithmetic and on doubles alike.  And, in exact arithmetic, a
    run of events that are all classified Clockwise, with at least as many
    events as degrees are missing to the lock (each such event gains more
    than the hysteresis of one degree), ends with the accumulated degrees
    equal to [max_degrees]. *)
Theorem total_rotation_clamped_and_saturates
    (atan2_degrees : Z -> Z -> Q) (math_sqrt : Z -> Q) :
  (forall s,
     SteeringLogicMain.reachable atan2_degrees math_sqrt s ->
     - SteeringLogicMain.max_degrees s
       <= SteeringLogicMain.total_accumulated_degrees s
     /\ SteeringLogicMain.total_accumulated_degrees s
        <= SteeringLogicMain.max_degrees s) /\
  (forall s evs,
     SteeringLogicMain.reachable atan2_degrees math_sqrt s ->
     SteeringLogicMain.is_steering s = true ->
     MainFacts.clockwise_run atan2_degrees math_sqrt s evs ->
     SteeringLogicMain.max_degrees s
       - SteeringLogicMain.total_accumulated_degrees s
       <= inject_Z (Z.of_nat (length evs)) ->
     SteeringLogicMain.total_accumulated_degrees
       (MainFacts.after_moves atan2_degrees math_sqrt s evs)
     == SteeringLogicMain.max_degrees s) /\
  (forall s,
     CoreLogic.reachable atan2_degrees math_sqrt s ->
     - CoreLogic.max_degrees s <= CoreLogic.total_accumulated_degrees s
     /\ CoreLogic.total_accumulated_degrees s <= CoreLogic.max_degrees s) /\
  (forall s evs,
     CoreLogic.reachable atan2_degrees math_sqrt s ->
     CoreLogic.is_steering s = true ->
     CoreFacts.core_clockwise_run atan2_degrees math_sqrt s evs ->
     CoreLogic.max_degrees s - CoreLogic.total_accumulated_degrees s
       <= inject_Z (Z.of_nat (length evs)) ->
     CoreLogic.total_accumulated_degrees
       (CoreFacts.core_after_moves atan2_degrees math_sqrt s evs)
     == CoreLogic.max_degrees s) /\
  (forall (atan2_64 : Z -> Z -> float) (sqrt_64 : Z -> float) s,
     SteeringLogicMain.reachable atan2_64 sqrt_64 s ->
     Binary64Facts.bounded64 (SteeringLogicMain.max_degrees s)
       (SteeringLogicMain.total_accumulated_degrees s)) /\
  (forall (atan2_64 : Z -> Z -> float) (sqrt_64 : Z -> float) s,
     CoreLogic.reachable atan2_64 sqrt_64 s ->
     Binary64Facts.bounded64 (CoreLogic.max_degrees s)
       (CoreLogic.total_accumulated_degrees s)).
Proof.
  split; [|split; [|split; [|split; [|split]]]];
    [| | | |exact Binary64Facts.main_reachable_bounded64
           |exact Binary64Facts.core_reachable_bounded64].
  - intros s R. exact (MainFacts.reachable_bounded R).
  - intros s evs R St C L.
    pose proof (MainFacts.reachable_well_formed R) as W.
    pose proof (MainFacts.reachable_after_moves evs R) as R'.
    destruct (MainFacts.reachable_bounded R') as [_ Hi].
    assert (Lo : SteeringLogicMain.max_degrees s
                 <= SteeringLogicMain.total_accumulated_degrees
                      (MainFacts.after_moves atan2_degrees math_sqrt s evs)).
    { apply MainFacts.clockwise_run_gains; try assumption; lra. }
    assert (Em : SteeringLogicMain.max_degrees
                   (MainFacts.after_moves atan2_degrees math_sqrt s evs)
                 = SteeringLogicMain.max_degrees s).
    { rewrite (MainFacts.wf_max_degrees (MainFacts.reachable_well_formed R')).
      now rewrite (MainFacts.wf_max_degrees W). }
    rewrite Em in Hi. lra.
  - intros s R. exact (CoreFacts.core_reachable_bounded R).
  - intros s evs R St C L.
    pose proof (CoreFacts.core_reachable_well_formed R) as W.
    assert (R' : CoreLogic.reachable atan2_degrees math_sqrt
                   (CoreFacts.core_after_moves atan2_degrees math_sqrt s evs)).
    { apply core_reachable_run. exact R. }
    destruct (CoreFacts.core_reachable_bounded R') as [_ Hi].
    assert (Lo : CoreLogic.max_degrees s
                 <= CoreLogic.total_accumulated_degrees
                      (CoreFacts.core_after_moves atan2_degrees math_sqrt
                         s evs)).
    { apply CoreFacts.core_clockwise_run_gains; try assumption; lra. }
    assert (Em : CoreLogic.max_degrees
                   (CoreFacts.core_after_moves atan2_degrees math_sqrt s evs)
                 = CoreLogic.max_degrees s).
    { rewrite (CoreFacts.wf_max_degrees
                 (CoreFacts.core_reachable_well_formed R')).
      now rewrite (CoreFacts.wf_max_degrees W). }
    rewrite Em in Hi. lra.
Qed.

(* From 1071 degrees, nine short of the lock, the eleven Clockwise events of
   a sweep end at 1080 in both variants. *)
Lemma total_rotation_saturates_witness :
  (SteeringLogicMain.reachable octant_atan2 floor_sqrt main_near_lock /\
   SteeringLogicMain.is_steering main_near_lock = true /\
   MainFacts.clockwise_run octant_atan2 floor_sqrt main_near_lock sweep /\
   SteeringLogicMain.total_accumulated_degrees main_near_lock == 1071 /\
   SteeringLogicMain.total_accumulated_degrees
     (MainFacts.after_moves octant_atan2 floor_sqrt main_near_lock sweep)
   == 1080) /\
  (CoreLogic.reachable octant_atan2 floor_sqrt core_near_lock /\
   CoreLogic.is_steering core_near_lock = true /\
   CoreFacts.core_clockwise_run octant_atan2 floor_sqrt core_near_lock sweep /\
   CoreLogic.total_accumulated_degrees core_near_lock == 1071 /\
   CoreLogic.total_accumulated_degrees
     (CoreFacts.core_after_moves octant_atan2 floor_sqrt core_near_lock sweep)
   == 1080).
Proof.
  destruct (total_rotation_clamped_and_saturates octant_atan2 floor_sqrt)
    as (_ & MainSat & _ & CoreSat & _).
  assert (M1 : SteeringLogicMain.is_steering main_near_lock = true)
    by (vm_compute; reflexivity).
  assert (M2 : MainFacts.clockwise_run octant_atan2 floor_sqrt
                 main_near_lock sweep)
    by (vm_compute; repeat split; reflexivity).
  assert (M3 : SteeringLogicMain.total_accumulated_degrees main_near_lock
               == 1071) by (vm_compute; reflexivity).
  assert (M4 : SteeringLogicMain.max_degrees main_near_lock = 1080)
    by (vm_compute; reflexivity).
  assert (C1 : CoreLogic.is_steering core_near_lock = true)
    by (vm_compute; reflexivity).
  assert (C2 : CoreFacts.core_clockwise_run octant_atan2 floor_sqrt
                 core_near_lock sweep)
    by (vm_compute; repeat split; reflexivity).
  assert (C3 : CoreLogic.total_accumulated_degrees core_near_lock == 1071)
    by (vm_compute; reflexivity).
  assert (C4 : CoreLogic.max_degrees core_near_lock = 1080)
    by (vm_compute; reflexivity).
  split.
  - split; [exact main_near_lock_reachable|].
    split; [exact M1|]. split; [exact M2|]. split; [exact M3|].
    rewrite <- M4.
    apply (MainSat main_near_lock sweep main_near_lock_reachable M1 M2).
    rewrite M4, M3. vm_compute. discriminate.
  - split; [exact core_near_lock_reachable|].
    split; [exact C1|]. split; [exact C2|]. split; [exact C3|].
    rewrite <- C4.
    apply (CoreSat core_near_lock sweep core_near_lock_reachable C1 C2).
    rewrite C4, C3. vm_compute. discriminate.
Defined.



(** C3.  In both variants a processed event whose offset from the pivot is
    below the center threshold is classified "None" and leaves the
    accumulated degrees as they were, whatever its delta is: the center
    check comes before the comparisons with the hysteresis.  This holds in
    exact arithmetic and on doubles alike. *)
Theorem center_check_suppresses
    (atan2_degrees : Z -> Z -> Q) (math_sqrt : Z -> Q) :
  (forall s x y,
     SteeringLogicMain.reachable atan2_degrees math_sqrt s ->
     SteeringLogicMain.is_steering s = true ->
     let s' := fst (SteeringLogicMain.on_move atan2_degrees math_sqrt s x y) in
     SteeringLogicMain.current_offset s'
       < SteeringLogicMain.mouse_center_threshold s ->
     SteeringLogicMain.rotation_direction s' = DirNone /\
     SteeringLogicMain.total_accumulated_degrees s'
     == SteeringLogicMain.total_accumulated_degrees s) /\
  (forall s x y,
     CoreLogic.reachable atan2_degrees math_sqrt s ->
     CoreLogic.is_steering s = true ->
     let s' := fst (fst (CoreLogic._on_move_handler atan2_degrees math_sqrt
                           s x y)) in
     CoreLogic.current_offset s' < CoreLogic.mouse_center_threshold s ->
     CoreLogic.rotation_direction s' = DirNone /\
     CoreLogic.total_accumulated_degrees s'
     == CoreLogic.total_accumulated_degrees s) /\
  (forall (atan2_64 : Z -> Z -> float) (sqrt_64 : Z -> float) s x y,
     SteeringLogicMain.reachable atan2_64 sqrt_64 s ->
     SteeringLogicMain.is_steering s = true ->
     let s' := fst (SteeringLogicMain.on_move atan2_64 sqrt_64 s x y) in
     PrimFloat.ltb (SteeringLogicMain.current_offset s')
       (SteeringLogicMain.mouse_center_threshold s) = true ->
     SteeringLogicMain.rotation_direction s' = DirNone /\
     PrimFloat.eqb (SteeringLogicMain.total_accumulated_degrees s')
       (SteeringLogicMain.total_accumulated_degrees s) = true) /\
  (forall (atan2_64 : Z -> Z -> float) (sqrt_64 : Z -> float) s x y,
     CoreLogic.reachable atan2_64 sqrt_64 s ->
     CoreLogic.is_steering s = true ->
     let s' := fst (fst (CoreLogic._on_move_handler atan2_64 sqrt_64 s x y)) in
     PrimFloat.ltb (CoreLogic.current_offset s')
       (CoreLogic.mouse_center_threshold s) = true ->
     CoreLogic.rotation_direction s' = DirNone /\
     PrimFloat.eqb (CoreLogic.total_accumulated_degrees s')
       (CoreLogic.total_accumulated_degrees s) = true).
Proof.
  split; [|split; [|split]];
    [| |exact Binary64Facts.main_center_suppression64
       |exact Binary64Facts.core_center_suppression64].
  - intros s x y R St s' Off.
    apply MainFacts.center_suppression; try assumption.
    + exact (MainFacts.reachable_well_formed R).
    + exact (MainFacts.reachable_bounded R).
  - intros s x y R St s' Off.
    apply CoreFacts.core_center_suppression; try assumption.
    + exact (CoreFacts.core_reachable_well_formed R).
    + exact (CoreFacts.core_reachable_bounded R).
Qed.

(* After a sweep the smoothed angle is 180 and 315 degrees are accumulated.
   An event one pixel from the pivot at -135 degrees moves the smoothed angle
   by -63 degrees, far beyond the hysteresis, and changes nothing. *)
Lemma center_check_suppresses_witness :
  let s := MainFacts.after_moves octant_atan2 floor_sqrt main_armed sweep in
  let s' := fst (SteeringLogicMain.on_move octant_atan2 floor_sqrt s 499 499) in
  let c := CoreFacts.core_after_moves octant_atan2 floor_sqrt core_armed sweep in
  let c' := fst (fst (CoreLogic._on_move_handler octant_atan2 floor_sqrt
                        c 499 499)) in
  (SteeringLogicMain.is_steering s = true /\
   SteeringLogicMain.current_offset s'
     < SteeringLogicMain.mouse_center_threshold s /\
   SteeringLogicMain.angular_velocity s' == -63 /\
   SteeringLogicMain.total_accumulated_degrees s == 315 /\
   SteeringLogicMain.rotation_direction s' = DirNone /\
   SteeringLogicMain.total_accumulated_degrees s'
   == SteeringLogicMain.total_accumulated_degrees s) /\
  (CoreLogic.is_steering c = true /\
   CoreLogic.current_offset c' < CoreLogic.mouse_center_threshold c /\
   CoreLogic.angular_velocity c' == -63 /\
   CoreLogic.total_accumulated_degrees c == 315 /\
   CoreLogic.rotation_direction c' = DirNone /\
   CoreLogic.total_accumulated_degrees c'
   == CoreLogic.total_accumulated_degrees c).
Proof.
  intros s s' c c'.
  destruct (center_check_suppresses octant_atan2 floor_sqrt)
    as (MainC & CoreC & _).
  assert (Rs : SteeringLogicMain.reachable octant_atan2 floor_sqrt s)
    by (apply main_reachable_run; exact main_armed_reachable).
  assert (Rc : CoreLogic.reachable octant_atan2 floor_sqrt c)
    by (apply core_reachable_run; exact core_armed_reachable).
  assert (S1 : SteeringLogicMain.is_steering s = true)
    by (vm_compute; reflexivity).
  assert (S2 : SteeringLogicMain.current_offset s'
               < SteeringLogicMain.mouse_center_threshold s)
    by (vm_compute; reflexivity).
  assert (C1 : CoreLogic.is_steering c = true) by (vm_compute; reflexivity).
  assert (C2 : CoreLogic.current_offset c' < CoreLogic.mouse_center_threshold c)
    by (vm_compute; reflexivity).
  split.
  - split; [exact S1|]. split; [exact S2|].
    split; [vm_compute; reflexivity|]. split; [vm_compute; reflexivity|].
    exact (MainC s 499%Z 499%Z Rs S1 S2).
  - split; [exact C1|]. split; [exact C2|].
    split; [vm_compute; reflexivity|]. split; [vm_compute; reflexivity|].
    exact (CoreC c 499%Z 499%Z Rc C1 C2).
Defined.

(** C4, as the code has it.  The axis value of both variants is Python's
    [int] of [normalized * (max_axis - min_axis) + min_axis] (the fraction
    is dropped, the value is not rounded to the nearest integer), clamped to
    [min_axis, max_axis]; whatever the arithmetic, it lies in that range.

    In exact arithmetic and for [max_degrees > 0]: with the accumulated
    degrees within the lock the axis value is the integer part of the exact
    value and the clamp changes nothing; a value below the range gives
    [min_axis], one above it [max_axis].  [-max_degrees] maps to [min_axis],
    [+max_degrees] to [max_axis], and 0 to the center 16383 of the range
    [0, 32767].

    On doubles, with the lock of 1080 degrees that every object has:
    [-max_degrees] maps to [min_axis], [+max_degrees] to [max_axis], 0 to
    16383 and 18 to 16656 (the value to be mapped is 16656.558...), as in
    exact arithmetic.  But the quotient and the product are rounded before
    [int] is applied, so the axis value can be one above the integer part of
    the exact value: at [1080 - 2^-42] degrees, the double
    [0x1.0dfffffffffffp+10], it is 32767 on doubles and 32766 in exact
    arithmetic. *)
Theorem axis_mapping_truncates :
  (forall (s : SteeringLogicMain.SteeringLogic Q) (total : Q),
     0 < SteeringLogicMain.max_degrees s ->
     - SteeringLogicMain.max_degrees s <= total ->
     total <= SteeringLogicMain.max_degrees s ->
     inject_Z (SteeringLogicMain.axis_of s total)
       <= MainFacts.axis_real s total /\
     MainFacts.axis_real s total
       < inject_Z (SteeringLogicMain.axis_of s total + 1) /\
     (SteeringLogicMain.MIN_VJOY_AXIS <= SteeringLogicMain.axis_of s total
      <= SteeringLogicMain.MAX_VJOY_AXIS)%Z) /\
  (forall (s : SteeringLogicMain.SteeringLogic Q) (total : Q),
     0 < SteeringLogicMain.max_degrees s ->
     (MainFacts.axis_real s total < 0 ->
      SteeringLogicMain.axis_of s total = SteeringLogicMain.MIN_VJOY_AXIS) /\
     (inject_Z SteeringLogicMain.MAX_VJOY_AXIS <= MainFacts.axis_real s total ->
      SteeringLogicMain.axis_of s total = SteeringLogicMain.MAX_VJOY_AXIS)) /\
  (forall s : SteeringLogicMain.SteeringLogic Q,
     0 < SteeringLogicMain.max_degrees s ->
     SteeringLogicMain.axis_of s (- SteeringLogicMain.max_degrees s)
     = SteeringLogicMain.MIN_VJOY_AXIS /\
     SteeringLogicMain.axis_of s (SteeringLogicMain.max_degrees s)
     = SteeringLogicMain.MAX_VJOY_AXIS /\
     SteeringLogicMain.axis_of s 0 = 16383%Z) /\
  (forall s : CoreLogic.SteeringLogic Q,
     0 < CoreLogic.max_degrees s ->
     - CoreLogic.max_degrees s <= CoreLogic.total_accumulated_degrees s ->
     CoreLogic.total_accumulated_degrees s <= CoreLogic.max_degrees s ->
     inject_Z (CoreLogic.axis_of s) <= CoreFacts.core_axis_real s /\
     CoreFacts.core_axis_real s < inject_Z (CoreLogic.axis_of s + 1) /\
     (CoreLogic.MIN_VJOY_AXIS <= CoreLogic.axis_of s
      <= CoreLogic.MAX_VJOY_AXIS)%Z) /\
  (forall s : CoreLogic.SteeringLogic Q,
     0 < CoreLogic.max_degrees s ->
     (CoreFacts.core_axis_real s < 0 ->
      CoreLogic.axis_of s = CoreLogic.MIN_VJOY_AXIS) /\
     (inject_Z CoreLogic.MAX_VJOY_AXIS <= CoreFacts.core_axis_real s ->
      CoreLogic.axis_of s = CoreLogic.MAX_VJOY_AXIS)) /\
  (forall s : CoreLogic.SteeringLogic Q,
     0 < CoreLogic.max_degrees s ->
     (CoreLogic.total_accumulated_degrees s == - CoreLogic.max_degrees s ->
      CoreLogic.axis_of s = CoreLogic.MIN_VJOY_AXIS) /\
     (CoreLogic.total_accumulated_degrees s == CoreLogic.max_degrees s ->
      CoreLogic.axis_of s = CoreLogic.MAX_VJOY_AXIS) /\
     (CoreLogic.total_accumulated_degrees s == 0 ->
      CoreLogic.axis_of s = 16383%Z)) /\
  (forall (T : Type) (N : Number T)
          (s : SteeringLogicMain.SteeringLogic T) (total : T),
     (SteeringLogicMain.MIN_VJOY_AXIS <= SteeringLogicMain.axis_of s total
      <= SteeringLogicMain.MAX_VJOY_AXIS)%Z) /\
  (forall (T : Type) (N : Number T) (s : CoreLogic.SteeringLogic T),
     (CoreLogic.MIN_VJOY_AXIS <= CoreLogic.axis_of s
      <= CoreLogic.MAX_VJOY_AXIS)%Z) /\
  (forall s : SteeringLogicMain.SteeringLogic float,
     SteeringLogicMain.max_degrees s = float_of_Z 1080 ->
     SteeringLogicMain.axis_of s
       (PrimFloat.opp (SteeringLogicMain.max_degrees s))
     = SteeringLogicMain.MIN_VJOY_AXIS /\
     SteeringLogicMain.axis_of s (SteeringLogicMain.max_degrees s)
     = SteeringLogicMain.MAX_VJOY_AXIS /\
     SteeringLogicMain.axis_of s (float_of_Z 0) = 16383%Z /\
     SteeringLogicMain.axis_of s (float_of_Z 18) = 16656%Z /\
     SteeringLogicMain.axis_of s (0x1.0dfffffffffffp+10)%float = 32767%Z) /\
  (forall s : CoreLogic.SteeringLogic float,
     CoreLogic.max_degrees s = float_of_Z 1080 ->
     (CoreLogic.total_accumulated_degrees s
      = PrimFloat.opp (CoreLogic.max_degrees s) ->
      CoreLogic.axis_of s = CoreLogic.MIN_VJOY_AXIS) /\
     (CoreLogic.total_accumulated_degrees s = CoreLogic.max_degrees s ->
      CoreLogic.axis_of s = CoreLogic.MAX_VJOY_AXIS) /\
     (CoreLogic.total_accumulated_degrees s = float_of_Z 0 ->
      CoreLogic.axis_of s = 16383%Z) /\
     (CoreLogic.total_accumulated_degrees s = float_of_Z 18 ->
      CoreLogic.axis_of s = 16656%Z) /\
     (CoreLogic.total_accumulated_degrees s = (0x1.0dfffffffffffp+10)%float ->
      CoreLogic.axis_of s = 32767%Z)) /\
  (Prim2SF (0x1.0dfffffffffffp+10)%float
   = S754_finite false 4749890231992319 (-42) /\
   4749890231992319 # 4398046511104 == 1080 - (1 # 4398046511104)) /\
  (forall s : SteeringLogicMain.SteeringLogic Q,
     SteeringLogicMain.max_degrees s = 1080 ->
     SteeringLogicMain.axis_of s (4749890231992319 # 4398046511104)
     = 32766%Z) /\
  (forall s : CoreLogic.SteeringLogic Q,
     CoreLogic.max_degrees s = 1080 ->
     CoreLogic.total_accumulated_degrees s
     = 4749890231992319 # 4398046511104 ->
     CoreLogic.axis_of s = 32766%Z).
Proof.
  repeat apply conj.
  - intros s total M Lo Hi. now apply MainFacts.axis_of_truncates.
  - intros s total M. now apply MainFacts.axis_of_clamps.
  - intros s M.
    destruct (MainFacts.axis_of_boundaries s M) as [A B].
    repeat split; try assumption.
    exact (MainFacts.axis_of_center s M).
  - intros s M Lo Hi. apply CoreFacts.core_axis_of_truncates; [exact M|].
    split; assumption.
  - intros s M. now apply CoreFacts.core_axis_of_clamps.
  - intros s M. exact (CoreFacts.core_axis_of_boundaries s M).
  - intros T N s total. unfold SteeringLogicMain.axis_of.
    change SteeringLogicMain.MIN_VJOY_AXIS with 0%Z.
    change SteeringLogicMain.MAX_VJOY_AXIS with 32767%Z. cbv zeta. lia.
  - intros T N s. unfold CoreLogic.axis_of.
    change CoreLogic.MIN_VJOY_AXIS with 0%Z.
    change CoreLogic.MAX_VJOY_AXIS with 32767%Z. cbv zeta. lia.
  - intros s Md. unfold SteeringLogicMain.axis_of. rewrite Md.
    repeat split; vm_compute; reflexivity.
  - intros s Md. unfold CoreLogic.axis_of. rewrite Md.
    repeat split; intros Et; rewrite Et; vm_compute; reflexivity.
  - vm_compute. reflexivity.
  - vm_compute. reflexivity.
  - intros s Md. unfold SteeringLogicMain.axis_of. rewrite Md.
    vm_compute. reflexivity.
  - intros s Md Et. unfold CoreLogic.axis_of. rewrite Md, Et.
    vm_compute. reflexivity.
Qed.

(* The fresh objects: lock 1080, accumulated degrees 0, axis 16383 between
   16383 and 16384; on doubles the lock maps to the end of the range. *)
Lemma axis_mapping_truncates_witness :
  let s := fst (SteeringLogicMain.init (T:=Q) true true) in
  let c := fst (CoreLogic.init (T:=Q) true true) in
  let s64 := fst (SteeringLogicMain.init (T:=float) true true) in
  (0 < SteeringLogicMain.max_degrees s /\
   inject_Z (SteeringLogicMain.axis_of s 0) <= MainFacts.axis_real s 0 /\
   MainFacts.axis_real s 0 < inject_Z (SteeringLogicMain.axis_of s 0 + 1) /\
   SteeringLogicMain.axis_of s (- SteeringLogicMain.max_degrees s) = 0%Z /\
   SteeringLogicMain.axis_of s (SteeringLogicMain.max_degrees s) = 32767%Z /\
   SteeringLogicMain.axis_of s 0 = 16383%Z) /\
  (0 < CoreLogic.max_degrees c /\
   CoreLogic.total_accumulated_degrees c == 0 /\
   inject_Z (CoreLogic.axis_of c) <= CoreFacts.core_axis_real c /\
   CoreFacts.core_axis_real c < inject_Z (CoreLogic.axis_of c + 1) /\
   CoreLogic.axis_of c = 16383%Z) /\
  (SteeringLogicMain.max_degrees s64 = float_of_Z 1080 /\
   SteeringLogicMain.axis_of s64 (SteeringLogicMain.max_degrees s64)
   = 32767%Z /\
   SteeringLogicMain.axis_of s64 (float_of_Z 0) = 16383%Z).
Proof.
  intros s c s64.
  destruct axis_mapping_truncates
    as (MainT & _ & MainB & CoreT & _ & CoreB & _ & _ & Main64 & _).
  assert (M : 0 < SteeringLogicMain.max_degrees s) by (vm_compute; reflexivity).
  assert (M1 : - SteeringLogicMain.max_degrees s <= 0)
    by (vm_compute; discriminate).
  assert (M2 : 0 <= SteeringLogicMain.max_degrees s)
    by (vm_compute; discriminate).
  assert (C : 0 < CoreLogic.max_degrees c) by (vm_compute; reflexivity).
  assert (C0 : CoreLogic.total_accumulated_degrees c == 0)
    by (vm_compute; reflexivity).
  assert (C1 : - CoreLogic.max_degrees c
               <= CoreLogic.total_accumulated_degrees c)
    by (vm_compute; discriminate).
  assert (C2 : CoreLogic.total_accumulated_degrees c
               <= CoreLogic.max_degrees c)
    by (vm_compute; discriminate).
  assert (F : SteeringLogicMain.max_degrees s64 = float_of_Z 1080)
    by reflexivity.
  split; [|split].
  - destruct (MainT s 0 M M1 M2) as (A & B & _).
    destruct (MainB s M) as (Lo & Hi & Mid).
    split; [exact M|]. split; [exact A|]. split; [exact B|].
    split; [exact Lo|]. split; [exact Hi|]. exact Mid.
  - destruct (CoreT c C C1 C2) as (A & B & _).
    destruct (CoreB c C) as (_ & _ & Mid).
    split; [exact C|]. split; [exact C0|]. split; [exact A|].
    split; [exact B|]. exact (Mid C0).
  - destruct (Main64 s64 F) as (_ & Hi & Mid & _).
    split; [exact F|]. split; [exact Hi|exact Mid].
Defined.

(* C4 as the claim has it, refuted.  Two one-step sweeps accumulate 18
   degrees; the event that reaches them writes 16656 to the axis, while the
   value to be mapped is 16656.558...: 16657 is the nearest integer. *)
Lemma axis_value_is_not_rounded :
  let s := MainFacts.after_moves octant_atan2 floor_sqrt main_armed
             (firstn 1 sweep ++ rewind) in
  let r := SteeringLogicMain.on_move octant_atan2 floor_sqrt s 500 480 in
  let c := CoreFacts.core_after_moves octant_atan2 floor_sqrt core_armed
             (firstn 1 sweep ++ rewind) in
  let q := fst (CoreLogic._on_move_handler octant_atan2 floor_sqrt c 500 480) in
  (SteeringLogicMain.total_accumulated_degrees (fst r) == 18 /\
   sink_writes (snd r) = [16656%Z] /\
   MainFacts.axis_real (fst r) 18 == 16656 + (1206 # 2160) /\
   ~ MainFacts.nearest_integer (MainFacts.axis_real (fst r) 18) 16656 /\
   MainFacts.nearest_integer (MainFacts.axis_real (fst r) 18) 16657) /\
  (CoreLogic.total_accumulated_degrees (fst q) == 18 /\
   sink_writes (snd q) = [16656%Z] /\
   ~ MainFacts.nearest_integer (CoreFacts.core_axis_real (fst q)) 16656 /\
   MainFacts.nearest_integer (CoreFacts.core_axis_real (fst q)) 16657).
Proof.
  cbv zeta. unfold MainFacts.nearest_integer.
  repeat apply conj; try (vm_compute; reflexivity);
    try (vm_compute; discriminate);
    intros N; vm_compute in N; apply N; reflexivity.
Qed.

End Claims.

Section LifecycleClaims.
Context {T : Type} {N : Number T}.
Variable atan2_degrees : Z -> Z -> T.
Variable math_sqrt : Z -> T.

(** C5.  In both variants, and whatever the arithmetic: stopping an active
    session writes the axis exactly once, with the center value
    [(MIN_VJOY_AXIS + MAX_VJOY_AXIS) // 2 = 16383], whatever degrees are
    accumulated, and these are kept; stopping a session that is not active
    leaves the object as it is and writes nothing to the axis. *)
Theorem stop_forces_center :
  (SteeringLogicMain.CENTER_VJOY_AXIS = 16383%Z /\
   CoreLogic.CENTER_VJOY_AXIS = 16383%Z) /\
  (forall s,
     SteeringLogicMain.reachable atan2_degrees math_sqrt s ->
     SteeringLogicMain.is_steering s = true ->
     SteeringLogicMain.is_steering (fst (SteeringLogicMain.stop_steering s))
     = false /\
     sink_writes (snd (SteeringLogicMain.stop_steering s))
     = [SteeringLogicMain.CENTER_VJOY_AXIS] /\
     raised (snd (SteeringLogicMain.stop_steering s)) = false) /\
  (forall s,
     SteeringLogicMain.is_steering s = false ->
     fst (SteeringLogicMain.stop_steering s) = s /\
     sink_writes (snd (SteeringLogicMain.stop_steering s)) = []) /\
  (forall s,
     CoreLogic.reachable atan2_degrees math_sqrt s ->
     CoreLogic.is_steering s = true ->
     CoreLogic.is_steering (fst (CoreLogic.stop s)) = false /\
     sink_writes (snd (CoreLogic.stop s)) = [CoreLogic.CENTER_VJOY_AXIS] /\
     raised (snd (CoreLogic.stop s)) = false) /\
  (forall s,
     CoreLogic.is_steering s = false ->
     fst (CoreLogic.stop s) = s /\
     sink_writes (snd (CoreLogic.stop s)) = []).
Proof.
  repeat apply conj; try reflexivity.
  - intros s R St.
    destruct (MainFacts.stop_steering_active
                (MainFacts.reachable_well_formed R) St) as (A & _ & B & C).
    repeat split; assumption.
  - intros s St. rewrite (MainFacts.stop_steering_idle s St).
    split; reflexivity.
  - intros s R St.
    destruct (CoreFacts.core_stop_active
                (CoreFacts.core_reachable_well_formed R) St)
      as (A & _ & B & _).
    rewrite B. repeat split; [exact A | reflexivity ..].
  - intros s St. rewrite (CoreFacts.core_stop_idle s St).
    split; reflexivity.
Qed.

(** C6.  In both variants, when the vJoy device is not available or the
    screen center is not set, [start] returns without raising, leaves the
    object as it is, not steering, and its only effect is an error
    notification: to the callback of [steering_logic.py] when one is
    registered, through the [error_occurred] signal of [core_logic.py]. *)
Theorem start_reports_precondition_error :
  (forall s mouse,
     SteeringLogicMain.reachable atan2_degrees math_sqrt s ->
     SteeringLogicMain.vjoy_device s = false \/
     SteeringLogicMain.screen_center_x s = None \/
     SteeringLogicMain.screen_center_y s = None ->
     let r := SteeringLogicMain.start_steering atan2_degrees s mouse in
     let m := if SteeringLogicMain.vjoy_device s
              then ScreenCenterNotSet else VjoyNotAvailable in
     fst r = s /\
     SteeringLogicMain.is_steering s = false /\
     raised (snd r) = false /\
     sink_writes (snd r) = [] /\
     snd r = SteeringLogicMain.callback s (Notify Error m) /\
     (SteeringLogicMain.app_callback s = true ->
      snd r = [Notify Error m])) /\
  (forall s mouse,
     CoreLogic.reachable atan2_degrees math_sqrt s ->
     CoreLogic.vjoy_device s = false \/
     CoreLogic.screen_center_x s = None \/
     CoreLogic.screen_center_y s = None ->
     let r := CoreLogic.start atan2_degrees s mouse in
     let m := if CoreLogic.vjoy_device s
              then ScreenCenterNotSet else VjoyNotAvailable in
     fst r = s /\
     CoreLogic.is_steering s = false /\
     snd r = [Notify Error m]).
Proof.
  split.
  - intros s mouse R P r m.
    pose proof (MainFacts.reachable_well_formed R) as W.
    assert (X : r = (s, SteeringLogicMain.callback s (Notify Error m)) /\
                SteeringLogicMain.is_steering s = false).
    { subst r m. destruct (SteeringLogicMain.vjoy_device s) eqn:V.
      - apply MainFacts.start_steering_no_pivot; try assumption.
        destruct P as [P|P]; [discriminate | exact P].
      - now apply MainFacts.start_steering_no_sink. }
    destruct X as (E & St). rewrite E. cbn [fst snd].
    destruct (MainFacts.callback_not_raised s Error m) as [A B].
    repeat split; try assumption.
    intros Cb. unfold SteeringLogicMain.callback. now rewrite Cb.
  - intros s mouse R P r m.
    pose proof (CoreFacts.core_reachable_well_formed R) as W.
    assert (X : r = (s, [Notify Error m]) /\
                CoreLogic.is_steering s = false).
    { subst r m. destruct (CoreLogic.vjoy_device s) eqn:V.
      - apply CoreFacts.core_start_no_pivot; try assumption.
        destruct P as [P|P]; [discriminate | exact P].
      - now apply CoreFacts.core_start_no_sink. }
    destruct X as (E & St). rewrite E. cbn [fst snd].
    repeat split; assumption.
Qed.

(** C7.  In both variants, from every object the program can hold,
    recentring sets the accumulated degrees, the velocity and the
    acceleration to 0 and fills the smoother with copies of the angle of the
    current pointer position, which also becomes the previous smoothed
    angle; recentring again with the pointer where it was returns the same
    object and the same effects, the snapshot among them. *)
Theorem recenter_is_idempotent :
  (forall s mouse,
     SteeringLogicMain.reachable atan2_degrees math_sqrt s ->
     let r := SteeringLogicMain.reset_steering_view atan2_degrees s mouse in
     SteeringLogicMain.total_accumulated_degrees (fst r) = num_of_Z 0 /\
     SteeringLogicMain.angular_velocity (fst r) = num_of_Z 0 /\
     SteeringLogicMain.angular_acceleration (fst r) = num_of_Z 0 /\
     SteeringLogicMain.previous_smoothed_angle (fst r)
     = MainFacts.seed_angle atan2_degrees s mouse /\
     items (SteeringLogicMain.angle_history (fst r))
     = repeat (MainFacts.seed_angle atan2_degrees s mouse) 5 /\
     SteeringLogicMain.reset_steering_view atan2_degrees (fst r) mouse = r) /\
  (forall s mouse,
     CoreLogic.reachable atan2_degrees math_sqrt s ->
     let r := CoreLogic.recenter_view atan2_degrees s mouse in
     CoreLogic.total_accumulated_degrees (fst r) = num_of_Z 0 /\
     CoreLogic.angular_velocity (fst r) = num_of_Z 0 /\
     CoreLogic.angular_acceleration (fst r) = num_of_Z 0 /\
     CoreLogic.previous_smoothed_angle (fst r)
     = CoreFacts.core_seed_angle atan2_degrees s mouse /\
     items (CoreLogic.angle_history (fst r))
     = repeat (CoreFacts.core_seed_angle atan2_degrees s mouse) 5 /\
     CoreLogic.recenter_view atan2_degrees (fst r) mouse = r).
Proof.
  split.
  - intros s mouse R r.
    pose proof (MainFacts.reachable_well_formed R) as W.
    destruct (MainFacts.reset_steering_view_fields atan2_degrees mouse W)
      as (A & B & C & D & E).
    repeat split; try assumption.
    now apply MainFacts.reset_steering_view_twice.
  - intros s mouse R r.
    pose proof (CoreFacts.core_reachable_well_formed R) as W.
    destruct (CoreFacts.recenter_view_fields atan2_degrees mouse W)
      as (A & B & C & D & E).
    repeat split; try assumption.
    now apply CoreFacts.recenter_view_twice.
Qed.

(** C9.  [update_sensitivity] assigns the sensitivity and nothing else, and
    writes nothing to the axis; and a run of pointer events from the updated
    object ends in the object the same run reaches without the update, but
    for the sensitivity, with the same effects: the accumulated degrees and
    every axis value are those of the run without the update, whatever the
    sensitivity is. *)
Theorem sensitivity_is_inert (s : SteeringLogicMain.SteeringLogic T) (v : T) :
  let s' := fst (SteeringLogicMain.update_sensitivity s v) in
  (SteeringLogicMain.sensitivity s' = v /\
   SteeringLogicMain.app_callback s' = SteeringLogicMain.app_callback s /\
   SteeringLogicMain.max_degrees s' = SteeringLogicMain.max_degrees s /\
   SteeringLogicMain.direction_change_threshold s'
   = SteeringLogicMain.direction_change_threshold s /\
   SteeringLogicMain.mouse_center_threshold s'
   = SteeringLogicMain.mouse_center_threshold s /\
   SteeringLogicMain.current_raw_angle s'
   = SteeringLogicMain.current_raw_angle s /\
   SteeringLogicMain.previous_smoothed_angle s'
   = SteeringLogicMain.previous_smoothed_angle s /\
   SteeringLogicMain.total_accumulated_degrees s'
   = SteeringLogicMain.total_accumulated_degrees s /\
   SteeringLogicMain.rotation_direction s'
   = SteeringLogicMain.rotation_direction s /\
   SteeringLogicMain.current_offset s' = SteeringLogicMain.current_offset s /\
   SteeringLogicMain.angular_velocity s'
   = SteeringLogicMain.angular_velocity s /\
   SteeringLogicMain.previous_angular_velocity s'
   = SteeringLogicMain.previous_angular_velocity s /\
   SteeringLogicMain.angular_acceleration s'
   = SteeringLogicMain.angular_acceleration s /\
   SteeringLogicMain.screen_center_x s' = SteeringLogicMain.screen_center_x s /\
   SteeringLogicMain.screen_center_y s' = SteeringLogicMain.screen_center_y s /\
   SteeringLogicMain.angle_history s' = SteeringLogicMain.angle_history s /\
   SteeringLogicMain.vjoy_device s' = SteeringLogicMain.vjoy_device s /\
   SteeringLogicMain.mouse_listener s' = SteeringLogicMain.mouse_listener s /\
   SteeringLogicMain.is_steering s' = SteeringLogicMain.is_steering s) /\
  sink_writes (snd (SteeringLogicMain.update_sensitivity s v)) = [] /\
  (forall evs,
     let moves := map (fun p => SteeringLogicMain.OnMove (fst p) (snd p)) evs in
     let r := SteeringLogicMain.run atan2_degrees math_sqrt s moves in
     let r' := SteeringLogicMain.run atan2_degrees math_sqrt s' moves in
     fst r' = fst (SteeringLogicMain.update_sensitivity (fst r) v) /\
     snd r' = snd r /\
     SteeringLogicMain.total_accumulated_degrees (fst r')
     = SteeringLogicMain.total_accumulated_degrees (fst r)).
Proof.
  intros s'. split; [|split].
  - exact (MainFacts.update_sensitivity_frame s v).
  - unfold SteeringLogicMain.update_sensitivity, SteeringLogicMain.callback.
    cbn [snd]. destruct (SteeringLogicMain.app_callback s); reflexivity.
  - intros evs moves r r'. subst r r' s' moves.
    rewrite (MainFacts.moves_sensitivity atan2_degrees math_sqrt evs s v).
    repeat split; reflexivity.
Qed.

End LifecycleClaims.

(* Stopping the sessions that hold 1071 degrees. *)
Lemma stop_forces_center_witness :
  (SteeringLogicMain.reachable octant_atan2 floor_sqrt main_near_lock /\
   SteeringLogicMain.is_steering main_near_lock = true /\
   SteeringLogicMain.total_accumulated_degrees main_near_lock == 1071 /\
   sink_writes (snd (SteeringLogicMain.stop_steering main_near_lock))
   = [16383%Z]) /\
  (CoreLogic.reachable octant_atan2 floor_sqrt core_near_lock /\
   CoreLogic.is_steering core_near_lock = true /\
   sink_writes (snd (CoreLogic.stop core_near_lock)) = [16383%Z]) /\
  (SteeringLogicMain.is_steering
     (fst (SteeringLogicMain.stop_steering main_near_lock)) = false /\
   sink_writes
     (snd (SteeringLogicMain.stop_steering
             (fst (SteeringLogicMain.stop_steering main_near_lock)))) = []).
Proof.
  destruct (stop_forces_center octant_atan2 floor_sqrt)
    as (_ & MainStop & MainIdle & CoreStop & _).
  assert (M1 : SteeringLogicMain.is_steering main_near_lock = true)
    by (vm_compute; reflexivity).
  assert (C1 : CoreLogic.is_steering core_near_lock = true)
    by (vm_compute; reflexivity).
  destruct (MainStop main_near_lock main_near_lock_reachable M1)
    as (M2 & M3 & _).
  destruct (CoreStop core_near_lock core_near_lock_reachable C1)
    as (_ & C3 & _).
  split; [|split].
  - split; [exact main_near_lock_reachable|]. split; [exact M1|].
    split; [vm_compute; reflexivity | exact M3].
  - split; [exact core_near_lock_reachable|]. split; [exact C1 | exact C3].
  - split; [exact M2|]. exact (proj2 (MainIdle _ M2)).
Defined.

(* A fresh object whose device could not be acquired, and one whose device
   is there but whose screen center was never set. *)
Lemma start_reports_precondition_error_witness :
  let no_sink := fst (SteeringLogicMain.init (T:=Q) true false) in
  let no_pivot := fst (CoreLogic.init (T:=Q) false true) in
  (SteeringLogicMain.vjoy_device no_sink = false /\
   SteeringLogicMain.start_steering octant_atan2 no_sink (Some (480, 480)%Z)
   = (no_sink, [Notify Error VjoyNotAvailable])) /\
  (CoreLogic.screen_center_x no_pivot = None /\
   CoreLogic.start octant_atan2 no_pivot None
   = (no_pivot, [Notify Error ScreenCenterNotSet])).
Proof.
  intros no_sink no_pivot.
  destruct (start_reports_precondition_error octant_atan2 floor_sqrt)
    as (MainStart & CoreStart).
  assert (V : SteeringLogicMain.vjoy_device no_sink = false) by reflexivity.
  assert (P : CoreLogic.screen_center_x no_pivot = None) by reflexivity.
  destruct (MainStart no_sink (Some (480, 480)%Z)
              (SteeringLogicMain.reach_init octant_atan2 floor_sqrt true false)
              (or_introl V)) as (S1 & _ & _ & _ & _ & E1).
  destruct (CoreStart no_pivot None
              (CoreLogic.reach_init octant_atan2 floor_sqrt false true)
              (or_intror (or_introl P))) as (S2 & _ & E2).
  split.
  - split; [exact V|].
    rewrite (surjective_pairing
               (SteeringLogicMain.start_steering octant_atan2 no_sink
                  (Some (480, 480)%Z))).
    rewrite S1, (E1 eq_refl). reflexivity.
  - split; [exact P|].
    rewrite (surjective_pairing (CoreLogic.start octant_atan2 no_pivot None)).
    rewrite S2, E2. reflexivity.
Defined.

(* Recentring the sessions that hold 1071 degrees, the pointer at 0 degrees. *)
Lemma recenter_is_idempotent_witness :
  let m := Some (compass 0 20) in
  let r := SteeringLogicMain.reset_steering_view octant_atan2
             main_near_lock m in
  let q := CoreLogic.recenter_view octant_atan2 core_near_lock m in
  (SteeringLogicMain.reachable octant_atan2 floor_sqrt main_near_lock /\
   SteeringLogicMain.total_accumulated_degrees main_near_lock == 1071 /\
   SteeringLogicMain.total_accumulated_degrees (fst r) = 0 /\
   SteeringLogicMain.reset_steering_view octant_atan2 (fst r) m = r) /\
  (CoreLogic.reachable octant_atan2 floor_sqrt core_near_lock /\
   CoreLogic.total_accumulated_degrees (fst q) = 0 /\
   CoreLogic.recenter_view octant_atan2 (fst q) m = q).
Proof.
  intros m r q.
  destruct (recenter_is_idempotent octant_atan2 floor_sqrt)
    as (MainR & CoreR).
  destruct (MainR main_near_lock m main_near_lock_reachable)
    as (A & _ & _ & _ & _ & B).
  destruct (CoreR core_near_lock m core_near_lock_reachable)
    as (A' & _ & _ & _ & _ & B').
  split.
  - split; [exact main_near_lock_reachable|].
    split; [vm_compute; reflexivity|]. split; [exact A | exact B].
  - split; [exact core_near_lock_reachable|]. split; [exact A' | exact B'].
Defined.

Section ExactClaims.
Local Open Scope Q_scope.

(* An object of the standalone variant on doubles, given field by field:
   steering, the device acquired, and 0x1.0e021c0438086p-5 accumulated
   degrees, a double just below 1080 / 32767. *)
Definition core_drifting64 : CoreLogic.SteeringLogic float :=
  CoreLogic.assign (fst (CoreLogic.init true true))
    (float_of_Z 0) (float_of_Z 0) (0x1.0e021c0438086p-5)%float DirNone
    (float_of_Z 0) (float_of_Z 0) (float_of_Z 0) (float_of_Z 0)
    (Some 960%Z) (Some 540%Z)
    {| items := repeat (float_of_Z 0) 5; maxlen := 5 |} true true.

(** C10.  In the standalone variant, whatever the arithmetic, stopping an
    active session writes the center value to the axis and then publishes a
    snapshot whose axis value is recomputed from the accumulated degrees,
    which [stop] keeps: the snapshot reports the value written exactly when
    the accumulated degrees map to the center value.

    In exact arithmetic, with the lock of 1080 degrees, they do so exactly
    when they lie in [-1080/32767, 1080/32767); outside that interval the
    snapshot reports an axis value the sink was not given.

    On doubles the interval is not exact, since the quotient and the product
    of the mapping are rounded: an active object that holds the double
    [0x1.0e021c0438086p-5], which lies inside the interval, writes 16383
    when it is stopped and reports 16384. *)
Theorem stop_snapshot_reports_recomputed_axis :
  (forall (T : Type) (N : Number T)
          (atan2_degrees : Z -> Z -> T) (math_sqrt : Z -> T)
          (s : CoreLogic.SteeringLogic T),
     CoreLogic.reachable atan2_degrees math_sqrt s ->
     CoreLogic.is_steering s = true ->
     let s' := fst (CoreLogic.stop s) in
     exists snap,
       snd (CoreLogic.stop s)
       = [SetAxis CoreLogic.CENTER_VJOY_AXIS; Notify Status SteeringStopped;
          Update snap] /\
       CoreLogic.total_accumulated_degrees s'
       = CoreLogic.total_accumulated_degrees s /\
       gui_total_accumulated_degrees snap
       = CoreLogic.total_accumulated_degrees s /\
       gui_is_steering snap = Some false /\
       gui_vjoy_axis_value snap = CoreLogic.axis_of s /\
       (gui_vjoy_axis_value snap = CoreLogic.CENTER_VJOY_AXIS <->
        CoreLogic.axis_of s = CoreLogic.CENTER_VJOY_AXIS)) /\
  (forall (atan2_degrees : Z -> Z -> Q) (math_sqrt : Z -> Q)
          (s : CoreLogic.SteeringLogic Q),
     CoreLogic.reachable atan2_degrees math_sqrt s ->
     CoreLogic.is_steering s = true ->
     let s' := fst (CoreLogic.stop s) in
     exists snap,
       snd (CoreLogic.stop s)
       = [SetAxis CoreLogic.CENTER_VJOY_AXIS; Notify Status SteeringStopped;
          Update snap] /\
       CoreLogic.total_accumulated_degrees s'
       = CoreLogic.total_accumulated_degrees s /\
       gui_total_accumulated_degrees snap
       = CoreLogic.total_accumulated_degrees s /\
       gui_is_steering snap = Some false /\
       gui_vjoy_axis_value snap = CoreLogic.axis_of s /\
       (gui_vjoy_axis_value snap = CoreLogic.CENTER_VJOY_AXIS <->
        - (1080 # 32767) <= CoreLogic.total_accumulated_degrees s /\
        CoreLogic.total_accumulated_degrees s < 1080 # 32767)) /\
  (forall s : CoreLogic.SteeringLogic float,
     CoreLogic.is_steering s = true ->
     CoreLogic.vjoy_device s = true ->
     CoreLogic.max_degrees s = float_of_Z 1080 ->
     CoreLogic.total_accumulated_degrees s = (0x1.0e021c0438086p-5)%float ->
     exists snap,
       snd (CoreLogic.stop s)
       = [SetAxis 16383%Z; Notify Status SteeringStopped; Update snap] /\
       gui_vjoy_axis_value snap = 16384%Z) /\
  (Prim2SF (0x1.0e021c0438086p-5)%float
   = S754_finite false 4750035191562374 (-57) /\
   - (1080 # 32767) <= 4750035191562374 # 144115188075855872 /\
   4750035191562374 # 144115188075855872 < 1080 # 32767).
Proof.
  repeat apply conj.
  - intros T N atan2_degrees math_sqrt s R St s'.
    pose proof (CoreFacts.core_reachable_well_formed R) as W.
    destruct (CoreFacts.core_stop_active W St) as (Idle & Keep & Eff & Axis).
    fold s' in Idle, Keep, Eff, Axis.
    exists (CoreFacts.snapshot s').
    split; [exact Eff|]. split; [exact Keep|].
    split; [exact Keep|].
    split; [cbn [CoreFacts.snapshot gui_is_steering]; now rewrite Idle|].
    split; [exact Axis|].
    rewrite Axis. reflexivity.
  - intros atan2_degrees math_sqrt s R St s'.
    pose proof (CoreFacts.core_reachable_well_formed R) as W.
    destruct (CoreFacts.core_stop_active W St) as (Idle & Keep & Eff & Axis).
    fold s' in Idle, Keep, Eff, Axis.
    exists (CoreFacts.snapshot s').
    split; [exact Eff|]. split; [exact Keep|].
    split; [exact Keep|].
    split; [cbn [CoreFacts.snapshot gui_is_steering]; now rewrite Idle|].
    split; [exact Axis|].
    rewrite Axis. apply CoreFacts.core_axis_of_center_iff; [exact W|].
    exact (CoreFacts.core_reachable_bounded R).
  - intros s St V Md Et.
    destruct s as [cb sens maxd thr cthr raw prev total dir off vel pvel acc
                   cx cy hist vjoy lst st msg].
    cbn [CoreLogic.is_steering CoreLogic.vjoy_device CoreLogic.max_degrees
         CoreLogic.total_accumulated_degrees] in St, V, Md, Et.
    subst st vjoy maxd total.
    eexists. split; [reflexivity|].
    vm_compute. reflexivity.
  - vm_compute. reflexivity.
  - vm_compute. discriminate.
  - vm_compute. reflexivity.
Qed.

(* The session that holds 1071 degrees: the sink is given 16383, the
   snapshot says 32630.  And the object on doubles whose accumulated degrees
   lie just inside the interval: 16383 and 16384. *)
Lemma stop_snapshot_reports_recomputed_axis_witness :
  (CoreLogic.reachable octant_atan2 floor_sqrt core_near_lock /\
   CoreLogic.is_steering core_near_lock = true /\
   CoreLogic.total_accumulated_degrees core_near_lock == 1071 /\
   exists snap,
     snd (CoreLogic.stop core_near_lock)
     = [SetAxis 16383%Z; Notify Status SteeringStopped; Update snap] /\
     gui_vjoy_axis_value snap = 32630%Z) /\
  (CoreLogic.is_steering core_drifting64 = true /\
   CoreLogic.vjoy_device core_drifting64 = true /\
   CoreLogic.max_degrees core_drifting64 = float_of_Z 1080 /\
   CoreLogic.total_accumulated_degrees core_drifting64
   = (0x1.0e021c0438086p-5)%float /\
   exists snap,
     snd (CoreLogic.stop core_drifting64)
     = [SetAxis 16383%Z; Notify Status SteeringStopped; Update snap] /\
     gui_vjoy_axis_value snap = 16384%Z).
Proof.
  destruct stop_snapshot_reports_recomputed_axis
    as (_ & Exact & Doubles & _).
  assert (St : CoreLogic.is_steering core_near_lock = true)
    by (vm_compute; reflexivity).
  split.
  - destruct (Exact octant_atan2 floor_sqrt core_near_lock
                core_near_lock_reachable St)
      as (snap & Eff & _ & _ & _ & Axis & _).
    split; [exact core_near_lock_reachable|]. split; [exact St|].
    split; [vm_compute; reflexivity|].
    exists snap. split; [exact Eff|].
    rewrite Axis. vm_compute. reflexivity.
  - split; [reflexivity|]. split; [reflexivity|]. split; [reflexivity|].
    split; [reflexivity|].
    exact (Doubles core_drifting64 eq_refl eq_refl eq_refl eq_refl).
Defined.

(** C8, in exact arithmetic.  When [start_steering] has seeded the smoother
    with five copies of the angle of the pointer position, a first event at
    that position leaves the smoothed angle equal to the seed, and its
    corrected delta, which is the velocity it reports, is 0. *)
Theorem first_event_at_seed_is_still
    (atan2_degrees : Z -> Z -> Q) (math_sqrt : Z -> Q)
    (s : SteeringLogicMain.SteeringLogic Q) (cx cy mx my : Z) :
  SteeringLogicMain.reachable atan2_degrees math_sqrt s ->
  SteeringLogicMain.is_steering s = false ->
  SteeringLogicMain.vjoy_device s = true ->
  SteeringLogicMain.screen_center_x s = Some cx ->
  SteeringLogicMain.screen_center_y s = Some cy ->
  let seed := atan2_degrees (my - cy)%Z (mx - cx)%Z in
  let s1 := fst (SteeringLogicMain.start_steering atan2_degrees s
                   (Some (mx, my))) in
  let s2 := fst (SteeringLogicMain.on_move atan2_degrees math_sqrt
                   s1 mx my) in
  SteeringLogicMain.is_steering s1 = true /\
  items (SteeringLogicMain.angle_history s1) = repeat seed 5 /\
  SteeringLogicMain.previous_smoothed_angle s1 = seed /\
  SteeringLogicMain.previous_smoothed_angle s2 == seed /\
  SteeringLogicMain.angular_velocity s2 == 0.
Proof.
  intros R St V Ex Ey.
  apply MainFacts.first_event_at_seed; try assumption.
  exact (MainFacts.reachable_well_formed R).
Qed.

(* The pivot at (500, 500), the pointer at (480, 480): the seed is -135. *)
Lemma first_event_at_seed_is_still_witness :
  let s := fst (SteeringLogicMain.set_screen_center octant_atan2
                  (fst (SteeringLogicMain.init (T:=Q) true true))
                  500 500 (Some (480, 480)%Z)) in
  let s1 := fst (SteeringLogicMain.start_steering octant_atan2 s
                   (Some (480, 480)%Z)) in
  let s2 := fst (SteeringLogicMain.on_move octant_atan2 floor_sqrt
                   s1 480 480) in
  SteeringLogicMain.is_steering s = false /\
  SteeringLogicMain.vjoy_device s = true /\
  items (SteeringLogicMain.angle_history s1) = repeat (-135) 5 /\
  SteeringLogicMain.previous_smoothed_angle s2 == -135 /\
  SteeringLogicMain.angular_velocity s2 == 0.
Proof.
  intros s s1 s2.
  assert (R : SteeringLogicMain.reachable octant_atan2 floor_sqrt s).
  { exact (SteeringLogicMain.reach_step
             (SteeringLogicMain.SetScreenCenter 500 500 (Some (480, 480)%Z))
             (SteeringLogicMain.reach_init octant_atan2 floor_sqrt true true)). }
  destruct (@first_event_at_seed_is_still octant_atan2 floor_sqrt s
              500%Z 500%Z 480%Z 480%Z R eq_refl eq_refl eq_refl eq_refl)
    as (_ & H & _ & P & Vel).
  split; [reflexivity|]. split; [reflexivity|].
  split; [exact H|]. split; [exact P | exact Vel].
Defined.

End ExactClaims.

(** C8 as the claim has it, refuted on IEEE-754 doubles.  The pivot at
    (960, 540), the pointer at (930, 501): the smoother is seeded with five
    copies of -127.56859202882748; their sum divided by 5 is the next double
    above the seed, so the first event at that very position reports the
    velocity 2^-46 (about 1.4e-14), not 0.  The sum is the correctly rounded
    [5 * seed], which a compensated summation returns as well: the last bit
    is lost in the division. *)
Lemma first_event_velocity_is_not_zero_in_binary64 :
  let seed := (-0x1.fe463cfd22524p+6)%float in
  let s0 := fst (SteeringLogicMain.init (T:=float) true true) in
  let s := fst (SteeringLogicMain.set_screen_center libm_atan2_sample s0
                  960 540 (Some (930, 501)%Z)) in
  let s1 := fst (SteeringLogicMain.start_steering libm_atan2_sample s
                   (Some (930, 501)%Z)) in
  let s2 := fst (SteeringLogicMain.on_move libm_atan2_sample binary64_sqrt
                   s1 930 501) in
  SteeringLogicMain.is_steering s1 = true /\
  items (SteeringLogicMain.angle_history s1) = repeat seed 5 /\
  SteeringLogicMain.previous_smoothed_angle s1 = seed /\
  num_eqb (SteeringLogicMain.previous_smoothed_angle s2) seed = false /\
  SteeringLogicMain.angular_velocity s2 = 0x1p-46%float /\
  num_eqb (SteeringLogicMain.angular_velocity s2) (num_of_Z 0) = false /\
  deque_sum (SteeringLogicMain.angle_history s2) = (5 * seed)%float /\
  num_eqb (5 * seed / 5)%float seed = false.
Proof.
  cbv zeta. repeat apply conj; vm_compute; reflexivity.
Qed.

(** * Further properties of the two classes and of their callers *)

(** ** The callers: [main_app.py] and [mouse_steering_app.py] *)

Module MainApp.

(* [SteeringWheelWidget]: the angle shown and the widget's own copy of
   [config.MAX_STEERING_DEGREES]. *)
Record SteeringWheelWidget (T : Type) : Type := Widget {
  angle : T;
  max_degrees : T
}.

Section Methods.
Context {T : Type} `{Number T}.
Variable atan2_degrees : Z -> Z -> T.

Local Notation "# z" := (num_of_Z z) (at level 1, format "# z").
Local Open Scope num_scope.

(* [SteeringWheelWidget.__init__] *)
Definition new_widget : SteeringWheelWidget T :=
  {| angle := #0; max_degrees := #CoreLogic.MAX_STEERING_DEGREES |}.

Definition set_angle (w : SteeringWheelWidget T) (angle_degrees : T)
    : SteeringWheelWidget T :=
  {| angle := py_max (- max_degrees w) (py_min (max_degrees w) angle_degrees);
     max_degrees := max_degrees w |}.

(* [update_gui_data]: the value given to the progress bar, whose range is
   [0, 2 * MAX_STEERING_DEGREES]. *)
Definition progress_val (data : gui_data T) : Z :=
  num_int (gui_total_accumulated_degrees data
           + #CoreLogic.MAX_STEERING_DEGREES).

(* [update_gui_data], as far as the wheel, the bar and the button go. *)
Definition update_gui_data (w : SteeringWheelWidget T) (data : gui_data T)
    : SteeringWheelWidget T * Z * bool :=
  (set_angle w (gui_total_accumulated_degrees data),
   progress_val data,
   match gui_is_steering data with Some b => b | None => false end).

(* [on_toggle_steering]: [screen] is the geometry of the current screen,
   [None] when there is none; the two methods called read the pointer one
   after the other. *)
Definition on_toggle_steering (logic : CoreLogic.SteeringLogic T)
    (checked : bool) (screen : option (Z * Z)) (mouse1 mouse2 : option (Z * Z))
    : CoreLogic.SteeringLogic T * list (effect T) :=
  if checked then
    let '(l1, e1) :=
      match screen with
      | Some (width, height) =>
          CoreLogic.set_screen_center atan2_degrees logic
            (width / 2) (height / 2) mouse1
      | None => (logic, [])
      end in
    let '(l2, e2) := CoreLogic.start atan2_degrees l1 mouse2 in
    (l2, e1 ++ e2)
  else CoreLogic.stop logic.

(* [on_sensitivity_changed]: [value / 10.0]. *)
Definition on_sensitivity_changed (logic : CoreLogic.SteeringLogic T)
    (value : Z) : CoreLogic.SteeringLogic T * list (effect T) :=
  CoreLogic.set_sensitivity logic (#value / #10).

(* [__init__]: the position the slider is given,
   [int(sensitivity * 10)]. *)
Definition slider_position (sensitivity : T) : Z :=
  num_int (sensitivity * #10).

End Methods.

(* [paintEvent]: the rotation of the indicator line.  [%] is Python's: the
   result has the sign of the divisor. *)
Definition py_mod (a b : Q) : Q := (a - b * inject_Z (Qfloor (a / b)))%Q.

Definition display_angle (angle : Q) : Q :=
  let d := py_mod angle 360 in
  if Qltb angle 0 && negb (Qeq_bool d 0) then
    if Qltb (1 # 1000) (Qabs d) then (360 - Qabs d)%Q else 0%Q
  else d.

End MainApp.

Module MouseSteeringApp.

Section Methods.
Context {T : Type} `{Number T}.
Variable atan2_degrees : Z -> Z -> T.

(* [toggle_steering]; the third component tells whether the error box
   "vJoy device not available" was shown. *)
Definition toggle_steering (logic : SteeringLogicMain.SteeringLogic T)
    (mouse : option (Z * Z))
    : SteeringLogicMain.SteeringLogic T * list (effect T) * bool :=
  if SteeringLogicMain.is_steering logic then
    (SteeringLogicMain.stop_steering logic, false)
  else if negb (SteeringLogicMain.vjoy_device logic) then
    (logic, [], true)
  else (SteeringLogicMain.start_steering atan2_degrees logic mouse, false).

(* [update_gui_elements]: the value given to the progress bar, whose
   maximum is [2 * max_degrees]. *)
Definition progress_val (logic : SteeringLogicMain.SteeringLogic T)
    (data : gui_data T) : T :=
  num_add (gui_total_accumulated_degrees data)
    (SteeringLogicMain.max_degrees logic).

End Methods.
End MouseSteeringApp.

(** ** Sessions, whatever the arithmetic *)

(* The range of the vJoy axis. *)
Definition in_axis_range (v : Z) : Prop :=
  (SteeringLogicMain.MIN_VJOY_AXIS <= v <= SteeringLogicMain.MAX_VJOY_AXIS)%Z.

(* The calls a run of pointer events makes. *)
Definition main_moves {T : Type} (evs : list (Z * Z))
    : list (SteeringLogicMain.call (T:=T)) :=
  map (fun p => SteeringLogicMain.OnMove (fst p) (snd p)) evs.

Definition core_moves {T : Type} (evs : list (Z * Z))
    : list (CoreLogic.call (T:=T)) :=
  map (fun p => CoreLogic.OnMove (fst p) (snd p)) evs.

(* The calls that may change the accumulated degrees. *)
Definition main_turns {T : Type} (c : SteeringLogicMain.call (T:=T)) : bool :=
  match c with
  | SteeringLogicMain.OnMove _ _ | SteeringLogicMain.ResetSteeringView _ => true
  | _ => false
  end.

Definition core_turns {T : Type} (c : CoreLogic.call (T:=T)) : bool :=
  match c with
  | CoreLogic.OnMove _ _ | CoreLogic.RecenterView _ => true
  | _ => false
  end.

Lemma sink_writes_app (T : Type) (l1 l2 : list (effect T)) :
  sink_writes (l1 ++ l2) = sink_writes l1 ++ sink_writes l2.
Proof.
  induction l1 as [|e l1 IH]; [reflexivity|].
  destruct e; simpl; now rewrite IH.
Qed.

Section SessionFacts.
Context {T : Type} `{Number T}.
Variable atan2_degrees : Z -> Z -> T.
Variable math_sqrt : Z -> T.

Local Notation "# z" := (num_of_Z z) (at level 1, format "# z").
Local Notation main_step := (SteeringLogicMain.step atan2_degrees math_sqrt).
Local Notation main_run := (SteeringLogicMain.run atan2_degrees math_sqrt).
Local Notation main_reachable :=
  (SteeringLogicMain.reachable atan2_degrees math_sqrt).
Local Notation core_step := (CoreLogic.step atan2_degrees math_sqrt).
Local Notation core_run := (CoreLogic.run atan2_degrees math_sqrt).
Local Notation core_reachable := (CoreLogic.reachable atan2_degrees math_sqrt).

Lemma main_run_app (s : SteeringLogicMain.SteeringLogic T)
    (cs1 cs2 : list SteeringLogicMain.call) :
  main_run s (cs1 ++ cs2)
  = (fst (main_run (fst (main_run s cs1)) cs2),
     snd (main_run s cs1) ++ snd (main_run (fst (main_run s cs1)) cs2)).
Proof.
  revert s. induction cs1 as [|c cs1 IH]; intros s.
  - cbn [app SteeringLogicMain.run fst snd]. now destruct (main_run s cs2).
  - cbn [app SteeringLogicMain.run].
    destruct (main_step s c) as [s1 e1]. rewrite IH.
    destruct (main_run s1 cs1) as [s2 e2]. cbn [fst snd].
    now rewrite app_assoc.
Qed.

Lemma core_run_app (s : CoreLogic.SteeringLogic T)
    (cs1 cs2 : list CoreLogic.call) :
  core_run s (cs1 ++ cs2)
  = (fst (core_run (fst (core_run s cs1)) cs2),
     snd (core_run s cs1) ++ snd (core_run (fst (core_run s cs1)) cs2)).
Proof.
  revert s. induction cs1 as [|c cs1 IH]; intros s.
  - cbn [app CoreLogic.run fst snd]. now destruct (core_run s cs2).
  - cbn [app CoreLogic.run].
    destruct (core_step s c) as [s1 e1]. rewrite IH.
    destruct (core_run s1 cs1) as [s2 e2]. cbn [fst snd].
    now rewrite app_assoc.
Qed.

Lemma main_run_cons (s : SteeringLogicMain.SteeringLogic T)
    (c : SteeringLogicMain.call) (cs : list SteeringLogicMain.call) :
  main_run s (c :: cs)
  = (fst (main_run (fst (main_step s c)) cs),
     snd (main_step s c) ++ snd (main_run (fst (main_step s c)) cs)).
Proof.
  cbn [SteeringLogicMain.run]. destruct (main_step s c) as [s1 e1].
  cbn [fst snd]. now destruct (main_run s1 cs).
Qed.

Lemma core_run_cons (s : CoreLogic.SteeringLogic T)
    (c : CoreLogic.call) (cs : list CoreLogic.call) :
  core_run s (c :: cs)
  = (fst (core_run (fst (core_step s c)) cs),
     snd (core_step s c) ++ snd (core_run (fst (core_step s c)) cs)).
Proof.
  cbn [CoreLogic.run]. destruct (core_step s c) as [s1 e1].
  cbn [fst snd]. now destruct (core_run s1 cs).
Qed.

(** *** The axis is never written out of its range *)

Lemma main_axis_of_range (s : SteeringLogicMain.SteeringLogic T) (total : T) :
  in_axis_range (SteeringLogicMain.axis_of s total).
Proof.
  unfold in_axis_range, SteeringLogicMain.axis_of.
  change SteeringLogicMain.MIN_VJOY_AXIS with 0%Z.
  change SteeringLogicMain.MAX_VJOY_AXIS with 32767%Z. cbv zeta. lia.
Qed.

Lemma core_axis_of_range (s : CoreLogic.SteeringLogic T) :
  in_axis_range (CoreLogic.axis_of s).
Proof.
  unfold in_axis_range, CoreLogic.axis_of.
  change SteeringLogicMain.MIN_VJOY_AXIS with 0%Z.
  change SteeringLogicMain.MAX_VJOY_AXIS with 32767%Z.
  change CoreLogic.MIN_VJOY_AXIS with 0%Z.
  change CoreLogic.MAX_VJOY_AXIS with 32767%Z. cbv zeta. lia.
Qed.

Lemma center_in_axis_range : in_axis_range SteeringLogicMain.CENTER_VJOY_AXIS.
Proof. unfold in_axis_range. vm_compute. split; discriminate. Qed.

Lemma main_step_writes (s : SteeringLogicMain.SteeringLogic T)
    (c : SteeringLogicMain.call) :
  Forall in_axis_range (sink_writes (snd (main_step s c))).
Proof.
  pose proof center_in_axis_range as Ce.
  destruct c as [cx cy m | m | | x y | m | v]; cbn [SteeringLogicMain.step].
  - unfold SteeringLogicMain.set_screen_center.
    destruct m as [[mx my]|]; constructor.
  - unfold SteeringLogicMain.start_steering, SteeringLogicMain.callback.
    destruct (SteeringLogicMain.is_steering s); [constructor|].
    destruct (negb (SteeringLogicMain.vjoy_device s));
      [destruct (SteeringLogicMain.app_callback s); constructor|].
    destruct (is_None (SteeringLogicMain.screen_center_x s)
              || is_None (SteeringLogicMain.screen_center_y s));
      [destruct (SteeringLogicMain.app_callback s); constructor|].
    destruct m as [[mx my]|];
      destruct (SteeringLogicMain.app_callback s); constructor.
  - unfold SteeringLogicMain.stop_steering, SteeringLogicMain.callback.
    destruct (negb (SteeringLogicMain.is_steering s)); [constructor|].
    destruct (SteeringLogicMain.vjoy_device s),
      (SteeringLogicMain.app_callback s); cbn [snd app sink_writes];
      repeat (first [apply Forall_nil | apply Forall_cons]); try exact Ce.
  - destruct (SteeringLogicMain.is_steering s) eqn:St;
      [|rewrite (MainFacts.on_move_idle atan2_degrees math_sqrt s x y St);
        constructor].
    destruct (SteeringLogicMain.screen_center_x s) as [cx|] eqn:Ex,
      (SteeringLogicMain.screen_center_y s) as [cy|] eqn:Ey.
    + destruct (MainFacts.on_move_processed atan2_degrees math_sqrt
                  s x y St Ex Ey) as (_ & _ & _ & _ & _ & _ & _ & Hw & _).
      rewrite Hw. destruct (SteeringLogicMain.vjoy_device s);
        repeat (first [apply Forall_nil | apply Forall_cons]);
        apply main_axis_of_range.
    + unfold SteeringLogicMain.on_move. rewrite St, Ex, Ey. constructor.
    + unfold SteeringLogicMain.on_move. rewrite St, Ex. constructor.
    + unfold SteeringLogicMain.on_move. rewrite St, Ex. constructor.
  - unfold SteeringLogicMain.reset_steering_view, SteeringLogicMain.callback.
    destruct (SteeringLogicMain.vjoy_device s),
      (SteeringLogicMain.app_callback s); cbn [snd app sink_writes];
      repeat (first [apply Forall_nil | apply Forall_cons]); try exact Ce.
  - unfold SteeringLogicMain.update_sensitivity, SteeringLogicMain.callback.
    destruct (SteeringLogicMain.app_callback s); constructor.
Qed.

Lemma core_step_writes (s : CoreLogic.SteeringLogic T) (c : CoreLogic.call) :
  Forall in_axis_range (sink_writes (snd (core_step s c))).
Proof.
  pose proof center_in_axis_range as Ce.
  destruct c as [cx cy m | m | | x y | m | v]; cbn [CoreLogic.step].
  - constructor.
  - unfold CoreLogic.start.
    destruct (CoreLogic.is_steering s); [constructor|].
    destruct (negb (CoreLogic.vjoy_device s)); [constructor|].
    destruct (is_None (CoreLogic.screen_center_x s)
              || is_None (CoreLogic.screen_center_y s)); constructor.
  - unfold CoreLogic.stop.
    destruct (negb (CoreLogic.is_steering s)); [constructor|].
    destruct (CoreLogic.vjoy_device s); cbn [snd app sink_writes
      CoreLogic._emit_or_callback CoreLogic._send_data_update];
      repeat (first [apply Forall_nil | apply Forall_cons]); try exact Ce.
  - destruct (CoreLogic.is_steering s) eqn:St;
      [|rewrite (CoreFacts.core_on_move_idle atan2_degrees math_sqrt s x y St);
        constructor].
    destruct (CoreLogic.screen_center_x s) as [cx|] eqn:Ex,
      (CoreLogic.screen_center_y s) as [cy|] eqn:Ey.
    + destruct (CoreFacts.core_on_move_processed atan2_degrees math_sqrt
                  s x y St Ex Ey) as (_ & _ & _ & _ & _ & _ & _ & Hw & _).
      rewrite Hw. destruct (CoreLogic.vjoy_device s);
        repeat (first [apply Forall_nil | apply Forall_cons]);
        apply core_axis_of_range.
    + unfold CoreLogic._on_move_handler. rewrite St, Ex, Ey. constructor.
    + unfold CoreLogic._on_move_handler. rewrite St, Ex. constructor.
    + unfold CoreLogic._on_move_handler. rewrite St, Ex. constructor.
  - unfold CoreLogic.recenter_view.
    destruct (CoreLogic.vjoy_device s); cbn [snd app sink_writes
      CoreLogic._emit_or_callback CoreLogic._send_data_update];
      repeat (first [apply Forall_nil | apply Forall_cons]); try exact Ce.
  - constructor.
Qed.

(** X1.  Whatever object either class is called on, whatever the calls and
    their arguments, and whatever the arithmetic, every value written to the
    vJoy axis lies in [MIN_VJOY_AXIS, MAX_VJOY_AXIS] = [0, 32767]; so does
    the value the constructor writes. *)
Theorem axis_writes_stay_in_range :
  (forall app_cb vjoy_ok,
     Forall in_axis_range
       (sink_writes (snd (SteeringLogicMain.init (T:=T) app_cb vjoy_ok)))) /\
  (forall s cs,
     Forall in_axis_range
       (sink_writes
          (snd (SteeringLogicMain.run atan2_degrees math_sqrt s cs)))) /\
  (forall gui_cb vjoy_ok,
     Forall in_axis_range
       (sink_writes (snd (CoreLogic.init (T:=T) gui_cb vjoy_ok)))) /\
  (forall s cs,
     Forall in_axis_range
       (sink_writes (snd (CoreLogic.run atan2_degrees math_sqrt s cs)))).
Proof.
  pose proof center_in_axis_range as Ce.
  split; [|split; [|split]].
  - intros [|] [|];
      repeat (first [apply Forall_nil | apply Forall_cons]); try exact Ce.
  - intros s cs. revert s. induction cs as [|c cs IH]; intros s;
      [constructor|].
    rewrite main_run_cons. cbn [snd]. rewrite sink_writes_app.
    apply Forall_app. split; [apply main_step_writes | apply IH].
  - intros gui_cb [|];
      repeat (first [apply Forall_nil | apply Forall_cons]); try exact Ce.
  - intros s cs. revert s. induction cs as [|c cs IH]; intros s;
      [constructor|].
    rewrite core_run_cons. cbn [snd]. rewrite sink_writes_app.
    apply Forall_app. split; [apply core_step_writes | apply IH].
Qed.

(** *** Events outside a session *)

Lemma main_moves_idle (evs : list (Z * Z))
    (s : SteeringLogicMain.SteeringLogic T) :
  SteeringLogicMain.is_steering s = false ->
  main_run s (main_moves evs) = (s, []).
Proof.
  intros St. induction evs as [|[x y] evs IH]; [reflexivity|].
  unfold main_moves. cbn [map fst snd]. rewrite main_run_cons.
  cbn [SteeringLogicMain.step].
  rewrite (MainFacts.on_move_idle atan2_degrees math_sqrt s x y St).
  cbn [fst snd]. fold (main_moves (T:=T) evs). now rewrite IH.
Qed.

Lemma core_moves_idle (evs : list (Z * Z)) (s : CoreLogic.SteeringLogic T) :
  CoreLogic.is_steering s = false ->
  core_run s (core_moves evs) = (s, []).
Proof.
  intros St. induction evs as [|[x y] evs IH]; [reflexivity|].
  unfold core_moves. cbn [map fst snd]. rewrite core_run_cons.
  cbn [CoreLogic.step].
  rewrite (CoreFacts.core_on_move_idle atan2_degrees math_sqrt s x y St).
  cbn [fst snd]. fold (core_moves (T:=T) evs). now rewrite IH.
Qed.

(** X2.  Pointer events that reach an object that is not steering are
    dropped: a run of them, however long, leaves the object as it was and
    has no effect at all, in both variants.  The handler of the standalone
    variant then returns [False], which asks pynput to stop the listener. *)
Theorem events_outside_a_session_are_dropped :
  (forall s evs,
     SteeringLogicMain.is_steering s = false ->
     SteeringLogicMain.run atan2_degrees math_sqrt s (main_moves evs)
     = (s, [])) /\
  (forall s evs,
     CoreLogic.is_steering s = false ->
     CoreLogic.run atan2_degrees math_sqrt s (core_moves evs) = (s, [])) /\
  (forall s x y,
     CoreLogic.is_steering s = false ->
     snd (CoreLogic._on_move_handler atan2_degrees math_sqrt s x y) = false).
Proof.
  split; [|split].
  - intros s evs St. now apply main_moves_idle.
  - intros s evs St. now apply core_moves_idle.
  - intros s x y St.
    now rewrite (CoreFacts.core_on_move_idle atan2_degrees math_sqrt s x y St).
Qed.

(** *** What changes the accumulated degrees *)

Lemma main_step_keeps_total (s : SteeringLogicMain.SteeringLogic T)
    (c : SteeringLogicMain.call) :
  main_turns c = false ->
  SteeringLogicMain.total_accumulated_degrees (fst (main_step s c))
  = SteeringLogicMain.total_accumulated_degrees s.
Proof.
  destruct c as [cx cy m | m | | x y | m | v]; cbn [main_turns];
    try discriminate; intros _; cbn [SteeringLogicMain.step].
  - unfold SteeringLogicMain.set_screen_center.
    destruct m as [[mx my]|]; reflexivity.
  - unfold SteeringLogicMain.start_steering.
    destruct (SteeringLogicMain.is_steering s); [reflexivity|].
    destruct (negb (SteeringLogicMain.vjoy_device s)); [reflexivity|].
    destruct (is_None (SteeringLogicMain.screen_center_x s)
              || is_None (SteeringLogicMain.screen_center_y s)); [reflexivity|].
    destruct m as [[mx my]|]; reflexivity.
  - unfold SteeringLogicMain.stop_steering.
    destruct (negb (SteeringLogicMain.is_steering s)); reflexivity.
  - reflexivity.
Qed.

Lemma core_step_keeps_total (s : CoreLogic.SteeringLogic T)
    (c : CoreLogic.call) :
  core_turns c = false ->
  CoreLogic.total_accumulated_degrees (fst (core_step s c))
  = CoreLogic.total_accumulated_degrees s.
Proof.
  destruct c as [cx cy m | m | | x y | m | v]; cbn [core_turns];
    try discriminate; intros _; cbn [CoreLogic.step].
  - reflexivity.
  - unfold CoreLogic.start.
    destruct (CoreLogic.is_steering s); [reflexivity|].
    destruct (negb (CoreLogic.vjoy_device s)); [reflexivity|].
    destruct (is_None (CoreLogic.screen_center_x s)
              || is_None (CoreLogic.screen_center_y s)); reflexivity.
  - unfold CoreLogic.stop.
    destruct (negb (CoreLogic.is_steering s)); reflexivity.
  - reflexivity.
Qed.

Lemma main_stop_not_steering (s : SteeringLogicMain.SteeringLogic T) :
  SteeringLogicMain.is_steering (fst (SteeringLogicMain.stop_steering s))
  = false.
Proof.
  unfold SteeringLogicMain.stop_steering.
  destruct (SteeringLogicMain.is_steering s) eqn:St; [reflexivity|exact St].
Qed.

Lemma core_stop_not_steering (s : CoreLogic.SteeringLogic T) :
  CoreLogic.is_steering (fst (CoreLogic.stop s)) = false.
Proof.
  unfold CoreLogic.stop.
  destruct (CoreLogic.is_steering s) eqn:St; [reflexivity|exact St].
Qed.

(** X3.  Of the calls the GUI and the listener make, only a pointer event
    and recentring change the accumulated degrees: any sequence of the other
    calls (setting the screen center, starting, stopping, changing the
    sensitivity) ends with the accumulated degrees it began with.  In both
    variants. *)
Theorem only_events_and_recentring_turn_the_wheel :
  (forall s cs,
     Forall (fun c => main_turns c = false) cs ->
     SteeringLogicMain.total_accumulated_degrees
       (fst (SteeringLogicMain.run atan2_degrees math_sqrt s cs))
     = SteeringLogicMain.total_accumulated_degrees s) /\
  (forall s cs,
     Forall (fun c => core_turns c = false) cs ->
     CoreLogic.total_accumulated_degrees
       (fst (CoreLogic.run atan2_degrees math_sqrt s cs))
     = CoreLogic.total_accumulated_degrees s).
Proof.
  split.
  - intros s cs F. revert s. induction F as [|c cs Hc F IH]; intros s;
      [reflexivity|].
    rewrite main_run_cons. cbn [fst]. rewrite IH.
    now apply main_step_keeps_total.
  - intros s cs F. revert s. induction F as [|c cs Hc F IH]; intros s;
      [reflexivity|].
    rewrite core_run_cons. cbn [fst]. rewrite IH.
    now apply core_step_keeps_total.
Qed.

(** X4.  A session that is stopped and started again resumes with the
    accumulated degrees it was stopped with: stopping keeps them, the events
    that arrive in between are dropped, and starting does not reset them.
    In both variants, from any object. *)
Theorem a_session_resumes_where_it_stopped :
  (forall s evs mouse,
     SteeringLogicMain.total_accumulated_degrees
       (fst (SteeringLogicMain.run atan2_degrees math_sqrt s
               (SteeringLogicMain.StopSteering :: main_moves evs
                ++ [SteeringLogicMain.StartSteering mouse])))
     = SteeringLogicMain.total_accumulated_degrees s) /\
  (forall s evs mouse,
     CoreLogic.total_accumulated_degrees
       (fst (CoreLogic.run atan2_degrees math_sqrt s
               (CoreLogic.Stop :: core_moves evs ++ [CoreLogic.Start mouse])))
     = CoreLogic.total_accumulated_degrees s).
Proof.
  split; intros s evs mouse.
  - rewrite main_run_cons. cbn [fst]. rewrite main_run_app. cbn [fst].
    cbn [SteeringLogicMain.step].
    rewrite (@main_moves_idle evs _ (main_stop_not_steering s)). cbn [fst].
    rewrite main_run_cons. cbn [fst SteeringLogicMain.run].
    rewrite (@main_step_keeps_total _ (SteeringLogicMain.StartSteering mouse))
      by reflexivity.
    now apply (@main_step_keeps_total s SteeringLogicMain.StopSteering).
  - rewrite core_run_cons. cbn [fst]. rewrite core_run_app. cbn [fst].
    cbn [CoreLogic.step].
    rewrite (@core_moves_idle evs _ (core_stop_not_steering s)). cbn [fst].
    rewrite core_run_cons. cbn [fst CoreLogic.run].
    rewrite (@core_step_keeps_total _ (CoreLogic.Start mouse)) by reflexivity.
    now apply (@core_step_keeps_total s CoreLogic.Stop).
Qed.

(** *** Starting *)

(** X5.  Starting never writes to the axis, and starting twice leaves the
    object the first start left, wherever the pointer is the second time:
    the second call of [steering_logic.py] has no effect at all once the
    first one has set [is_steering], that of [core_logic.py] only reports
    "Already steering." *)
Theorem starting_twice_is_starting_once :
  (forall s mouse mouse',
     let s1 := fst (SteeringLogicMain.start_steering atan2_degrees s mouse) in
     sink_writes (snd (SteeringLogicMain.start_steering atan2_degrees s mouse))
     = [] /\
     fst (SteeringLogicMain.start_steering atan2_degrees s1 mouse') = s1 /\
     (SteeringLogicMain.is_steering s1 = true ->
      SteeringLogicMain.start_steering atan2_degrees s1 mouse' = (s1, []))) /\
  (forall s mouse mouse',
     let s1 := fst (CoreLogic.start atan2_degrees s mouse) in
     sink_writes (snd (CoreLogic.start atan2_degrees s mouse)) = [] /\
     fst (CoreLogic.start atan2_degrees s1 mouse') = s1 /\
     (CoreLogic.is_steering s1 = true ->
      CoreLogic.start atan2_degrees s1 mouse'
      = (s1, [Notify Status AlreadySteering]))).
Proof.
  split; intros s mouse mouse'.
  - destruct s as [cb sens maxd thr cthr raw prev total dir off vel pvel acc
                   [cx|] [cy|] hist [|] lst [|]];
      destruct cb, mouse as [[mx my]|];
      (split; [reflexivity|]); (split; [reflexivity|]);
      cbn; intros E; try discriminate; reflexivity.
  - destruct s as [cb sens maxd thr cthr raw prev total dir off vel pvel acc
                   [cx|] [cy|] hist [|] lst [|] msg];
      destruct mouse as [[mx my]|];
      (split; [reflexivity|]); (split; [reflexivity|]);
      cbn; intros E; try discriminate; reflexivity.
Qed.

(** *** The listener and the smoothing window *)

Lemma deque_append_length (d : deque T) (a : T) :
  length (items (deque_append d a))
  = if (maxlen d <? S (length (items d)))%nat
    then length (items d) else S (length (items d)).
Proof.
  unfold deque_append. cbn [items]. rewrite length_app. cbn [length].
  rewrite Nat.add_1_r.
  destruct (maxlen d <? S (length (items d)))%nat.
  - destruct (items d); [reflexivity|].
    cbn [app tl length]. rewrite length_app. cbn [length]. lia.
  - rewrite length_app. cbn [length]. lia.
Qed.

Lemma deque_refill_length (d : deque T) (n : nat) (a : T) :
  length (items (deque_refill d n a)) = Nat.min n (maxlen d).
Proof.
  rewrite deque_refill_repeat. cbn [items]. apply repeat_length.
Qed.

(* Closes the cases of the invariants below in which the window is
   refilled or left alone. *)
Ltac inv_done :=
  constructor; cbn; intros;
  rewrite ?deque_refill_length; unfold CoreLogic.maxlen_or_1;
  repeat match goal with
         | E : maxlen _ = _ |- _ => rewrite E
         end; cbn;
  try solve [intuition (auto; congruence)].

Record main_session_invariant (s : SteeringLogicMain.SteeringLogic T)
    : Prop := MainSessionInvariant {
  msi_listener :
    SteeringLogicMain.mouse_listener s = true ->
    SteeringLogicMain.is_steering s = true;
  msi_full :
    SteeringLogicMain.mouse_listener s = true ->
    length (items (SteeringLogicMain.angle_history s)) = 5%nat;
  msi_length :
    (length (items (SteeringLogicMain.angle_history s)) <= 5)%nat
}.

Lemma main_session_invariant_step (s : SteeringLogicMain.SteeringLogic T)
    (c : SteeringLogicMain.call) :
  MainFacts.well_formed s -> main_session_invariant s ->
  main_session_invariant (fst (main_step s c)).
Proof.
  intros W [I1 I2 I3]. pose proof (MainFacts.wf_maxlen W) as Ml.
  destruct c as [cx cy m | m | | x y | m | v]; cbn [SteeringLogicMain.step].
  - unfold SteeringLogicMain.set_screen_center.
    destruct m as [[mx my]|]; inv_done.
  - unfold SteeringLogicMain.start_steering.
    destruct (SteeringLogicMain.is_steering s) eqn:St; [inv_done|].
    destruct (negb (SteeringLogicMain.vjoy_device s)); [inv_done|].
    destruct (is_None (SteeringLogicMain.screen_center_x s)
              || is_None (SteeringLogicMain.screen_center_y s)); [inv_done|].
    destruct m as [[mx my]|]; inv_done.
  - unfold SteeringLogicMain.stop_steering.
    destruct (SteeringLogicMain.is_steering s) eqn:St; inv_done.
  - destruct (SteeringLogicMain.is_steering s) eqn:St;
      [|rewrite (MainFacts.on_move_idle atan2_degrees math_sqrt s x y St);
        inv_done].
    pose proof (MainFacts.wf_pivot_x W St) as Px.
    pose proof (MainFacts.wf_pivot_xy W) as Pxy. rewrite Px in Pxy.
    destruct (SteeringLogicMain.screen_center_x s) as [cx|] eqn:Ex;
      [|discriminate].
    destruct (SteeringLogicMain.screen_center_y s) as [cy|] eqn:Ey;
      [|discriminate].
    destruct (MainFacts.on_move_processed atan2_degrees math_sqrt
                s x y St Ex Ey) as (_ & _ & Hh & _).
    destruct (MainFacts.on_move_config atan2_degrees math_sqrt s x y)
      as (_ & _ & _ & _ & _ & _ & _ & _ & Hs).
    assert (Hl : SteeringLogicMain.mouse_listener
                   (fst (SteeringLogicMain.on_move atan2_degrees math_sqrt
                           s x y))
                 = SteeringLogicMain.mouse_listener s).
    { unfold SteeringLogicMain.on_move. rewrite St, Ex, Ey. cbn.
      now destruct (SteeringLogicMain.accumulate s _ _). }
    constructor; rewrite ?Hl, ?Hs, ?Hh, ?deque_append_length, ?Ml.
    + auto.
    + intros L. rewrite (I2 L). reflexivity.
    + destruct (Nat.ltb_spec 5 (S (length
                 (items (SteeringLogicMain.angle_history s))))); lia.
  - unfold SteeringLogicMain.reset_steering_view. inv_done.
  - inv_done.
Qed.

Lemma main_reachable_session_invariant
    (s : SteeringLogicMain.SteeringLogic T) :
  main_reachable s -> main_session_invariant s.
Proof.
  induction 1 as [app_cb vjoy_ok | s c R IH].
  - constructor; cbn; auto; try discriminate; lia.
  - apply main_session_invariant_step; [|exact IH].
    exact (MainFacts.reachable_well_formed R).
Qed.

Record core_session_invariant (s : CoreLogic.SteeringLogic T)
    : Prop := CoreSessionInvariant {
  csi_listener : CoreLogic.mouse_listener s = CoreLogic.is_steering s;
  csi_window :
    is_None (CoreLogic.screen_center_x s) = false ->
    length (items (CoreLogic.angle_history s)) = 5%nat;
  csi_length :
    length (items (CoreLogic.angle_history s)) = 0%nat \/
    length (items (CoreLogic.angle_history s)) = 5%nat
}.

Lemma core_session_invariant_step (s : CoreLogic.SteeringLogic T)
    (c : CoreLogic.call) :
  CoreFacts.well_formed s -> core_session_invariant s ->
  core_session_invariant (fst (core_step s c)).
Proof.
  intros W [I1 I2 I3]. pose proof (CoreFacts.wf_maxlen W) as Ml.
  destruct c as [cx cy m | m | | x y | m | v]; cbn [CoreLogic.step].
  - unfold CoreLogic.set_screen_center. inv_done.
  - unfold CoreLogic.start.
    destruct (CoreLogic.is_steering s) eqn:St; [inv_done|].
    destruct (negb (CoreLogic.vjoy_device s)); [inv_done|].
    destruct (is_None (CoreLogic.screen_center_x s)
              || is_None (CoreLogic.screen_center_y s)); inv_done.
  - unfold CoreLogic.stop.
    destruct (CoreLogic.is_steering s) eqn:St; inv_done.
  - destruct (CoreLogic.is_steering s) eqn:St;
      [|rewrite (CoreFacts.core_on_move_idle atan2_degrees math_sqrt s x y St);
        inv_done].
    pose proof (CoreFacts.wf_pivot_x W St) as Px.
    pose proof (CoreFacts.wf_pivot_xy W) as Pxy. rewrite Px in Pxy.
    destruct (CoreLogic.screen_center_x s) as [cx|] eqn:Ex; [|discriminate].
    destruct (CoreLogic.screen_center_y s) as [cy|] eqn:Ey; [|discriminate].
    destruct (CoreFacts.core_on_move_processed atan2_degrees math_sqrt
                s x y St Ex Ey) as (_ & _ & Hh & _).
    destruct (CoreFacts.core_on_move_config atan2_degrees math_sqrt s x y)
      as (_ & _ & _ & _ & _ & _ & _ & Hs).
    assert (Hl : CoreLogic.mouse_listener
                   (fst (fst (CoreLogic._on_move_handler atan2_degrees
                                math_sqrt s x y)))
                 = CoreLogic.mouse_listener s).
    { unfold CoreLogic._on_move_handler. rewrite St, Ex, Ey. cbn.
      now destruct (CoreLogic.accumulate s _ _). }
    assert (L5 : length (items (deque_append (CoreLogic.angle_history s)
                   (atan2_degrees (y - cy)%Z (x - cx)%Z))) = 5%nat).
    { rewrite deque_append_length, Ml, (I2 eq_refl). reflexivity. }
    constructor; rewrite ?Hl, ?Hs, ?Hh, ?St; auto.
  - unfold CoreLogic.recenter_view. inv_done.
  - inv_done.
Qed.

Lemma core_reachable_session_invariant (s : CoreLogic.SteeringLogic T) :
  core_reachable s -> core_session_invariant s.
Proof.
  induction 1 as [gui_cb vjoy_ok | s c R IH].
  - constructor; cbn; auto; try discriminate; lia.
  - apply core_session_invariant_step; [|exact IH].
    exact (CoreFacts.core_reachable_well_formed R).
Qed.

(** X6.  A listener is attached only while the object is steering: in
    [steering_logic.py] an attached listener implies [is_steering], in
    [core_logic.py] the two go together.  On every object the program can
    hold. *)
Theorem listener_is_attached_only_while_steering :
  (forall s,
     SteeringLogicMain.reachable atan2_degrees math_sqrt s ->
     SteeringLogicMain.mouse_listener s = true ->
     SteeringLogicMain.is_steering s = true) /\
  (forall s,
     CoreLogic.reachable atan2_degrees math_sqrt s ->
     CoreLogic.mouse_listener s = CoreLogic.is_steering s).
Proof.
  split; intros s R.
  - exact (msi_listener (main_reachable_session_invariant R)).
  - exact (csi_listener (core_reachable_session_invariant R)).
Qed.

(** X7.  The smoothing window never holds more than
    [ANGLE_SMOOTHING_FACTOR] = 5 angles.  In [steering_logic.py] it holds
    exactly five whenever a listener is attached; in [core_logic.py] it is
    either empty or full, and full whenever the screen center is set, so
    during every session. *)
Theorem smoothing_window_is_full_in_a_session :
  (forall s,
     SteeringLogicMain.reachable atan2_degrees math_sqrt s ->
     (length (items (SteeringLogicMain.angle_history s)) <= 5)%nat /\
     (SteeringLogicMain.mouse_listener s = true ->
      length (items (SteeringLogicMain.angle_history s)) = 5%nat)) /\
  (forall s,
     CoreLogic.reachable atan2_degrees math_sqrt s ->
     (length (items (CoreLogic.angle_history s)) = 0%nat \/
      length (items (CoreLogic.angle_history s)) = 5%nat) /\
     (CoreLogic.screen_center_x s <> None ->
      length (items (CoreLogic.angle_history s)) = 5%nat) /\
     (CoreLogic.is_steering s = true ->
      length (items (CoreLogic.angle_history s)) = 5%nat)).
Proof.
  split; intros s R.
  - destruct (main_reachable_session_invariant R) as [_ I2 I3]. now split.
  - destruct (core_reachable_session_invariant R) as [_ I2 I3].
    pose proof (CoreFacts.core_reachable_well_formed R) as W.
    split; [exact I3|]. split.
    + intros N. apply I2. now destruct (CoreLogic.screen_center_x s).
    + intros St. apply I2. exact (CoreFacts.wf_pivot_x W St).
Qed.

(** X8.  When the pointer position cannot be read at the start of a
    session.  [steering_logic.py] has already set [is_steering] when the
    read raises: the exception leaves [start_steering] with the object
    marked as steering but with no listener attached and the smoother not
    seeded, and every later [start_steering] returns at once.
    [core_logic.py] guards the read: it seeds the smoother with five copies
    of 0.0 and starts the session. *)
Theorem start_when_the_pointer_cannot_be_read :
  (forall s,
     SteeringLogicMain.reachable atan2_degrees math_sqrt s ->
     SteeringLogicMain.is_steering s = false ->
     SteeringLogicMain.vjoy_device s = true ->
     SteeringLogicMain.screen_center_x s <> None ->
     let r := SteeringLogicMain.start_steering atan2_degrees s None in
     raised (snd r) = true /\
     SteeringLogicMain.is_steering (fst r) = true /\
     SteeringLogicMain.mouse_listener (fst r) = false /\
     SteeringLogicMain.angle_history (fst r)
     = SteeringLogicMain.angle_history s /\
     SteeringLogicMain.previous_smoothed_angle (fst r)
     = SteeringLogicMain.previous_smoothed_angle s /\
     forall mouse,
       SteeringLogicMain.start_steering atan2_degrees (fst r) mouse
       = (fst r, [])) /\
  (forall s,
     CoreLogic.reachable atan2_degrees math_sqrt s ->
     CoreLogic.is_steering s = false ->
     CoreLogic.vjoy_device s = true ->
     CoreLogic.screen_center_x s <> None ->
     let r := CoreLogic.start atan2_degrees s None in
     snd r = [Notify Status SteeringActive] /\
     CoreLogic.is_steering (fst r) = true /\
     CoreLogic.mouse_listener (fst r) = true /\
     items (CoreLogic.angle_history (fst r)) = repeat #0 5 /\
     CoreLogic.previous_smoothed_angle (fst r) = #0).
Proof.
  split; intros s R St V Cx.
  - pose proof (MainFacts.reachable_well_formed R) as W.
    pose proof (msi_listener (main_reachable_session_invariant R)) as L.
    assert (Px : is_None (SteeringLogicMain.screen_center_x s) = false)
      by now destruct (SteeringLogicMain.screen_center_x s).
    pose proof (MainFacts.wf_pivot_xy W) as Pxy. rewrite Px in Pxy.
    assert (Li : SteeringLogicMain.mouse_listener s = false).
    { destruct (SteeringLogicMain.mouse_listener s); [|reflexivity].
      rewrite (L eq_refl) in St. discriminate. }
    unfold SteeringLogicMain.start_steering at 1.
    rewrite St, V, Px, Pxy. cbn [negb orb fst snd].
    repeat split; try reflexivity; try exact Li.
  - pose proof (CoreFacts.core_reachable_well_formed R) as W.
    assert (Px : is_None (CoreLogic.screen_center_x s) = false)
      by now destruct (CoreLogic.screen_center_x s).
    pose proof (CoreFacts.wf_pivot_xy W) as Pxy. rewrite Px in Pxy.
    unfold CoreLogic.start. rewrite St, V, Px, Pxy. cbn.
    rewrite deque_refill_repeat. unfold CoreLogic.maxlen_or_1.
    rewrite (CoreFacts.wf_maxlen W). repeat split; reflexivity.
Qed.

(** *** What a processed event writes and reports *)

(* The dict [on_move] hands to the callback, read from the object it
   leaves. *)
Definition main_report (s : SteeringLogicMain.SteeringLogic T) (axis : Z)
    : gui_data T :=
  {| gui_offset := SteeringLogicMain.current_offset s;
     gui_raw_angle := SteeringLogicMain.current_raw_angle s;
     gui_smoothed_angle := SteeringLogicMain.previous_smoothed_angle s;
     gui_total_accumulated_degrees :=
       SteeringLogicMain.total_accumulated_degrees s;
     gui_rotation_direction := SteeringLogicMain.rotation_direction s;
     gui_angular_velocity := SteeringLogicMain.angular_velocity s;
     gui_angular_acceleration := SteeringLogicMain.angular_acceleration s;
     gui_vjoy_axis_value := axis;
     gui_is_steering := None |}.

(** X9.  An event processed during a session writes the axis exactly once,
    and the value it reports to the GUI is the value it wrote, computed from
    the accumulated degrees the event leaves; the other entries of the
    report are the fields of the object the event leaves.  In both variants;
    the handler of [core_logic.py] returns [True], which keeps the listener
    running. *)
Theorem a_processed_event_reports_what_it_wrote :
  (forall s x y,
     SteeringLogicMain.reachable atan2_degrees math_sqrt s ->
     SteeringLogicMain.is_steering s = true ->
     let r := SteeringLogicMain.on_move atan2_degrees math_sqrt s x y in
     let axis :=
       SteeringLogicMain.axis_of s
         (SteeringLogicMain.total_accumulated_degrees (fst r)) in
     snd r = SetAxis axis
             :: SteeringLogicMain.callback s
                  (Update (main_report (fst r) axis)))
  /\
  (forall s x y,
     CoreLogic.reachable atan2_degrees math_sqrt s ->
     CoreLogic.is_steering s = true ->
     let r := CoreLogic._on_move_handler atan2_degrees math_sqrt s x y in
     let s' := fst (fst r) in
     snd (fst r)
     = [SetAxis (CoreLogic.axis_of s'); Update (CoreFacts.snapshot s')] /\
     gui_vjoy_axis_value (CoreFacts.snapshot s') = CoreLogic.axis_of s' /\
     snd r = true).
Proof.
  split; intros s x y R St.
  - pose proof (MainFacts.reachable_well_formed R) as W.
    pose proof (MainFacts.wf_sink W St) as V.
    pose proof (MainFacts.wf_pivot_x W St) as Px.
    pose proof (MainFacts.wf_pivot_xy W) as Pxy. rewrite Px in Pxy.
    destruct (SteeringLogicMain.screen_center_x s) as [cx|] eqn:Ex;
      [|discriminate].
    destruct (SteeringLogicMain.screen_center_y s) as [cy|] eqn:Ey;
      [|discriminate].
    unfold SteeringLogicMain.on_move. rewrite St, Ex, Ey, V.
    cbn [negb orb is_None].
    destruct (SteeringLogicMain.accumulate s _ _) as [dir total].
    reflexivity.
  - pose proof (CoreFacts.core_reachable_well_formed R) as W.
    pose proof (CoreFacts.wf_sink W St) as V.
    pose proof (CoreFacts.wf_pivot_x W St) as Px.
    pose proof (CoreFacts.wf_pivot_xy W) as Pxy. rewrite Px in Pxy.
    destruct (CoreLogic.screen_center_x s) as [cx|] eqn:Ex; [|discriminate].
    destruct (CoreLogic.screen_center_y s) as [cy|] eqn:Ey; [|discriminate].
    unfold CoreLogic._on_move_handler. rewrite St, Ex, Ey, V.
    cbn [negb orb is_None].
    destruct (CoreLogic.accumulate s _ _) as [dir total].
    cbn. rewrite V. repeat split; reflexivity.
Qed.

(** *** The sensitivity slider of the standalone GUI *)

Lemma core_on_move_sensitivity (s : CoreLogic.SteeringLogic T) (v : T)
    (x y : Z) :
  core_step (fst (CoreLogic.set_sensitivity s v)) (CoreLogic.OnMove x y)
  = (fst (CoreLogic.set_sensitivity
            (fst (core_step s (CoreLogic.OnMove x y))) v),
     snd (core_step s (CoreLogic.OnMove x y))).
Proof.
  destruct s as [cb sens maxd thr cthr raw prev total dir off vel pvel acc
                 [cx|] [cy|] hist vjoy lst [|] msg]; try reflexivity.
  cbn [CoreLogic.step].
  unfold CoreLogic._on_move_handler, CoreLogic._calculate_raw_angle,
    CoreLogic.accumulate.
  cbn -[deque_append deque_sum deque_len CoreLogic.wrap_delta
        CoreLogic.clamp_degrees CoreLogic.axis_of Z.pow].
  repeat match goal with
         | |- context [if num_ltb ?a ?b then _ else _] =>
             destruct (num_ltb a b)
         end; reflexivity.
Qed.

Lemma core_moves_sensitivity (evs : list (Z * Z))
    (s : CoreLogic.SteeringLogic T) (v : T) :
  core_run (fst (CoreLogic.set_sensitivity s v)) (core_moves evs)
  = (fst (CoreLogic.set_sensitivity (fst (core_run s (core_moves evs))) v),
     snd (core_run s (core_moves evs))).
Proof.
  revert s. induction evs as [|[x y] evs IH]; intros s; [reflexivity|].
  unfold core_moves. cbn [map fst snd]. fold (core_moves (T:=T) evs).
  rewrite !core_run_cons. rewrite core_on_move_sensitivity. cbn [fst snd].
  rewrite IH. reflexivity.
Qed.

(** X10.  Moving the sensitivity slider of the standalone GUI to [value]
    stores [value / 10.0] in the object, reports it, and writes nothing to
    the axis; and it changes nothing else: a run of pointer events from the
    object with the new sensitivity ends in the object the same run reaches
    with the old one, but for the stored sensitivity, with the same axis
    writes and the same reports. *)
Theorem the_sensitivity_slider_is_inert
    (logic : CoreLogic.SteeringLogic T) (value : Z) (evs : list (Z * Z)) :
  let v := num_div #value #10 in
  let r := MainApp.on_sensitivity_changed logic value in
  CoreLogic.sensitivity (fst r) = v /\
  snd r = [Notify Status (SensitivityIs v)] /\
  CoreLogic.run atan2_degrees math_sqrt (fst r) (core_moves evs)
  = (fst (CoreLogic.set_sensitivity
            (fst (CoreLogic.run atan2_degrees math_sqrt logic
                    (core_moves evs))) v),
     snd (CoreLogic.run atan2_degrees math_sqrt logic (core_moves evs))).
Proof.
  cbv zeta. unfold MainApp.on_sensitivity_changed.
  split; [reflexivity|]. split; [reflexivity|].
  apply core_moves_sensitivity.
Qed.

(** *** The steering buttons of the two GUIs *)

(** X11.  The steering button of the Tk GUI ([toggle_steering]) and that of
    the standalone GUI ([on_toggle_steering]).  With the device acquired,
    the screen center set and the pointer readable, the Tk button switches
    [is_steering] to its opposite; without the device it shows its error
    box and leaves the object alone.  The standalone button, checked, sets
    the screen center to the middle of the screen and starts the session
    when the device is acquired, and reports the error otherwise; unchecked,
    it leaves the object not steering.  Neither button changes the
    accumulated degrees. *)
Theorem the_steering_button_switches_the_session :
  (forall s mouse,
     SteeringLogicMain.reachable atan2_degrees math_sqrt s ->
     SteeringLogicMain.vjoy_device s = true ->
     SteeringLogicMain.screen_center_x s <> None ->
     let r := MouseSteeringApp.toggle_steering atan2_degrees s (Some mouse) in
     SteeringLogicMain.is_steering (fst (fst r))
     = negb (SteeringLogicMain.is_steering s) /\
     SteeringLogicMain.total_accumulated_degrees (fst (fst r))
     = SteeringLogicMain.total_accumulated_degrees s /\
     snd r = false) /\
  (forall s mouse,
     SteeringLogicMain.reachable atan2_degrees math_sqrt s ->
     SteeringLogicMain.vjoy_device s = false ->
     MouseSteeringApp.toggle_steering atan2_degrees s mouse = (s, [], true)) /\
  (forall s width height mouse1 mouse2,
     CoreLogic.is_steering s = false ->
     let r := MainApp.on_toggle_steering atan2_degrees s true
                (Some (width, height)) mouse1 mouse2 in
     CoreLogic.screen_center_x (fst r) = Some (width / 2)%Z /\
     CoreLogic.screen_center_y (fst r) = Some (height / 2)%Z /\
     CoreLogic.is_steering (fst r) = CoreLogic.vjoy_device s /\
     CoreLogic.total_accumulated_degrees (fst r)
     = CoreLogic.total_accumulated_degrees s /\
     snd r = [if CoreLogic.vjoy_device s
              then Notify Status SteeringActive
              else Notify Error VjoyNotAvailable]) /\
  (forall s screen mouse1 mouse2,
     let r := MainApp.on_toggle_steering atan2_degrees s false
                screen mouse1 mouse2 in
     CoreLogic.is_steering (fst r) = false /\
     CoreLogic.total_accumulated_degrees (fst r)
     = CoreLogic.total_accumulated_degrees s).
Proof.
  split; [|split; [|split]].
  - intros s mouse R V Cx.
    pose proof (MainFacts.reachable_well_formed R) as W.
    assert (Px : is_None (SteeringLogicMain.screen_center_x s) = false)
      by now destruct (SteeringLogicMain.screen_center_x s).
    pose proof (MainFacts.wf_pivot_xy W) as Pxy. rewrite Px in Pxy.
    unfold MouseSteeringApp.toggle_steering.
    destruct (SteeringLogicMain.is_steering s) eqn:St.
    + cbn [fst snd]. rewrite main_stop_not_steering.
      repeat split.
      exact (@main_step_keeps_total s SteeringLogicMain.StopSteering eq_refl).
    + rewrite V. cbn [negb fst snd].
      split; [|split; [|reflexivity]].
      * unfold SteeringLogicMain.start_steering.
        rewrite St, V, Px, Pxy. now destruct mouse.
      * exact (@main_step_keeps_total s
                 (SteeringLogicMain.StartSteering (Some mouse)) eq_refl).
  - intros s mouse R V.
    pose proof (MainFacts.reachable_well_formed R) as W.
    destruct (MainFacts.start_steering_no_sink atan2_degrees mouse W V)
      as [_ St].
    unfold MouseSteeringApp.toggle_steering. now rewrite St, V.
  - intros s width height mouse1 mouse2 St.
    unfold MainApp.on_toggle_steering, CoreLogic.set_screen_center,
      CoreLogic.start.
    cbn. rewrite St. destruct (CoreLogic.vjoy_device s); cbn;
      repeat split; reflexivity.
  - intros s screen mouse1 mouse2. unfold MainApp.on_toggle_steering.
    split; [apply core_stop_not_steering|].
    exact (@core_step_keeps_total s CoreLogic.Stop eq_refl).
Qed.

End SessionFacts.

(** ** Sessions in exact arithmetic *)

Section ExactSessionFacts.
Variable atan2_degrees : Z -> Z -> Q.
Variable math_sqrt : Z -> Q.
Local Open Scope Q_scope.

Local Notation main_step := (SteeringLogicMain.step atan2_degrees math_sqrt).
Local Notation main_run := (SteeringLogicMain.run atan2_degrees math_sqrt).
Local Notation main_reachable :=
  (SteeringLogicMain.reachable atan2_degrees math_sqrt).
Local Notation main_on_move :=
  (SteeringLogicMain.on_move atan2_degrees math_sqrt).
Local Notation core_step := (CoreLogic.step atan2_degrees math_sqrt).
Local Notation core_run := (CoreLogic.run atan2_degrees math_sqrt).
Local Notation core_reachable := (CoreLogic.reachable atan2_degrees math_sqrt).
Local Notation core_on_move :=
  (CoreLogic._on_move_handler atan2_degrees math_sqrt).

(** *** The smoothed angle is the mean of the window *)

Definition mean (d : deque Q) : Q := deque_sum d / deque_len d.

Definition settled (prev : Q) (d : deque Q) : Prop :=
  items d <> [] -> prev == mean d.

Lemma settled_refill (d : deque Q) (a : Q) :
  maxlen d = 5%nat -> settled a (deque_refill d 5 a).
Proof.
  intros Ml _. rewrite deque_refill_repeat, Ml. cbn [Nat.min].
  symmetry. apply (mean_repeat a (n:=5) 5). discriminate.
Qed.

Lemma main_step_settled (s : SteeringLogicMain.SteeringLogic Q)
    (c : SteeringLogicMain.call) :
  MainFacts.well_formed s ->
  settled (SteeringLogicMain.previous_smoothed_angle s)
    (SteeringLogicMain.angle_history s) ->
  settled (SteeringLogicMain.previous_smoothed_angle (fst (main_step s c)))
    (SteeringLogicMain.angle_history (fst (main_step s c))).
Proof.
  intros W S. pose proof (MainFacts.wf_maxlen W) as Ml.
  destruct c as [cx cy m | m | | x y | m | v]; cbn [SteeringLogicMain.step].
  - unfold SteeringLogicMain.set_screen_center.
    destruct m as [[mx my]|]; [|exact S].
    cbn [fst SteeringLogicMain.previous_smoothed_angle
         SteeringLogicMain.angle_history].
    rewrite Ml. now apply settled_refill.
  - unfold SteeringLogicMain.start_steering.
    destruct (SteeringLogicMain.is_steering s); [exact S|].
    destruct (negb (SteeringLogicMain.vjoy_device s)); [exact S|].
    destruct (is_None (SteeringLogicMain.screen_center_x s)
              || is_None (SteeringLogicMain.screen_center_y s)); [exact S|].
    destruct m as [[mx my]|]; [|exact S].
    cbn [fst SteeringLogicMain.previous_smoothed_angle
         SteeringLogicMain.angle_history].
    rewrite Ml. now apply settled_refill.
  - unfold SteeringLogicMain.stop_steering.
    destruct (negb (SteeringLogicMain.is_steering s)); exact S.
  - destruct (SteeringLogicMain.is_steering s) eqn:St;
      [|now rewrite (MainFacts.on_move_idle atan2_degrees math_sqrt s x y St)].
    pose proof (MainFacts.wf_pivot_x W St) as Px.
    pose proof (MainFacts.wf_pivot_xy W) as Pxy. rewrite Px in Pxy.
    destruct (SteeringLogicMain.screen_center_x s) as [cx|] eqn:Ex;
      [|discriminate].
    destruct (SteeringLogicMain.screen_center_y s) as [cy|] eqn:Ey;
      [|discriminate].
    destruct (MainFacts.on_move_processed atan2_degrees math_sqrt
                s x y St Ex Ey) as (_ & _ & Hh & Hp & _).
    rewrite Hh, Hp. intros _. reflexivity.
  - unfold SteeringLogicMain.reset_steering_view.
    cbn [fst SteeringLogicMain.previous_smoothed_angle
         SteeringLogicMain.angle_history].
    rewrite Ml. now apply settled_refill.
  - exact S.
Qed.

Lemma core_step_settled (s : CoreLogic.SteeringLogic Q) (c : CoreLogic.call) :
  CoreFacts.well_formed s ->
  settled (CoreLogic.previous_smoothed_angle s) (CoreLogic.angle_history s) ->
  settled (CoreLogic.previous_smoothed_angle (fst (core_step s c)))
    (CoreLogic.angle_history (fst (core_step s c))).
Proof.
  intros W S. pose proof (CoreFacts.wf_maxlen W) as Ml.
  assert (Ml1 : CoreLogic.maxlen_or_1 (CoreLogic.angle_history s) = 5%nat).
  { unfold CoreLogic.maxlen_or_1. now rewrite Ml. }
  destruct c as [cx cy m | m | | x y | m | v]; cbn [CoreLogic.step].
  - unfold CoreLogic.set_screen_center.
    cbn [fst CoreLogic.assign CoreLogic.previous_smoothed_angle
         CoreLogic.angle_history].
    rewrite Ml1. now apply settled_refill.
  - unfold CoreLogic.start.
    destruct (CoreLogic.is_steering s); [exact S|].
    destruct (negb (CoreLogic.vjoy_device s)); [exact S|].
    destruct (is_None (CoreLogic.screen_center_x s)
              || is_None (CoreLogic.screen_center_y s)); [exact S|].
    cbn [fst CoreLogic.assign CoreLogic.previous_smoothed_angle
         CoreLogic.angle_history].
    rewrite Ml1. now apply settled_refill.
  - unfold CoreLogic.stop.
    destruct (negb (CoreLogic.is_steering s)); exact S.
  - destruct (CoreLogic.is_steering s) eqn:St;
      [|now rewrite (CoreFacts.core_on_move_idle atan2_degrees math_sqrt
                       s x y St)].
    pose proof (CoreFacts.wf_pivot_x W St) as Px.
    pose proof (CoreFacts.wf_pivot_xy W) as Pxy. rewrite Px in Pxy.
    destruct (CoreLogic.screen_center_x s) as [cx|] eqn:Ex; [|discriminate].
    destruct (CoreLogic.screen_center_y s) as [cy|] eqn:Ey; [|discriminate].
    destruct (CoreFacts.core_on_move_processed atan2_degrees math_sqrt
                s x y St Ex Ey) as (_ & _ & Hh & Hp & _).
    rewrite Hh, Hp. intros _. reflexivity.
  - unfold CoreLogic.recenter_view.
    cbn [fst CoreLogic.assign CoreLogic.previous_smoothed_angle
         CoreLogic.angle_history].
    rewrite Ml1. now apply settled_refill.
  - exact S.
Qed.

Lemma main_reachable_settled (s : SteeringLogicMain.SteeringLogic Q) :
  main_reachable s ->
  settled (SteeringLogicMain.previous_smoothed_angle s)
    (SteeringLogicMain.angle_history s).
Proof.
  induction 1 as [app_cb vjoy_ok | s c R IH].
  - intros N. now contradiction N.
  - apply main_step_settled; [|exact IH].
    exact (MainFacts.reachable_well_formed R).
Qed.

Lemma core_reachable_settled (s : CoreLogic.SteeringLogic Q) :
  core_reachable s ->
  settled (CoreLogic.previous_smoothed_angle s) (CoreLogic.angle_history s).
Proof.
  induction 1 as [gui_cb vjoy_ok | s c R IH].
  - intros N. now contradiction N.
  - apply core_step_settled; [|exact IH].
    exact (CoreFacts.core_reachable_well_formed R).
Qed.

(** X12.  In exact arithmetic, on every object the program can hold, the
    previous smoothed angle is the mean of the angles in the smoothing
    window whenever the window is not empty: seeding fills the window with
    copies of the seed, and an event stores the mean it computed.  In both
    variants. *)
Theorem smoothed_angle_is_the_mean_of_the_window :
  (forall s,
     SteeringLogicMain.reachable atan2_degrees math_sqrt s ->
     items (SteeringLogicMain.angle_history s) <> [] ->
     SteeringLogicMain.previous_smoothed_angle s
     == mean (SteeringLogicMain.angle_history s)) /\
  (forall s,
     CoreLogic.reachable atan2_degrees math_sqrt s ->
     items (CoreLogic.angle_history s) <> [] ->
     CoreLogic.previous_smoothed_angle s == mean (CoreLogic.angle_history s)).
Proof.
  split; intros s R.
  - exact (main_reachable_settled R).
  - exact (core_reachable_settled R).
Qed.

(** *** The delta of an event with a full window *)

Lemma full_window_delta (d : deque Q) (prev raw : Q) :
  maxlen d = 5%nat -> length (items d) = 5%nat -> settled prev d ->
  Forall MainFacts.in_range (items d) -> MainFacts.in_range raw ->
  let diff := mean (deque_append d raw) - prev in
  diff == (raw - hd 0 (items d)) / 5 /\ -72 <= diff /\ diff <= 72.
Proof.
  intros Ml Len S F [R1 R2].
  destruct d as [its ml]. cbn [items maxlen] in *. subst ml.
  destruct its as [|a1 [|a2 [|a3 [|a4 [|a5 [|a6 its]]]]]]; try discriminate.
  assert (P : prev == (0 + a1 + a2 + a3 + a4 + a5) / 5).
  { apply S. discriminate. }
  cbv zeta. unfold mean, deque_append, deque_sum, deque_len.
  cbn [items maxlen app length Nat.ltb Nat.leb tl fold_left Z.of_nat
       Pos.of_succ_nat Pos.succ].
  exact_arith. change (inject_Z 5) with 5.
  cbn [hd].
  assert (E : (0 + a2 + a3 + a4 + a5 + raw) / 5 - prev == (raw - a1) / 5).
  { rewrite P. field. }
  inversion F as [|? ? [A1 A2] _]; subst.
  split; [exact E|]. rewrite E. split.
  - apply Qle_shift_div_l; lra.
  - apply Qle_shift_div_r; lra.
Qed.

Section FullWindow.
Hypothesis atan2_range :
  forall dy dx, MainFacts.in_range (atan2_degrees dy dx).

(** X13.  In exact arithmetic and with the angles of [atan2] in
    [-180, 180]: when the smoothing window is full, as it is during every
    session that has a listener, an event changes the smoothed angle by a
    fifth of the difference between its raw angle and the oldest angle of
    the window, so by 72 degrees at most.  The wrap-around correction at
    +-180 therefore never applies, and the velocity the event reports is
    that change.  In both variants. *)
Theorem a_full_window_moves_by_a_fifth :
  (forall s x y,
     SteeringLogicMain.reachable atan2_degrees math_sqrt s ->
     SteeringLogicMain.is_steering s = true ->
     SteeringLogicMain.mouse_listener s = true ->
     let s' := fst (SteeringLogicMain.on_move atan2_degrees math_sqrt s x y) in
     let oldest := hd 0 (items (SteeringLogicMain.angle_history s)) in
     SteeringLogicMain.angular_velocity s'
     = SteeringLogicMain.previous_smoothed_angle s'
       - SteeringLogicMain.previous_smoothed_angle s /\
     SteeringLogicMain.angular_velocity s'
     == (SteeringLogicMain.current_raw_angle s' - oldest) / 5 /\
     -72 <= SteeringLogicMain.angular_velocity s' /\
     SteeringLogicMain.angular_velocity s' <= 72) /\
  (forall s x y,
     CoreLogic.reachable atan2_degrees math_sqrt s ->
     CoreLogic.is_steering s = true ->
     let s' :=
       fst (fst (CoreLogic._on_move_handler atan2_degrees math_sqrt s x y)) in
     let oldest := hd 0 (items (CoreLogic.angle_history s)) in
     CoreLogic.angular_velocity s'
     == CoreLogic.previous_smoothed_angle s'
        - CoreLogic.previous_smoothed_angle s /\
     CoreLogic.angular_velocity s'
     == (CoreLogic.current_raw_angle s' - oldest) / 5 /\
     -72 <= CoreLogic.angular_velocity s' /\
     CoreLogic.angular_velocity s' <= 72).
Proof.
  split.
  - intros s x y R St Li.
    pose proof (MainFacts.reachable_well_formed R) as W.
    pose proof (msi_full (main_reachable_session_invariant R) Li) as Len.
    destruct (MainFacts.reachable_angles_in_range atan2_range R)
      as (_ & _ & F).
    pose proof (main_reachable_settled R) as S.
    pose proof (MainFacts.wf_pivot_x W St) as Px.
    pose proof (MainFacts.wf_pivot_xy W) as Pxy. rewrite Px in Pxy.
    destruct (SteeringLogicMain.screen_center_x s) as [cx|] eqn:Ex;
      [|discriminate].
    destruct (SteeringLogicMain.screen_center_y s) as [cy|] eqn:Ey;
      [|discriminate].
    destruct (MainFacts.on_move_processed atan2_degrees math_sqrt
                s x y St Ex Ey) as (_ & Hr & _ & Hp & Hv & _).
    destruct (full_window_delta (MainFacts.wf_maxlen W) Len S F
                (atan2_range (y - cy) (x - cx))) as (E & Lo & Hi).
    cbv zeta. rewrite Hv, Hp, Hr. exact_arith. fold (mean (deque_append
      (SteeringLogicMain.angle_history s) (atan2_degrees (y - cy) (x - cx)))).
    set (diff := mean _ - _) in *.
    destruct (MainFacts.wrap_delta_cases diff) as [[L _]|[[L _]|(_ & _ & Ew)]];
      try lra.
    rewrite Ew. repeat split; assumption.
  - intros s x y R St.
    pose proof (CoreFacts.core_reachable_well_formed R) as W.
    pose proof (CoreFacts.wf_pivot_x W St) as Px.
    pose proof (csi_window (core_reachable_session_invariant R) Px) as Len.
    destruct (CoreFacts.core_reachable_angles_in_range atan2_range R)
      as (_ & F).
    pose proof (core_reachable_settled R) as S.
    pose proof (CoreFacts.wf_pivot_xy W) as Pxy. rewrite Px in Pxy.
    destruct (CoreLogic.screen_center_x s) as [cx|] eqn:Ex; [|discriminate].
    destruct (CoreLogic.screen_center_y s) as [cy|] eqn:Ey; [|discriminate].
    destruct (CoreFacts.core_on_move_processed atan2_degrees math_sqrt
                s x y St Ex Ey) as (_ & Hr & _ & Hp & Hv & _).
    destruct (full_window_delta (CoreFacts.wf_maxlen W) Len S F
                (atan2_range (y - cy) (x - cx))) as (E & Lo & Hi).
    cbv zeta. rewrite Hv, Hp, Hr. exact_arith. fold (mean (deque_append
      (CoreLogic.angle_history s) (atan2_degrees (y - cy) (x - cx)))).
    set (diff := mean _ - _) in *.
    destruct (CoreFacts.core_wrap_delta_cases diff)
      as [[L _]|[[L _]|(_ & _ & Ew)]]; try lra.
    rewrite Ew.
    assert (D : diff / 1 == diff) by (field).
    rewrite D. repeat split; try assumption; reflexivity.
Qed.

End FullWindow.

(** *** The accumulation law *)

Lemma clamp_at_top (m t : Q) :
  0 <= m -> m <= t -> py_max (- m) (py_min m t) == m.
Proof.
  intros M L. unfold py_max, py_min. cbn [num_ltb ExactNumber].
  destruct (Qltb_cases t m) as [[E L']|[E L']]; rewrite E;
    match goal with
    | |- context [Qltb ?a ?b] =>
        destruct (Qltb_cases a b) as [[E1 L1]|[E1 L1]]; rewrite E1
    end; lra.
Qed.

Lemma clamp_at_bottom (m t : Q) :
  0 <= m -> t <= - m -> py_max (- m) (py_min m t) == - m.
Proof.
  intros M L. unfold py_max, py_min. cbn [num_ltb ExactNumber].
  destruct (Qltb_cases t m) as [[E L']|[E L']]; rewrite E;
    match goal with
    | |- context [Qltb ?a ?b] =>
        destruct (Qltb_cases a b) as [[E1 L1]|[E1 L1]]; rewrite E1
    end; lra.
Qed.

Lemma clamp_below (m t x : Q) :
  - m <= x -> t <= x -> py_max (- m) (py_min m t) <= x.
Proof.
  intros Hm Ht. unfold py_max, py_min. cbn [num_ltb ExactNumber].
  destruct (Qltb_cases t m) as [[E L]|[E L]]; rewrite E;
    match goal with
    | |- context [Qltb ?a ?b] =>
        destruct (Qltb_cases a b) as [[E' L']|[E' L']]; rewrite E'
    end; lra.
Qed.

(* What an event with the corrected delta [v] at the offset [off] makes of
   the accumulated degrees [t], as the design states it. *)
Definition accumulation_law (off v t : Q) (dir' : direction) (t' : Q)
    : Prop :=
  (off < 15 \/ (-1 <= v /\ v <= 1) -> dir' = DirNone /\ t' == t) /\
  (15 <= off -> 1 < v ->
   dir' = Clockwise /\
   (t + v <= 1080 -> t' == t + v) /\ (1080 <= t + v -> t' == 1080)) /\
  (15 <= off -> v < -1 ->
   dir' = Counterclockwise /\
   (-1080 <= t + v -> t' == t + v) /\ (t + v <= -1080 -> t' == -1080)).

Lemma accumulation_law_holds (off v t m : Q) (dir' : direction) (t' : Q)
    (acc : direction * Q) :
  m = 1080 -> - m <= t -> t <= m ->
  (off < 15 /\ acc = (DirNone, t) \/
   15 <= off /\ 1 < v /\ acc = (Clockwise, t + Qabs v) \/
   15 <= off /\ v <= 1 /\ v < - (1) /\ acc = (Counterclockwise, t - Qabs v) \/
   15 <= off /\ - (1) <= v /\ v <= 1 /\ acc = (DirNone, t)) ->
  dir' = fst acc -> t' = py_max (- m) (py_min m (snd acc)) ->
  accumulation_law off v t dir' t'.
Proof.
  intros Em Lo Hi Cases Ed Et. subst m dir' t'.
  assert (Pos : 0 <= v -> Qabs v == v) by apply Qabs_pos.
  assert (Neg : v <= 0 -> Qabs v == - v) by apply Qabs_neg.
  pose proof (@clamp_inside 1080 t) as In0.
  pose proof (@clamp_inside 1080 (t + Qabs v)) as In1.
  pose proof (@clamp_at_top 1080 (t + Qabs v)) as Top.
  pose proof (@clamp_inside 1080 (t - Qabs v)) as In2.
  pose proof (@clamp_at_bottom 1080 (t - Qabs v)) as Bot.
  unfold accumulation_law.
  destruct Cases
    as [[L E]|[(L & L1 & E)|[(L & L1 & L2 & E)|(L & L1 & L2 & E)]]];
    rewrite E; cbn [fst snd].
  - repeat split; intros; try reflexivity; lra.
  - specialize (Pos ltac:(lra)). repeat split; intros; try reflexivity; lra.
  - specialize (Neg ltac:(lra)). repeat split; intros; try reflexivity; lra.
  - repeat split; intros; try reflexivity; lra.
Qed.

(** X14.  In exact arithmetic, what an event processed during a session
    makes of the accumulated degrees [t], with [v] the velocity it reports
    and [off] its offset from the pivot.  Within 15 pixels of the pivot, or
    with [|v| <= 1], the direction is "None" and [t] is kept.  Otherwise the
    direction is Clockwise for [v > 1] and Counterclockwise for [v < -1],
    and the new value is [t + v], stopped at the lock of +-1080 degrees.
    In both variants. *)
Theorem an_event_adds_its_delta_up_to_the_lock :
  (forall s x y,
     SteeringLogicMain.reachable atan2_degrees math_sqrt s ->
     SteeringLogicMain.is_steering s = true ->
     let s' := fst (SteeringLogicMain.on_move atan2_degrees math_sqrt s x y) in
     accumulation_law (SteeringLogicMain.current_offset s')
       (SteeringLogicMain.angular_velocity s')
       (SteeringLogicMain.total_accumulated_degrees s)
       (SteeringLogicMain.rotation_direction s')
       (SteeringLogicMain.total_accumulated_degrees s')) /\
  (forall s x y,
     CoreLogic.reachable atan2_degrees math_sqrt s ->
     CoreLogic.is_steering s = true ->
     let s' :=
       fst (fst (CoreLogic._on_move_handler atan2_degrees math_sqrt s x y)) in
     accumulation_law (CoreLogic.current_offset s')
       (CoreLogic.angular_velocity s')
       (CoreLogic.total_accumulated_degrees s)
       (CoreLogic.rotation_direction s')
       (CoreLogic.total_accumulated_degrees s')).
Proof.
  split; intros s x y R St.
  - pose proof (MainFacts.reachable_well_formed R) as W.
    destruct (MainFacts.reachable_bounded R) as [Lo Hi].
    destruct (MainFacts.on_move_active atan2_degrees math_sqrt x y W St)
      as (cx & cy & _ & _ & _ & Hd & Ht).
    cbv zeta in *.
    pose proof (MainFacts.accumulate_cases s
                  (SteeringLogicMain.current_offset (fst (main_on_move s x y)))
                  (SteeringLogicMain.angular_velocity
                     (fst (main_on_move s x y)))) as Cases.
    rewrite (MainFacts.wf_threshold W), (MainFacts.wf_center W) in Cases.
    pose proof (MainFacts.wf_max_degrees W) as Md.
    exact_arith.
    exact (accumulation_law_holds Md Lo Hi Cases Hd Ht).
  - pose proof (CoreFacts.core_reachable_well_formed R) as W.
    destruct (CoreFacts.core_reachable_bounded R) as [Lo Hi].
    destruct (CoreFacts.core_on_move_active atan2_degrees math_sqrt x y W St)
      as (delta & Hv & Hd & Ht).
    cbv zeta in *.
    pose proof (CoreFacts.core_accumulate_cases s
                  (CoreLogic.current_offset (fst (fst (core_on_move s x y))))
                  delta) as Cases.
    rewrite (CoreFacts.wf_threshold W), (CoreFacts.wf_center W) in Cases.
    pose proof (CoreFacts.wf_max_degrees W) as Md.
    exact_arith.
    pose proof (accumulation_law_holds Md Lo Hi Cases Hd Ht) as Law.
    rewrite Hv. assert (D : delta / 1 == delta) by field.
    unfold accumulation_law in *. rewrite D. exact Law.
Qed.

(** *** Saturation at the counterclockwise lock *)

(* The events of a run are all classified Counterclockwise. *)
Fixpoint counterclockwise_run (s : SteeringLogicMain.SteeringLogic Q)
    (evs : list (Z * Z)) : Prop :=
  match evs with
  | [] => True
  | (x, y) :: evs' =>
      SteeringLogicMain.rotation_direction (fst (main_on_move s x y))
      = Counterclockwise /\
      counterclockwise_run (fst (main_on_move s x y)) evs'
  end.

Fixpoint core_counterclockwise_run (s : CoreLogic.SteeringLogic Q)
    (evs : list (Z * Z)) : Prop :=
  match evs with
  | [] => True
  | (x, y) :: evs' =>
      CoreLogic.rotation_direction (fst (fst (core_on_move s x y)))
      = Counterclockwise /\
      core_counterclockwise_run (fst (fst (core_on_move s x y))) evs'
  end.

Lemma counterclockwise_loses (s : SteeringLogicMain.SteeringLogic Q)
    (x y : Z) (b : Q) :
  MainFacts.well_formed s -> SteeringLogicMain.is_steering s = true ->
  SteeringLogicMain.rotation_direction (fst (main_on_move s x y))
  = Counterclockwise ->
  - SteeringLogicMain.max_degrees s <= b ->
  SteeringLogicMain.total_accumulated_degrees s - 1 <= b ->
  SteeringLogicMain.total_accumulated_degrees (fst (main_on_move s x y)) <= b.
Proof.
  intros W St Dir Bm Bt.
  destruct (MainFacts.on_move_active atan2_degrees math_sqrt x y W St)
    as (cx & cy & _ & _ & _ & Hd & Ht).
  rewrite Ht. rewrite Hd in Dir. clear Hd Ht.
  set (offset := SteeringLogicMain.current_offset _) in *.
  set (delta := SteeringLogicMain.angular_velocity _) in *.
  destruct (MainFacts.accumulate_cases s offset delta)
    as [[_ E]|[(_ & _ & E)|[(_ & _ & L & E)|(_ & _ & _ & E)]]];
    rewrite E in Dir |- *; try discriminate.
  cbn [snd]. unfold SteeringLogicMain.clamp_degrees.
  apply clamp_below; [exact Bm|].
  rewrite (MainFacts.wf_threshold W) in L. exact_arith.
  pose proof (Qle_Qabs (- delta)) as A. rewrite Qabs_opp in A. lra.
Qed.

Lemma counterclockwise_run_loses (evs : list (Z * Z))
    (s : SteeringLogicMain.SteeringLogic Q) (b : Q) :
  MainFacts.well_formed s -> SteeringLogicMain.is_steering s = true ->
  counterclockwise_run s evs ->
  - SteeringLogicMain.max_degrees s <= b ->
  SteeringLogicMain.total_accumulated_degrees s
  - inject_Z (Z.of_nat (length evs)) <= b ->
  SteeringLogicMain.total_accumulated_degrees
    (MainFacts.after_moves atan2_degrees math_sqrt s evs) <= b.
Proof.
  revert s b. induction evs as [|[x y] evs IH]; intros s b W St C Bm Bt.
  - cbn [length Z.of_nat] in Bt. exact_arith. unfold MainFacts.after_moves.
    cbn. lra.
  - destruct C as [Dir C]. rewrite MainFacts.after_moves_cons.
    destruct (MainFacts.on_move_config atan2_degrees math_sqrt s x y)
      as (_ & Hm & _ & _ & _ & _ & _ & _ & Hs).
    apply IH.
    + now apply MainFacts.well_formed_step
        with (c := SteeringLogicMain.OnMove x y).
    + now rewrite Hs.
    + exact C.
    + now rewrite Hm.
    + cbn [length] in Bt. rewrite Nat2Z.inj_succ in Bt. unfold Z.succ in Bt.
      rewrite inject_Z_plus in Bt. exact_arith.
      set (n := inject_Z (Z.of_nat (length evs))) in *.
      assert (N : 0 <= n).
      { subst n. change 0 with (inject_Z 0). rewrite <- Zle_Qle. lia. }
      assert (G : SteeringLogicMain.total_accumulated_degrees
                    (fst (main_on_move s x y)) <= b + n).
      { apply counterclockwise_loses; try assumption; lra. }
      lra.
Qed.

Lemma core_counterclockwise_loses (s : CoreLogic.SteeringLogic Q)
    (x y : Z) (b : Q) :
  CoreFacts.well_formed s -> CoreLogic.is_steering s = true ->
  CoreLogic.rotation_direction (fst (fst (core_on_move s x y)))
  = Counterclockwise ->
  - CoreLogic.max_degrees s <= b ->
  CoreLogic.total_accumulated_degrees s - 1 <= b ->
  CoreLogic.total_accumulated_degrees (fst (fst (core_on_move s x y))) <= b.
Proof.
  intros W St Dir Bm Bt.
  destruct (CoreFacts.core_on_move_active atan2_degrees math_sqrt x y W St)
    as (delta & _ & Hd & Ht).
  rewrite Ht. rewrite Hd in Dir. clear Hd Ht.
  set (offset := CoreLogic.current_offset _) in *.
  destruct (CoreFacts.core_accumulate_cases s offset delta)
    as [[_ E]|[(_ & _ & E)|[(_ & _ & L & E)|(_ & _ & _ & E)]]];
    rewrite E in Dir |- *; try discriminate.
  cbn [snd]. unfold CoreLogic.clamp_degrees.
  apply clamp_below; [exact Bm|].
  rewrite (CoreFacts.wf_threshold W) in L.
  change CoreLogic.DIRECTION_CHANGE_THRESHOLD_DEG with 1%Z in L. exact_arith.
  pose proof (Qle_Qabs (- delta)) as A. rewrite Qabs_opp in A. lra.
Qed.

Lemma core_counterclockwise_run_loses (evs : list (Z * Z))
    (s : CoreLogic.SteeringLogic Q) (b : Q) :
  CoreFacts.well_formed s -> CoreLogic.is_steering s = true ->
  core_counterclockwise_run s evs ->
  - CoreLogic.max_degrees s <= b ->
  CoreLogic.total_accumulated_degrees s
  - inject_Z (Z.of_nat (length evs)) <= b ->
  CoreLogic.total_accumulated_degrees
    (CoreFacts.core_after_moves atan2_degrees math_sqrt s evs) <= b.
Proof.
  revert s b. induction evs as [|[x y] evs IH]; intros s b W St C Bm Bt.
  - cbn [length Z.of_nat] in Bt. exact_arith.
    unfold CoreFacts.core_after_moves. cbn. lra.
  - destruct C as [Dir C]. rewrite CoreFacts.core_after_moves_cons.
    destruct (CoreFacts.core_on_move_config atan2_degrees math_sqrt s x y)
      as (Hm & _ & _ & _ & _ & _ & _ & Hs).
    apply IH.
    + now apply CoreFacts.core_well_formed_step
        with (c := CoreLogic.OnMove x y).
    + now rewrite Hs.
    + exact C.
    + now rewrite Hm.
    + cbn [length] in Bt. rewrite Nat2Z.inj_succ in Bt. unfold Z.succ in Bt.
      rewrite inject_Z_plus in Bt. exact_arith.
      set (n := inject_Z (Z.of_nat (length evs))) in *.
      assert (N : 0 <= n).
      { subst n. change 0 with (inject_Z 0). rewrite <- Zle_Qle. lia. }
      assert (G : CoreLogic.total_accumulated_degrees
                    (fst (fst (core_on_move s x y))) <= b + n).
      { apply core_counterclockwise_loses; try assumption; lra. }
      lra.
Qed.

(** X15.  The lock holds on the left as on the right.  In exact
    arithmetic, a run of events that are all classified Counterclockwise,
    with at least as many events as degrees separate the accumulated
    degrees from [-max_degrees] (each such event loses more than the
    hysteresis of one degree), ends with the accumulated degrees equal to
    [-max_degrees].  In both variants. *)
Theorem counterclockwise_rotation_saturates :
  (forall s evs,
     SteeringLogicMain.reachable atan2_degrees math_sqrt s ->
     SteeringLogicMain.is_steering s = true ->
     counterclockwise_run s evs ->
     SteeringLogicMain.total_accumulated_degrees s
     + SteeringLogicMain.max_degrees s
       <= inject_Z (Z.of_nat (length evs)) ->
     SteeringLogicMain.total_accumulated_degrees
       (MainFacts.after_moves atan2_degrees math_sqrt s evs)
     == - SteeringLogicMain.max_degrees s) /\
  (forall s evs,
     CoreLogic.reachable atan2_degrees math_sqrt s ->
     CoreLogic.is_steering s = true ->
     core_counterclockwise_run s evs ->
     CoreLogic.total_accumulated_degrees s + CoreLogic.max_degrees s
       <= inject_Z (Z.of_nat (length evs)) ->
     CoreLogic.total_accumulated_degrees
       (CoreFacts.core_after_moves atan2_degrees math_sqrt s evs)
     == - CoreLogic.max_degrees s).
Proof.
  split; intros s evs R St C L.
  - pose proof (MainFacts.reachable_well_formed R) as W.
    pose proof (MainFacts.reachable_after_moves evs R) as R'.
    destruct (MainFacts.reachable_bounded R') as [Lo _].
    assert (Hi : SteeringLogicMain.total_accumulated_degrees
                   (MainFacts.after_moves atan2_degrees math_sqrt s evs)
                 <= - SteeringLogicMain.max_degrees s).
    { apply counterclockwise_run_loses; try assumption; lra. }
    assert (Em : SteeringLogicMain.max_degrees
                   (MainFacts.after_moves atan2_degrees math_sqrt s evs)
                 = SteeringLogicMain.max_degrees s).
    { rewrite (MainFacts.wf_max_degrees (MainFacts.reachable_well_formed R')).
      now rewrite (MainFacts.wf_max_degrees W). }
    rewrite Em in Lo. lra.
  - pose proof (CoreFacts.core_reachable_well_formed R) as W.
    assert (R' : core_reachable
                   (CoreFacts.core_after_moves atan2_degrees math_sqrt s evs)).
    { apply core_reachable_run. exact R. }
    destruct (CoreFacts.core_reachable_bounded R') as [Lo _].
    assert (Hi : CoreLogic.total_accumulated_degrees
                   (CoreFacts.core_after_moves atan2_degrees math_sqrt s evs)
                 <= - CoreLogic.max_degrees s).
    { apply core_counterclockwise_run_loses; try assumption; lra. }
    assert (Em : CoreLogic.max_degrees
                   (CoreFacts.core_after_moves atan2_degrees math_sqrt s evs)
                 = CoreLogic.max_degrees s).
    { rewrite (CoreFacts.wf_max_degrees
                 (CoreFacts.core_reachable_well_formed R')).
      now rewrite (CoreFacts.wf_max_degrees W). }
    rewrite Em in Lo. lra.
Qed.

(** *** What the GUIs show *)

Lemma Qint_range (q : Q) (n : Z) :
  0 <= q -> q <= inject_Z n -> (0 <= Qint q <= n)%Z.
Proof.
  intros P L. destruct (Qint_floor P) as [A B].
  assert (X : inject_Z 0 < inject_Z (Qint q + 1)).
  { change (inject_Z 0) with 0. lra. }
  assert (Y : inject_Z (Qint q) <= inject_Z n) by lra.
  rewrite <- Zlt_Qlt in X. rewrite <- Zle_Qle in Y. lia.
Qed.

(** X16.  What the two GUIs draw from a report, in exact arithmetic.  The
    wheel of the standalone GUI clamps the angle it is given to
    [-1080, 1080]: on the report of any object the program can hold the
    clamp changes nothing and the wheel holds the accumulated degrees; the
    value given to the progress bar, [int (total + 1080)], lies in the range
    [0, 2160] the bar was given, and the button shows whether the object is
    steering.  The value the Tk GUI gives to its bar, [total + max_degrees],
    lies in [0, 2 * max_degrees]. *)
Theorem the_gui_shows_the_accumulated_degrees :
  (forall s w,
     CoreLogic.reachable atan2_degrees math_sqrt s ->
     MainApp.max_degrees w = 1080 ->
     let r := MainApp.update_gui_data w (CoreFacts.snapshot s) in
     MainApp.angle (fst (fst r)) == CoreLogic.total_accumulated_degrees s /\
     (0 <= snd (fst r) <= 2 * CoreLogic.MAX_STEERING_DEGREES)%Z /\
     snd r = CoreLogic.is_steering s) /\
  (forall s axis,
     SteeringLogicMain.reachable atan2_degrees math_sqrt s ->
     0 <= MouseSteeringApp.progress_val s (main_report s axis) /\
     MouseSteeringApp.progress_val s (main_report s axis)
     <= 2 * SteeringLogicMain.max_degrees s).
Proof.
  split.
  - intros s w R Mw.
    pose proof (CoreFacts.core_reachable_well_formed R) as W.
    destruct (CoreFacts.core_reachable_bounded R) as [Lo Hi].
    rewrite (CoreFacts.wf_max_degrees W) in Lo, Hi.
    change CoreLogic.MAX_STEERING_DEGREES with 1080%Z in *. exact_arith.
    unfold MainApp.update_gui_data, MainApp.set_angle, MainApp.progress_val.
    cbn [fst snd MainApp.angle CoreFacts.snapshot
         gui_total_accumulated_degrees gui_is_steering].
    rewrite Mw. split; [|split; [|reflexivity]].
    + apply clamp_inside; assumption.
    + change CoreLogic.MAX_STEERING_DEGREES with 1080%Z. exact_arith.
      apply Qint_range; [lra|]. change (inject_Z (2 * 1080)) with 2160. lra.
  - intros s axis R.
    pose proof (MainFacts.reachable_well_formed R) as W.
    destruct (MainFacts.reachable_bounded R) as [Lo Hi].
    unfold MouseSteeringApp.progress_val, main_report.
    cbn [gui_total_accumulated_degrees]. exact_arith. split; lra.
Qed.

End ExactSessionFacts.

(** ** The dial of the standalone GUI *)

Section DialFacts.
Local Open Scope Q_scope.

Lemma Qfloor_unique (q : Q) (n : Z) :
  inject_Z n <= q -> q < inject_Z (n + 1) -> Qfloor q = n.
Proof.
  intros A B. pose proof (Qfloor_le q) as A'. pose proof (Qlt_floor q) as B'.
  assert (X : inject_Z n < inject_Z (Qfloor q + 1)) by lra.
  assert (Y : inject_Z (Qfloor q) < inject_Z (n + 1)) by lra.
  rewrite <- Zlt_Qlt in X, Y. lia.
Qed.

Lemma py_mod_range (a : Q) :
  0 <= MainApp.py_mod a 360 /\ MainApp.py_mod a 360 < 360.
Proof.
  unfold MainApp.py_mod.
  pose proof (Qfloor_le (a / 360)) as A. pose proof (Qlt_floor (a / 360)) as B.
  rewrite inject_Z_plus in B. change (inject_Z 1) with 1 in B.
  assert (E : a == 360 * (a / 360)) by field.
  set (q := a / 360) in *. set (f := inject_Z (Qfloor q)) in *.
  split; lra.
Qed.

Lemma py_mod_opp (a : Q) :
  (MainApp.py_mod a 360 == 0 -> MainApp.py_mod (- a) 360 == 0) /\
  (0 < MainApp.py_mod a 360 ->
   MainApp.py_mod (- a) 360 == 360 - MainApp.py_mod a 360).
Proof.
  destruct (py_mod_range a) as [R0 R1]. unfold MainApp.py_mod in *.
  pose proof (Qfloor_le (a / 360)) as A. pose proof (Qlt_floor (a / 360)) as B.
  rewrite inject_Z_plus in B. change (inject_Z 1) with 1 in B.
  assert (E : a == 360 * (a / 360)) by field.
  assert (E' : - a / 360 == - (a / 360)) by field.
  rewrite (Qfloor_comp _ _ E').
  set (q := a / 360) in *. set (n := Qfloor q) in *.
  split; intros H.
  - assert (F : Qfloor (- q) = (- n)%Z).
    { apply Qfloor_unique.
      - rewrite inject_Z_opp. lra.
      - rewrite inject_Z_plus, inject_Z_opp. change (inject_Z 1) with 1. lra. }
    rewrite F, inject_Z_opp. lra.
  - assert (F : Qfloor (- q) = (- n - 1)%Z).
    { apply Qfloor_unique.
      - unfold Z.sub. rewrite inject_Z_plus, !inject_Z_opp.
        change (inject_Z 1) with 1. lra.
      - replace (- n - 1 + 1)%Z with (- n)%Z by lia.
        rewrite inject_Z_opp. lra. }
    rewrite F. unfold Z.sub. rewrite inject_Z_plus, !inject_Z_opp.
    change (inject_Z 1) with 1. lra.
Qed.

Lemma display_angle_right (a : Q) :
  0 <= a -> MainApp.display_angle a = MainApp.py_mod a 360.
Proof.
  intros P. unfold MainApp.display_angle.
  destruct (Qltb_cases a 0) as [[E L]|[E L]]; [lra|].
  rewrite E. reflexivity.
Qed.

(** X17.  The indicator of the dial, in exact arithmetic.  Its rotation is
    always in [0, 360); for an angle to the right it is the angle within the
    current turn, [angle % 360].  For an angle to the left the code draws
    [360 - angle % 360], and Python's [%] is already taken in [0, 360): the
    indicator of the angle [-a] is drawn where that of [+a] is, as long as
    [a % 360] is below 359.999.  The dial does not tell left from right. *)
Theorem the_dial_mirrors_left_turns :
  (forall a,
     0 <= MainApp.display_angle a /\ MainApp.display_angle a < 360) /\
  (forall a, 0 <= a -> MainApp.display_angle a == MainApp.py_mod a 360) /\
  (forall a,
     0 < a -> MainApp.py_mod a 360 < 360 - (1 # 1000) ->
     MainApp.display_angle (- a) == MainApp.display_angle a).
Proof.
  split; [|split].
  - intros a. destruct (py_mod_range a) as [R0 R1].
    unfold MainApp.display_angle.
    destruct (Qltb a 0 && negb (Qeq_bool (MainApp.py_mod a 360) 0)) eqn:G;
      [|split; assumption].
    apply andb_true_iff in G. destruct G as [_ G].
    apply negb_true_iff in G.
    assert (N : ~ MainApp.py_mod a 360 == 0).
    { intros E. apply Qeq_bool_iff in E. congruence. }
    pose proof (Qabs_pos _ R0) as Ab.
    destruct (Qltb_cases (1 # 1000) (Qabs (MainApp.py_mod a 360)))
      as [[E L]|[E L]]; rewrite E; lra.
  - intros a P. now rewrite display_angle_right.
  - intros a P M. rewrite (display_angle_right (a:=a)) by lra.
    destruct (py_mod_range a) as [R0 R1].
    destruct (py_mod_range (- a)) as [S0 S1].
    destruct (py_mod_opp a) as [Z NZ].
    unfold MainApp.display_angle.
    destruct (Qltb_cases (- a) 0) as [[E L]|[E L]]; [|lra].
    rewrite E. cbn [andb].
    destruct (Qeq_bool (MainApp.py_mod (- a) 360) 0) eqn:G; cbn [negb].
    + apply Qeq_bool_iff in G.
      destruct (Qlt_le_dec 0 (MainApp.py_mod a 360)) as [Pm|Pm].
      * specialize (NZ Pm). lra.
      * lra.
    + assert (Pm : 0 < MainApp.py_mod a 360).
      { destruct (Qlt_le_dec 0 (MainApp.py_mod a 360)) as [Pm|Pm];
          [exact Pm|].
        assert (E0 : MainApp.py_mod a 360 == 0) by lra.
        specialize (Z E0). apply Qeq_bool_iff in Z. congruence. }
      specialize (NZ Pm). pose proof (Qabs_pos _ S0) as Ab.
      destruct (Qltb_cases (1 # 1000) (Qabs (MainApp.py_mod (- a) 360)))
        as [[E1 L1]|[E1 L1]]; rewrite E1; lra.
Qed.

End DialFacts.

(** ** The two variants compared *)

(* Reads the fields of an object a method has built. *)
Ltac read_fields :=
  cbn [fst snd CoreLogic.assign
       SteeringLogicMain.app_callback SteeringLogicMain.sensitivity
       SteeringLogicMain.max_degrees
       SteeringLogicMain.direction_change_threshold
       SteeringLogicMain.mouse_center_threshold
       SteeringLogicMain.current_raw_angle
       SteeringLogicMain.previous_smoothed_angle
       SteeringLogicMain.total_accumulated_degrees
       SteeringLogicMain.rotation_direction SteeringLogicMain.current_offset
       SteeringLogicMain.angular_velocity
       SteeringLogicMain.previous_angular_velocity
       SteeringLogicMain.angular_acceleration
       SteeringLogicMain.screen_center_x SteeringLogicMain.screen_center_y
       SteeringLogicMain.angle_history SteeringLogicMain.vjoy_device
       SteeringLogicMain.mouse_listener SteeringLogicMain.is_steering
       CoreLogic.parent_gui_callback CoreLogic.sensitivity
       CoreLogic.max_degrees CoreLogic.direction_change_threshold
       CoreLogic.mouse_center_threshold CoreLogic.current_raw_angle
       CoreLogic.previous_smoothed_angle CoreLogic.total_accumulated_degrees
       CoreLogic.rotation_direction CoreLogic.current_offset
       CoreLogic.angular_velocity CoreLogic.previous_angular_velocity
       CoreLogic.angular_acceleration CoreLogic.screen_center_x
       CoreLogic.screen_center_y CoreLogic.angle_history
       CoreLogic.vjoy_device CoreLogic.mouse_listener CoreLogic.is_steering
       CoreLogic.vjoy_status_message] in *.



Section VariantsAlike.
Variable atan2_degrees : Z -> Z -> Q.
Variable math_sqrt : Z -> Q.
Local Open Scope Q_scope.

Local Notation main_step := (SteeringLogicMain.step atan2_degrees math_sqrt).
Local Notation main_run := (SteeringLogicMain.run atan2_degrees math_sqrt).
Local Notation core_step := (CoreLogic.step atan2_degrees math_sqrt).
Local Notation core_run := (CoreLogic.run atan2_degrees math_sqrt).

(* The call of [core_logic.py] that stands for a call of
   [steering_logic.py]. *)
Definition standalone_call (c : SteeringLogicMain.call (T:=Q))
    : CoreLogic.call (T:=Q) :=
  match c with
  | SteeringLogicMain.SetScreenCenter cx cy m =>
      CoreLogic.SetScreenCenter cx cy m
  | SteeringLogicMain.StartSteering m => CoreLogic.Start m
  | SteeringLogicMain.StopSteering => CoreLogic.Stop
  | SteeringLogicMain.OnMove x y => CoreLogic.OnMove x y
  | SteeringLogicMain.ResetSteeringView m => CoreLogic.RecenterView m
  | SteeringLogicMain.UpdateSensitivity v => CoreLogic.SetSensitivity v
  end.

(* The calls during which the pointer position can be read. *)
Definition pointer_readable (c : SteeringLogicMain.call (T:=Q)) : Prop :=
  match c with
  | SteeringLogicMain.SetScreenCenter _ _ None
  | SteeringLogicMain.StartSteering None
  | SteeringLogicMain.ResetSteeringView None => False
  | _ => True
  end.

(* The two objects hold the same steering state. *)
Record alike (s : SteeringLogicMain.SteeringLogic Q)
    (c : CoreLogic.SteeringLogic Q) : Prop := Alike {
  al_max_degrees : SteeringLogicMain.max_degrees s = CoreLogic.max_degrees c;
  al_threshold :
    SteeringLogicMain.direction_change_threshold s
    = CoreLogic.direction_change_threshold c;
  al_center :
    SteeringLogicMain.mouse_center_threshold s
    = CoreLogic.mouse_center_threshold c;
  al_raw :
    SteeringLogicMain.current_raw_angle s = CoreLogic.current_raw_angle c;
  al_smoothed :
    SteeringLogicMain.previous_smoothed_angle s
    = CoreLogic.previous_smoothed_angle c;
  al_total :
    SteeringLogicMain.total_accumulated_degrees s
    = CoreLogic.total_accumulated_degrees c;
  al_direction :
    SteeringLogicMain.rotation_direction s = CoreLogic.rotation_direction c;
  al_offset : SteeringLogicMain.current_offset s = CoreLogic.current_offset c;
  al_pivot_x :
    SteeringLogicMain.screen_center_x s = CoreLogic.screen_center_x c;
  al_pivot_y :
    SteeringLogicMain.screen_center_y s = CoreLogic.screen_center_y c;
  al_history : SteeringLogicMain.angle_history s = CoreLogic.angle_history c;
  al_device : SteeringLogicMain.vjoy_device s = CoreLogic.vjoy_device c;
  al_steering : SteeringLogicMain.is_steering s = CoreLogic.is_steering c;
  al_velocity :
    SteeringLogicMain.angular_velocity s == CoreLogic.angular_velocity c;
  al_acceleration :
    SteeringLogicMain.angular_acceleration s
    == CoreLogic.angular_acceleration c;
  al_last_velocity :
    SteeringLogicMain.is_steering s = true ->
    SteeringLogicMain.previous_angular_velocity s
    == CoreLogic.angular_velocity c
}.

Lemma Qint_comp (x y : Q) : x == y -> Qint x = Qint y.
Proof.
  unfold Qeq, Qint. intros E.
  rewrite <- (Z.quot_mul_cancel_r (Qnum x) (QDen x) (QDen y)) by discriminate.
  rewrite <- (Z.quot_mul_cancel_r (Qnum y) (QDen y) (QDen x)) by discriminate.
  rewrite E. f_equal. apply Z.mul_comm.
Qed.

Lemma axis_alike (s : SteeringLogicMain.SteeringLogic Q)
    (c : CoreLogic.SteeringLogic Q) :
  SteeringLogicMain.max_degrees s = CoreLogic.max_degrees c ->
  SteeringLogicMain.axis_of s (CoreLogic.total_accumulated_degrees c)
  = CoreLogic.axis_of c.
Proof.
  intros E. unfold SteeringLogicMain.axis_of, CoreLogic.axis_of. rewrite E.
  cbv zeta. cbn [num_of_Z num_add num_sub num_mul num_div num_opp num_eqb
                 num_int ExactNumber].
  destruct (Qeq_bool (inject_Z 2 * CoreLogic.max_degrees c) (inject_Z 0));
    [reflexivity|].
  change CoreLogic.MIN_VJOY_AXIS with SteeringLogicMain.MIN_VJOY_AXIS.
  change CoreLogic.MAX_VJOY_AXIS with SteeringLogicMain.MAX_VJOY_AXIS.
  f_equal. f_equal. apply Qint_comp. unfold Qdiv. ring.
Qed.

Lemma sink_writes_callback (s : SteeringLogicMain.SteeringLogic Q)
    (e : effect Q) :
  match e with SetAxis _ => False | _ => True end ->
  sink_writes (SteeringLogicMain.callback s e) = [].
Proof.
  unfold SteeringLogicMain.callback.
  destruct (SteeringLogicMain.app_callback s), e; simpl; tauto.
Qed.

Lemma alike_step (s : SteeringLogicMain.SteeringLogic Q)
    (c : CoreLogic.SteeringLogic Q) (call : SteeringLogicMain.call) :
  maxlen (SteeringLogicMain.angle_history s) = 5%nat ->
  alike s c -> pointer_readable call ->
  alike (fst (main_step s call)) (fst (core_step c (standalone_call call))) /\
  sink_writes (snd (main_step s call))
  = sink_writes (snd (core_step c (standalone_call call))).
Proof.
  intros Ml A Rd.
  destruct s as [cb sens maxd thr cthr raw prev total dir off vel pvel acc
                 cx cy [its ml] vjoy lst st].
  destruct c as [cb' sens' maxd' thr' cthr' raw' prev' total' dir' off' vel'
                 pvel' acc' cx' cy' hist' vjoy' lst' st' msg'].
  destruct A as [A1 A2 A3 A4 A5 A6 A7 A8 A9 A10 A11 A12 A13 A14 A15 A16].
  cbn in Ml, A1, A2, A3, A4, A5, A6, A7, A8, A9, A10, A11, A12, A13, A14,
    A15, A16.
  subst ml maxd' thr' cthr' raw' prev' total' dir' off' cx' cy' hist' vjoy' st'.
  destruct call as [px py m | m | | x y | m | v];
    cbn [standalone_call SteeringLogicMain.step CoreLogic.step].
  - (* set_screen_center *)
    destruct m as [[mx my]|]; [|contradiction].
    split; [|reflexivity]. constructor; cbn; auto; reflexivity.
  - (* start *)
    destruct m as [[mx my]|]; [|contradiction].
    unfold SteeringLogicMain.start_steering, CoreLogic.start.
    cbn [SteeringLogicMain.is_steering CoreLogic.is_steering
         SteeringLogicMain.vjoy_device CoreLogic.vjoy_device
         SteeringLogicMain.screen_center_x CoreLogic.screen_center_x
         SteeringLogicMain.screen_center_y CoreLogic.screen_center_y].
    destruct st; [split; [constructor; cbn; auto|reflexivity]|].
    destruct vjoy; cbn [negb];
      [|split; [constructor; cbn; auto
               |cbn [snd]; now rewrite sink_writes_callback]].
    destruct cx as [cx|], cy as [cy|]; cbn [is_None orb];
      try solve [split; [constructor; cbn; auto
                        |cbn [snd]; now rewrite sink_writes_callback]].
    split; [|cbn [snd]; now rewrite sink_writes_callback].
    constructor; cbn; auto; reflexivity.
  - (* stop *)
    unfold SteeringLogicMain.stop_steering, CoreLogic.stop.
    cbn [SteeringLogicMain.is_steering CoreLogic.is_steering].
    destruct st; cbn [negb]; [|split; [constructor; cbn; auto|reflexivity]].
    split.
    + constructor; cbn; auto; try reflexivity. discriminate.
    + cbn [snd SteeringLogicMain.vjoy_device CoreLogic.vjoy_device].
      rewrite !sink_writes_app, sink_writes_callback by exact I.
      now destruct vjoy.
  - (* on_move *)
    destruct st;
      [|split; [constructor; cbn; auto|reflexivity]].
    destruct cx as [cx|];
      [|split; [constructor; cbn; auto|reflexivity]].
    destruct cy as [cy|];
      [|split; [constructor; cbn; auto|reflexivity]].
    specialize (A16 eq_refl).
    unfold SteeringLogicMain.on_move, CoreLogic._on_move_handler,
      SteeringLogicMain._calculate_raw_angle, CoreLogic._calculate_raw_angle,
      SteeringLogicMain.accumulate, CoreLogic.accumulate.
    cbn -[deque_append deque_sum deque_len SteeringLogicMain.wrap_delta
          CoreLogic.wrap_delta SteeringLogicMain.clamp_degrees
          CoreLogic.clamp_degrees SteeringLogicMain.axis_of CoreLogic.axis_of
          Z.pow Qplus Qminus Qmult Qdiv Qopp Qabs Qltb inject_Z].
    change (@CoreLogic.wrap_delta Q ExactNumber)
      with (@SteeringLogicMain.wrap_delta Q ExactNumber).
    generalize (deque_append {| items := its; maxlen := 5 |}
                  (atan2_degrees (y - cy) (x - cx))). intros hist.
    generalize (SteeringLogicMain.wrap_delta
                  (deque_sum hist / deque_len hist - prev)). intros delta.
    generalize (math_sqrt ((x - cx) ^ 2 + (y - cy) ^ 2)%Z). intros offset.
    assert (D : delta / inject_Z 1 == delta)
      by (change (inject_Z 1) with 1; field).
    assert (D' : (delta / inject_Z 1 - vel') / inject_Z 1 == delta - pvel).
    { rewrite A16. change (inject_Z 1) with 1. field. }
    repeat match goal with
           | |- context [if Qltb ?a ?b then _ else _] => destruct (Qltb a b)
           end.
    all: unfold SteeringLogicMain.clamp_degrees, CoreLogic.clamp_degrees.
    all: split;
      [constructor; read_fields; try reflexivity;
       first [symmetry; exact D | symmetry; exact D'
             | intros _; symmetry; exact D]
      |].
    all: read_fields.
    all: rewrite ?sink_writes_app, ?sink_writes_callback by exact I.
    all: destruct vjoy; cbn [sink_writes app]; try reflexivity.
    all: f_equal; etransitivity; [|apply axis_alike]; reflexivity.
  - (* reset_steering_view *)
    destruct m as [[mx my]|]; [|contradiction].
    split.
    + constructor; cbn; auto; reflexivity.
    + unfold SteeringLogicMain.reset_steering_view, CoreLogic.recenter_view.
      cbn [snd SteeringLogicMain.vjoy_device CoreLogic.vjoy_device].
      rewrite !sink_writes_app, !sink_writes_callback by exact I.
      now destruct vjoy.
  - (* update_sensitivity *)
    split; [constructor; cbn; auto|].
    cbn [snd SteeringLogicMain.update_sensitivity]. 
    now rewrite sink_writes_callback.
Qed.

Lemma alike_run (cs : list SteeringLogicMain.call)
    (s : SteeringLogicMain.SteeringLogic Q) (c : CoreLogic.SteeringLogic Q) :
  MainFacts.well_formed s -> alike s c -> Forall pointer_readable cs ->
  alike (fst (main_run s cs)) (fst (core_run c (map standalone_call cs))) /\
  sink_writes (snd (main_run s cs))
  = sink_writes (snd (core_run c (map standalone_call cs))).
Proof.
  revert s c. induction cs as [|call cs IH]; intros s c W A F.
  - split; [exact A|reflexivity].
  - inversion F as [|? ? Rd F']; subst. cbn [map].
    rewrite (main_run_cons atan2_degrees math_sqrt).
    rewrite (core_run_cons atan2_degrees math_sqrt). cbn [fst snd].
    destruct (@alike_step s c call (MainFacts.wf_maxlen W) A Rd) as [A1 E1].
    destruct (IH _ _ (MainFacts.well_formed_step atan2_degrees math_sqrt
                        call W) A1 F') as [A2 E2].
    split; [exact A2|]. rewrite !sink_writes_app. now rewrite E1, E2.
Qed.

(** X18.  In exact arithmetic the standalone variant steers as
    [steering_logic.py] does.  Take two fresh objects, one of each class,
    with the device acquired by both or by neither, and make the same calls
    on both, the pointer being readable whenever a call asks for it.  Then
    the two objects end with the same accumulated degrees, direction, raw
    and smoothed angle, smoothing window, offset, pivot and [is_steering],
    with equal velocity and acceleration, and the same values have been
    written to the vJoy axis, in the same order. *)
Theorem the_two_variants_steer_alike
    (app_cb gui_cb vjoy_ok : bool) (cs : list SteeringLogicMain.call) :
  Forall pointer_readable cs ->
  let main := SteeringLogicMain.init (T:=Q) app_cb vjoy_ok in
  let core := CoreLogic.init (T:=Q) gui_cb vjoy_ok in
  let main_end := SteeringLogicMain.run atan2_degrees math_sqrt (fst main) cs in
  let core_end :=
    CoreLogic.run atan2_degrees math_sqrt (fst core)
      (map standalone_call cs) in
  alike (fst main_end) (fst core_end) /\
  sink_writes (snd main ++ snd main_end)
  = sink_writes (snd core ++ snd core_end).
Proof.
  intros F. cbv zeta.
  assert (A : alike (fst (SteeringLogicMain.init (T:=Q) app_cb vjoy_ok))
                (fst (CoreLogic.init (T:=Q) gui_cb vjoy_ok))).
  { constructor; cbn; auto; reflexivity. }
  destruct (@alike_run cs _ _ (MainFacts.well_formed_init app_cb vjoy_ok) A F)
    as [A' E].
  split; [exact A'|].
  rewrite !sink_writes_app, E. f_equal. now destruct app_cb, vjoy_ok.
Qed.

End VariantsAlike.

(** ** Recentring and the slider, on rationals and on doubles *)

Section Recentring.
Local Open Scope Q_scope.

Lemma recenter_view_effects (T : Type) (N : Number T)
    (atan2_degrees : Z -> Z -> T) (s : CoreLogic.SteeringLogic T)
    (mouse : option (Z * Z)) :
  let r := CoreLogic.recenter_view atan2_degrees s mouse in
  snd r
  = (if CoreLogic.vjoy_device s
     then [SetAxis CoreLogic.CENTER_VJOY_AXIS] else [])
    ++ [Notify Status ViewRecentered; Update (CoreFacts.snapshot (fst r))] /\
  CoreLogic.total_accumulated_degrees (fst r) = num_of_Z 0 /\
  CoreLogic.max_degrees (fst r) = CoreLogic.max_degrees s /\
  CoreLogic.vjoy_device (fst r) = CoreLogic.vjoy_device s.
Proof. repeat split; reflexivity. Qed.

Lemma axis_of_zero_exact (s : CoreLogic.SteeringLogic Q) :
  CoreLogic.total_accumulated_degrees s = 0 ->
  CoreLogic.max_degrees s = 1080 ->
  CoreLogic.axis_of s = CoreLogic.CENTER_VJOY_AXIS.
Proof.
  intros Et Em. unfold CoreLogic.axis_of. rewrite Et, Em.
  vm_compute. reflexivity.
Qed.

Lemma axis_of_zero_binary64 (s : CoreLogic.SteeringLogic float) :
  CoreLogic.total_accumulated_degrees s = float_of_Z 0 ->
  CoreLogic.max_degrees s = float_of_Z 1080 ->
  CoreLogic.axis_of s = CoreLogic.CENTER_VJOY_AXIS.
Proof.
  intros Et Em. unfold CoreLogic.axis_of. rewrite Et, Em.
  vm_compute. reflexivity.
Qed.

(** X19.  Recentring the standalone variant does not show the drift that
    stopping it does: the report that follows the write of the center value
    16383 carries an axis value recomputed from the accumulated degrees,
    which recentring has just set to 0, and 0 maps to 16383, in exact
    arithmetic and on doubles alike.  So the report, and the status summary
    read afterwards, give the value the axis was written with. *)
Theorem recentring_reports_the_center_it_wrote :
  (forall (atan2_degrees : Z -> Z -> Q) (math_sqrt : Z -> Q) s mouse,
     CoreLogic.reachable atan2_degrees math_sqrt s ->
     let r := CoreLogic.recenter_view atan2_degrees s mouse in
     snd r
     = (if CoreLogic.vjoy_device s
        then [SetAxis CoreLogic.CENTER_VJOY_AXIS] else [])
       ++ [Notify Status ViewRecentered; Update (CoreFacts.snapshot (fst r))]
     /\ gui_vjoy_axis_value (CoreFacts.snapshot (fst r))
        = CoreLogic.CENTER_VJOY_AXIS
     /\ CoreLogic._get_current_vjoy_axis_value (fst r)
        = CoreLogic.CENTER_VJOY_AXIS) /\
  (forall (atan2_degrees : Z -> Z -> float) (math_sqrt : Z -> float) s mouse,
     CoreLogic.reachable atan2_degrees math_sqrt s ->
     let r := CoreLogic.recenter_view atan2_degrees s mouse in
     snd r
     = (if CoreLogic.vjoy_device s
        then [SetAxis CoreLogic.CENTER_VJOY_AXIS] else [])
       ++ [Notify Status ViewRecentered; Update (CoreFacts.snapshot (fst r))]
     /\ gui_vjoy_axis_value (CoreFacts.snapshot (fst r))
        = CoreLogic.CENTER_VJOY_AXIS
     /\ CoreLogic._get_current_vjoy_axis_value (fst r)
        = CoreLogic.CENTER_VJOY_AXIS).
Proof.
  split; intros atan2_degrees math_sqrt s mouse R;
    pose proof (CoreFacts.wf_max_degrees
                  (CoreFacts.core_reachable_well_formed R)) as Md;
    destruct (@recenter_view_effects _ _ atan2_degrees s mouse)
      as (E & Et & Em & Ev);
    cbv zeta; (split; [exact E|]);
    unfold CoreLogic._get_current_vjoy_axis_value;
    cbn [gui_vjoy_axis_value CoreFacts.snapshot]; rewrite Ev;
    rewrite Md in Em.
  - rewrite (axis_of_zero_exact _ Et Em).
    now destruct (CoreLogic.vjoy_device s).
  - rewrite (axis_of_zero_binary64 _ Et Em).
    now destruct (CoreLogic.vjoy_device s).
Qed.

(* The values of the sensitivity slider, [setRange(1, 100)]. *)
Definition slider_values : list Z := map Z.of_nat (seq 1 100).

Lemma slider_values_spec (value : Z) :
  (1 <= value <= 100)%Z -> In value slider_values.
Proof.
  intros R. unfold slider_values.
  replace value with (Z.of_nat (Z.to_nat value)) by lia.
  apply in_map. apply in_seq. lia.
Qed.

(** X20.  The position the window computes for the slider from a
    sensitivity, [int (sensitivity * 10)], gives back the slider value that
    set this sensitivity as [value / 10.0]: in exact arithmetic for every
    value, and on doubles, where [value / 10.0] is rounded, for each of the
    values 1 to 100 of the slider. *)
Theorem the_slider_position_round_trips :
  (forall (logic : CoreLogic.SteeringLogic Q) value,
     MainApp.slider_position
       (CoreLogic.sensitivity
          (fst (MainApp.on_sensitivity_changed logic value)))
     = value) /\
  (forall (logic : CoreLogic.SteeringLogic float) value,
     (1 <= value <= 100)%Z ->
     MainApp.slider_position
       (CoreLogic.sensitivity
          (fst (MainApp.on_sensitivity_changed logic value)))
     = value).
Proof.
  split.
  - intros logic value. unfold MainApp.slider_position.
    cbn [MainApp.on_sensitivity_changed CoreLogic.set_sensitivity fst
         CoreLogic.sensitivity num_int num_mul num_div num_of_Z ExactNumber].
    rewrite (@Qint_comp _ (inject_Z value)).
    + unfold Qint, inject_Z. cbn [Qnum Qden]. apply Z.quot_1_r.
    + change (inject_Z 10) with 10. field.
  - intros logic value R. unfold MainApp.slider_position.
    cbn [MainApp.on_sensitivity_changed CoreLogic.set_sensitivity fst
         CoreLogic.sensitivity num_int num_mul num_div num_of_Z Binary64].
    assert (A : forallb
                  (fun v => (float_int (float_of_Z v / float_of_Z 10
                                        * float_of_Z 10) =? v)%Z)
                  slider_values = true) by (vm_compute; reflexivity).
    rewrite forallb_forall in A.
    apply Z.eqb_eq. apply A. now apply slider_values_spec.
Qed.

End Recentring.

(** ** Sample runs of the further properties *)

(* A fresh object of each class, the device acquired. *)
Definition main_fresh : SteeringLogicMain.SteeringLogic Q :=
  fst (SteeringLogicMain.init true true).

Definition core_fresh : CoreLogic.SteeringLogic Q :=
  fst (CoreLogic.init true true).

(* The object of [steering_logic.py] once the GUI has set the screen
   center, before any session. *)
Definition main_ready : SteeringLogicMain.SteeringLogic Q :=
  fst (SteeringLogicMain.step octant_atan2 floor_sqrt main_fresh
         (SteeringLogicMain.SetScreenCenter 500 500 (Some (compass (-3) 20)))).

Definition core_ready : CoreLogic.SteeringLogic Q :=
  fst (CoreLogic.step octant_atan2 floor_sqrt core_fresh
         (CoreLogic.SetScreenCenter 500 500 (Some (compass (-3) 20)))).

(* Calls that are neither pointer events nor recentring. *)
Definition main_detour : list (SteeringLogicMain.call (T:=Q)) :=
  [SteeringLogicMain.UpdateSensitivity 2;
   SteeringLogicMain.StopSteering;
   SteeringLogicMain.SetScreenCenter 400 300 (Some (compass 1 20));
   SteeringLogicMain.StartSteering (Some (compass 2 20))].

(* Five events one pixel from the pivot, at 135 degrees, and a
   counterclockwise sweep from 90 to -135 degrees, 20 pixels from the pivot,
   after which the pointer rests until the smoother has caught up. *)
Definition rewind_left : list (Z * Z) := repeat (compass 3 1) 5.

Definition sweep_left : list (Z * Z) :=
  map (fun k => compass k 20) [2; 1; 0; -1; -2; -3; -3; -3; -3; -3]%Z.

(* Three sweeps and a partial one, each after a rewind. *)
Definition approach_left : list (Z * Z) :=
  rewind_left ++ sweep_left ++ rewind_left ++ sweep_left
  ++ rewind_left ++ sweep_left ++ rewind_left ++ firstn 9 sweep_left
  ++ rewind_left.

Definition main_near_left_lock : SteeringLogicMain.SteeringLogic Q :=
  MainFacts.after_moves octant_atan2 floor_sqrt main_armed approach_left.

Definition core_near_left_lock : CoreLogic.SteeringLogic Q :=
  CoreFacts.core_after_moves octant_atan2 floor_sqrt core_armed approach_left.

(* A whole session of [steering_logic.py]: the screen center, the start,
   and the events of [approach] and of a last sweep. *)
Definition main_drive : list (SteeringLogicMain.call (T:=Q)) :=
  main_session ++ main_moves (approach ++ sweep)
  ++ [SteeringLogicMain.StopSteering].

Lemma main_ready_reachable :
  SteeringLogicMain.reachable octant_atan2 floor_sqrt main_ready.
Proof.
  apply SteeringLogicMain.reach_step. apply SteeringLogicMain.reach_init.
Qed.

Lemma core_ready_reachable :
  CoreLogic.reachable octant_atan2 floor_sqrt core_ready.
Proof. apply CoreLogic.reach_step. apply CoreLogic.reach_init. Qed.

Lemma main_near_left_lock_reachable :
  SteeringLogicMain.reachable octant_atan2 floor_sqrt main_near_left_lock.
Proof. apply main_reachable_run. exact main_armed_reachable. Qed.

Lemma core_near_left_lock_reachable :
  CoreLogic.reachable octant_atan2 floor_sqrt core_near_left_lock.
Proof. apply core_reachable_run. exact core_armed_reachable. Qed.

(* Events that reach a fresh object are dropped. *)
Lemma events_outside_a_session_are_dropped_witness :
  SteeringLogicMain.is_steering main_fresh = false /\
  SteeringLogicMain.run octant_atan2 floor_sqrt main_fresh (main_moves sweep)
  = (main_fresh, []).
Proof.
  split; [reflexivity|].
  apply (proj1 (events_outside_a_session_are_dropped octant_atan2 floor_sqrt)).
  reflexivity.
Defined.

(* From 1071 degrees, a change of sensitivity, a stop, a new screen center
   and a start leave 1071 degrees. *)
Lemma only_events_and_recentring_turn_the_wheel_witness :
  Forall (fun c => main_turns c = false) main_detour /\
  SteeringLogicMain.total_accumulated_degrees
    (fst (SteeringLogicMain.run octant_atan2 floor_sqrt main_near_lock
            main_detour))
  = SteeringLogicMain.total_accumulated_degrees main_near_lock.
Proof.
  assert (F : Forall (fun c => main_turns (T:=Q) c = false) main_detour)
    by (repeat constructor).
  split; [exact F|].
  apply (proj1 (only_events_and_recentring_turn_the_wheel
                  octant_atan2 floor_sqrt)).
  exact F.
Defined.

(* A second start, the pointer unreadable this time, changes nothing. *)
Lemma starting_twice_is_starting_once_witness :
  SteeringLogicMain.is_steering
    (fst (SteeringLogicMain.start_steering octant_atan2 main_ready
            (Some (compass (-3) 20)))) = true /\
  SteeringLogicMain.start_steering octant_atan2
    (fst (SteeringLogicMain.start_steering octant_atan2 main_ready
            (Some (compass (-3) 20)))) None
  = (fst (SteeringLogicMain.start_steering octant_atan2 main_ready
            (Some (compass (-3) 20))), []).
Proof.
  destruct (proj1 (starting_twice_is_starting_once octant_atan2)
              main_ready (Some (compass (-3) 20)) None) as (_ & _ & Second).
  split; [reflexivity|]. apply Second. reflexivity.
Defined.

Lemma listener_is_attached_only_while_steering_witness :
  SteeringLogicMain.mouse_listener main_near_lock = true /\
  SteeringLogicMain.is_steering main_near_lock = true.
Proof.
  assert (L : SteeringLogicMain.mouse_listener main_near_lock = true)
    by (vm_compute; reflexivity).
  split; [exact L|].
  exact (proj1 (listener_is_attached_only_while_steering
                  octant_atan2 floor_sqrt)
           main_near_lock main_near_lock_reachable L).
Defined.

Lemma smoothing_window_is_full_in_a_session_witness :
  SteeringLogicMain.mouse_listener main_near_lock = true /\
  length (items (SteeringLogicMain.angle_history main_near_lock)) = 5%nat.
Proof.
  assert (L : SteeringLogicMain.mouse_listener main_near_lock = true)
    by (vm_compute; reflexivity).
  split; [exact L|].
  exact (proj2 (proj1 (smoothing_window_is_full_in_a_session
                         octant_atan2 floor_sqrt)
                  main_near_lock main_near_lock_reachable) L).
Defined.

(* With the screen center set and the device acquired, a start that cannot
   read the pointer raises and leaves [is_steering] set, no listener
   attached. *)
Lemma start_when_the_pointer_cannot_be_read_witness :
  SteeringLogicMain.is_steering main_ready = false /\
  SteeringLogicMain.vjoy_device main_ready = true /\
  SteeringLogicMain.screen_center_x main_ready <> None /\
  raised (snd (SteeringLogicMain.start_steering octant_atan2 main_ready None))
  = true /\
  SteeringLogicMain.is_steering
    (fst (SteeringLogicMain.start_steering octant_atan2 main_ready None))
  = true /\
  SteeringLogicMain.mouse_listener
    (fst (SteeringLogicMain.start_steering octant_atan2 main_ready None))
  = false.
Proof.
  assert (N : SteeringLogicMain.screen_center_x main_ready <> None)
    by (vm_compute; discriminate).
  destruct (proj1 (start_when_the_pointer_cannot_be_read
                     octant_atan2 floor_sqrt)
              main_ready main_ready_reachable eq_refl eq_refl N)
    as (A & B & C & _).
  split; [reflexivity|]. split; [reflexivity|]. split; [exact N|].
  split; [exact A|]. split; [exact B|exact C].
Defined.

Lemma a_processed_event_reports_what_it_wrote_witness :
  SteeringLogicMain.is_steering main_armed = true /\
  snd (SteeringLogicMain.on_move octant_atan2 floor_sqrt main_armed 520 500)
  = SetAxis
      (SteeringLogicMain.axis_of main_armed
         (SteeringLogicMain.total_accumulated_degrees
            (fst (SteeringLogicMain.on_move octant_atan2 floor_sqrt
                    main_armed 520 500))))
    :: SteeringLogicMain.callback main_armed
         (Update
            (main_report
               (fst (SteeringLogicMain.on_move octant_atan2 floor_sqrt
                       main_armed 520 500))
               (SteeringLogicMain.axis_of main_armed
                  (SteeringLogicMain.total_accumulated_degrees
                     (fst (SteeringLogicMain.on_move octant_atan2 floor_sqrt
                             main_armed 520 500)))))).
Proof.
  assert (St : SteeringLogicMain.is_steering main_armed = true)
    by (vm_compute; reflexivity).
  split; [exact St|].
  exact (proj1 (a_processed_event_reports_what_it_wrote
                  octant_atan2 floor_sqrt)
           main_armed 520%Z 500%Z main_armed_reachable St).
Defined.

(* The Tk button starts a session on the object that is ready. *)
Lemma the_steering_button_switches_the_session_witness :
  SteeringLogicMain.vjoy_device main_ready = true /\
  SteeringLogicMain.screen_center_x main_ready <> None /\
  SteeringLogicMain.is_steering main_ready = false /\
  SteeringLogicMain.is_steering
    (fst (fst (MouseSteeringApp.toggle_steering octant_atan2 main_ready
                 (Some (compass 0 20))))) = true.
Proof.
  assert (N : SteeringLogicMain.screen_center_x main_ready <> None)
    by (vm_compute; discriminate).
  destruct (proj1 (the_steering_button_switches_the_session
                     octant_atan2 floor_sqrt)
              main_ready (compass 0 20) main_ready_reachable eq_refl N)
    as (A & _).
  split; [reflexivity|]. split; [exact N|]. split; [reflexivity|].
  exact A.
Defined.

Lemma smoothed_angle_is_the_mean_of_the_window_witness :
  items (SteeringLogicMain.angle_history main_near_lock) <> [] /\
  (SteeringLogicMain.previous_smoothed_angle main_near_lock
   == mean (SteeringLogicMain.angle_history main_near_lock))%Q.
Proof.
  assert (N : items (SteeringLogicMain.angle_history main_near_lock) <> [])
    by (vm_compute; discriminate).
  split; [exact N|].
  exact (proj1 (smoothed_angle_is_the_mean_of_the_window
                  octant_atan2 floor_sqrt)
           main_near_lock main_near_lock_reachable N).
Defined.

(* The first event of a sweep from the rewound window: the raw angle jumps
   from -135 to -90 degrees, the smoothed angle moves by 9. *)
Lemma a_full_window_moves_by_a_fifth_witness :
  SteeringLogicMain.is_steering main_near_lock = true /\
  SteeringLogicMain.mouse_listener main_near_lock = true /\
  (-72 <= SteeringLogicMain.angular_velocity
            (fst (SteeringLogicMain.on_move octant_atan2 floor_sqrt
                    main_near_lock 500 480)))%Q /\
  (SteeringLogicMain.angular_velocity
     (fst (SteeringLogicMain.on_move octant_atan2 floor_sqrt
             main_near_lock 500 480)) <= 72)%Q.
Proof.
  assert (St : SteeringLogicMain.is_steering main_near_lock = true)
    by (vm_compute; reflexivity).
  assert (Li : SteeringLogicMain.mouse_listener main_near_lock = true)
    by (vm_compute; reflexivity).
  destruct (proj1 (@a_full_window_moves_by_a_fifth octant_atan2 floor_sqrt
                     octant_atan2_in_range)
              main_near_lock 500%Z 480%Z main_near_lock_reachable St Li)
    as (_ & _ & Lo & Hi).
  split; [exact St|]. split; [exact Li|]. split; [exact Lo|exact Hi].
Defined.

Lemma an_event_adds_its_delta_up_to_the_lock_witness :
  SteeringLogicMain.is_steering main_near_lock = true /\
  accumulation_law
    (SteeringLogicMain.current_offset
       (fst (SteeringLogicMain.on_move octant_atan2 floor_sqrt
               main_near_lock 500 480)))
    (SteeringLogicMain.angular_velocity
       (fst (SteeringLogicMain.on_move octant_atan2 floor_sqrt
               main_near_lock 500 480)))
    (SteeringLogicMain.total_accumulated_degrees main_near_lock)
    (SteeringLogicMain.rotation_direction
       (fst (SteeringLogicMain.on_move octant_atan2 floor_sqrt
               main_near_lock 500 480)))
    (SteeringLogicMain.total_accumulated_degrees
       (fst (SteeringLogicMain.on_move octant_atan2 floor_sqrt
               main_near_lock 500 480))).
Proof.
  assert (St : SteeringLogicMain.is_steering main_near_lock = true)
    by (vm_compute; reflexivity).
  split; [exact St|].
  exact (proj1 (an_event_adds_its_delta_up_to_the_lock
                  octant_atan2 floor_sqrt)
           main_near_lock 500%Z 480%Z main_near_lock_reachable St).
Defined.

(* From -1071 degrees, nine short of the left lock, the ten
   Counterclockwise events of a sweep end at -1080 in both variants. *)
Lemma counterclockwise_rotation_saturates_witness :
  (SteeringLogicMain.is_steering main_near_left_lock = true /\
   counterclockwise_run octant_atan2 floor_sqrt main_near_left_lock
     sweep_left /\
   (SteeringLogicMain.total_accumulated_degrees main_near_left_lock
    == -1071)%Q /\
   (SteeringLogicMain.total_accumulated_degrees
      (MainFacts.after_moves octant_atan2 floor_sqrt main_near_left_lock
         sweep_left) == -1080)%Q) /\
  (CoreLogic.is_steering core_near_left_lock = true /\
   core_counterclockwise_run octant_atan2 floor_sqrt core_near_left_lock
     sweep_left /\
   (CoreLogic.total_accumulated_degrees core_near_left_lock == -1071)%Q /\
   (CoreLogic.total_accumulated_degrees
      (CoreFacts.core_after_moves octant_atan2 floor_sqrt core_near_left_lock
         sweep_left) == -1080)%Q).
Proof.
  destruct (counterclockwise_rotation_saturates octant_atan2 floor_sqrt)
    as (MainSat & CoreSat).
  assert (M1 : SteeringLogicMain.is_steering main_near_left_lock = true)
    by (vm_compute; reflexivity).
  assert (M2 : counterclockwise_run octant_atan2 floor_sqrt
                 main_near_left_lock sweep_left)
    by (vm_compute; repeat split; reflexivity).
  assert (M3 : (SteeringLogicMain.total_accumulated_degrees
                  main_near_left_lock == -1071)%Q)
    by (vm_compute; reflexivity).
  assert (M4 : SteeringLogicMain.max_degrees main_near_left_lock = 1080%Q)
    by (vm_compute; reflexivity).
  assert (C1 : CoreLogic.is_steering core_near_left_lock = true)
    by (vm_compute; reflexivity).
  assert (C2 : core_counterclockwise_run octant_atan2 floor_sqrt
                 core_near_left_lock sweep_left)
    by (vm_compute; repeat split; reflexivity).
  assert (C3 : (CoreLogic.total_accumulated_degrees core_near_left_lock
                == -1071)%Q) by (vm_compute; reflexivity).
  assert (C4 : CoreLogic.max_degrees core_near_left_lock = 1080%Q)
    by (vm_compute; reflexivity).
  split.
  - split; [exact M1|]. split; [exact M2|]. split; [exact M3|].
    change (-1080)%Q with (- (1080))%Q. rewrite <- M4.
    apply (MainSat main_near_left_lock sweep_left
             main_near_left_lock_reachable M1 M2).
    rewrite M4, M3. vm_compute. discriminate.
  - split; [exact C1|]. split; [exact C2|]. split; [exact C3|].
    change (-1080)%Q with (- (1080))%Q. rewrite <- C4.
    apply (CoreSat core_near_left_lock sweep_left
             core_near_left_lock_reachable C1 C2).
    rewrite C4, C3. vm_compute. discriminate.
Defined.

(* At 1071 degrees the wheel of a fresh window holds 1071 degrees. *)
Lemma the_gui_shows_the_accumulated_degrees_witness :
  MainApp.max_degrees (MainApp.new_widget (T:=Q)) = 1080%Q /\
  (MainApp.angle
     (fst (fst (MainApp.update_gui_data MainApp.new_widget
                  (CoreFacts.snapshot core_near_lock))))
   == CoreLogic.total_accumulated_degrees core_near_lock)%Q.
Proof.
  split; [reflexivity|].
  exact (proj1 (proj1 (the_gui_shows_the_accumulated_degrees
                         octant_atan2 floor_sqrt)
                  core_near_lock MainApp.new_widget core_near_lock_reachable
                  eq_refl)).
Defined.

(* A quarter turn to the left is drawn as a quarter turn to the right. *)
Lemma the_dial_mirrors_left_turns_witness :
  (0 < 90)%Q /\ (MainApp.py_mod 90 360 < 360 - (1 # 1000))%Q /\
  (MainApp.display_angle (- (90)) == MainApp.display_angle 90)%Q.
Proof.
  assert (P : (0 < 90)%Q) by reflexivity.
  assert (M : (MainApp.py_mod 90 360 < 360 - (1 # 1000))%Q)
    by (vm_compute; reflexivity).
  split; [exact P|]. split; [exact M|].
  exact (proj2 (proj2 the_dial_mirrors_left_turns) 90%Q P M).
Defined.

Lemma the_two_variants_steer_alike_witness :
  Forall pointer_readable main_drive /\
  alike
    (fst (SteeringLogicMain.run octant_atan2 floor_sqrt
            (fst (SteeringLogicMain.init true true)) main_drive))
    (fst (CoreLogic.run octant_atan2 floor_sqrt
            (fst (CoreLogic.init false true))
            (map standalone_call main_drive))).
Proof.
  assert (F : Forall pointer_readable main_drive).
  { apply Forall_forall. intros c In.
    repeat (destruct In as [E|In]; [subst c; exact I|]). destruct In. }
  split; [exact F|].
  exact (proj1 (the_two_variants_steer_alike octant_atan2 floor_sqrt
                  true false true F)).
Defined.

Lemma recentring_reports_the_center_it_wrote_witness :
  CoreLogic.reachable octant_atan2 floor_sqrt core_near_lock /\
  gui_vjoy_axis_value
    (CoreFacts.snapshot
       (fst (CoreLogic.recenter_view octant_atan2 core_near_lock
               (Some (compass 0 20)))))
  = CoreLogic.CENTER_VJOY_AXIS.
Proof.
  split; [exact core_near_lock_reachable|].
  exact (proj1 (proj2 (proj1 recentring_reports_the_center_it_wrote
                         octant_atan2 floor_sqrt core_near_lock
                         (Some (compass 0 20)) core_near_lock_reachable))).
Defined.

(* The slider at 7: the sensitivity is the double nearest to 0.7, and ten
   times it rounds to 7. *)
Lemma the_slider_position_round_trips_witness :
  (1 <= 7 <= 100)%Z /\
  MainApp.slider_position
    (CoreLogic.sensitivity
       (fst (MainApp.on_sensitivity_changed
               (fst (CoreLogic.init (T:=float) true true)) 7)))
  = 7%Z.
Proof.
  assert (R : (1 <= 7 <= 100)%Z) by lia.
  split; [exact R|].
  exact (proj2 the_slider_position_round_trips
           (fst (CoreLogic.init (T:=float) true true)) 7%Z R).
Defined.

(** ** The axis mapping keeps the order *)

Section AxisOrder.
Local Open Scope Q_scope.

Lemma Qint_le (x y : Q) : x <= y -> (Qint x <= Qint y)%Z.
Proof.
  unfold Qle, Qint. intros L.
  rewrite <- (Z.quot_mul_cancel_r (Qnum x) (QDen x) (QDen y)) by discriminate.
  rewrite <- (Z.quot_mul_cancel_r (Qnum y) (QDen y) (QDen x)) by discriminate.
  rewrite (Z.mul_comm (QDen y) (QDen x)).
  apply Z.quot_le_mono; [reflexivity|exact L].
Qed.

Lemma scaled_le (m t1 t2 : Q) :
  0 < m -> t1 <= t2 ->
  (t1 + m) / (2 * m) * 32767 + 0 <= (t2 + m) / (2 * m) * 32767 + 0.
Proof.
  intros M L.
  assert (K : 0 <= / (2 * m)).
  { apply Qlt_le_weak, Qinv_lt_0_compat. lra. }
  assert (S : (t1 + m) * / (2 * m) <= (t2 + m) * / (2 * m)).
  { apply Qmult_le_compat_r; [lra|exact K]. }
  unfold Qdiv. lra.
Qed.

(** X21.  In exact arithmetic and for [max_degrees > 0], the axis value is
    a monotone function of the accumulated degrees, within the lock and
    outside it: more degrees to the right never give a smaller axis value.
    In both variants. *)
Theorem the_axis_value_keeps_the_order :
  (forall (s : SteeringLogicMain.SteeringLogic Q) t1 t2,
     0 < SteeringLogicMain.max_degrees s -> t1 <= t2 ->
     (SteeringLogicMain.axis_of s t1 <= SteeringLogicMain.axis_of s t2)%Z) /\
  (forall (s1 s2 : CoreLogic.SteeringLogic Q),
     CoreLogic.max_degrees s1 = CoreLogic.max_degrees s2 ->
     0 < CoreLogic.max_degrees s1 ->
     CoreLogic.total_accumulated_degrees s1
     <= CoreLogic.total_accumulated_degrees s2 ->
     (CoreLogic.axis_of s1 <= CoreLogic.axis_of s2)%Z).
Proof.
  split.
  - intros s t1 t2 M L. unfold SteeringLogicMain.axis_of. exact_arith.
    destruct (Qeq_bool (2 * SteeringLogicMain.max_degrees s) 0);
      [reflexivity|].
    change (inject_Z (SteeringLogicMain.MAX_VJOY_AXIS
                      - SteeringLogicMain.MIN_VJOY_AXIS)) with 32767.
    change (inject_Z SteeringLogicMain.MIN_VJOY_AXIS) with 0.
    assert (I : (Qint ((t1 - - SteeringLogicMain.max_degrees s)
                       / (2 * SteeringLogicMain.max_degrees s) * 32767 + 0)
                 <= Qint ((t2 - - SteeringLogicMain.max_degrees s)
                          / (2 * SteeringLogicMain.max_degrees s) * 32767
                          + 0))%Z).
    { apply Qint_le.
      pose proof (scaled_le M L) as S. unfold Qdiv in *. lra. }
    lia.
  - intros s1 s2 E M L. unfold CoreLogic.axis_of. rewrite <- E. exact_arith.
    destruct (Qeq_bool (2 * CoreLogic.max_degrees s1) 0); [reflexivity|].
    change (inject_Z (CoreLogic.MAX_VJOY_AXIS - CoreLogic.MIN_VJOY_AXIS))
      with 32767.
    change (inject_Z CoreLogic.MIN_VJOY_AXIS) with 0.
    pose proof (Qint_le (scaled_le M L)) as I. lia.
Qed.

End AxisOrder.

Lemma the_axis_value_keeps_the_order_witness :
  (0 < SteeringLogicMain.max_degrees main_near_lock)%Q /\
  (1071 <= 1080)%Q /\
  (SteeringLogicMain.axis_of main_near_lock 1071%Q
   <= SteeringLogicMain.axis_of main_near_lock 1080%Q)%Z.
Proof.
  assert (M : (0 < SteeringLogicMain.max_degrees main_near_lock)%Q)
    by (vm_compute; reflexivity).
  assert (L : (1071 <= 1080)%Q) by (vm_compute; discriminate).
  split; [exact M|]. split; [exact L|].
  exact (proj1 the_axis_value_keeps_the_order main_near_lock 1071%Q 1080%Q
           M L).
Defined.
